(** * Answer scoring of InternVL's [utils_eval.py], embedded in Rocq

    The development follows
    [internvl_chat/tools/internvlo1_pipeline/utils_eval.py]: the EvalAI text
    normalizer, the VQA soft-accuracy evaluator, the relaxed numeric scorers,
    the edit distance, the answer parsers and the [check_answer] dispatcher.

    Modelling conventions.
    - A Python [str] is the list of its characters ([str]); a character
      outside ASCII stands as the bytes of its UTF-8 encoding.  Case mapping,
      whitespace, digits and letters are the ASCII ones: a byte above 127
      has no case and is no whitespace, no digit and no letter.  Lengths and
      indices are those of Python on ASCII text.  Python maps the case of
      letters outside ASCII too ([str.lower], [str.upper], the matching
      under [re.IGNORECASE]): a property that depends on the case mapping of
      its input is stated for ASCII text ([is_ascii]).
    - A Python [float] is an IEEE binary64 value, computed with the
      operations of [SpecFloat] at precision 53 and maximal exponent 1024.
      The integers and Booleans that the scorers mix with floats (0, 1,
      [True], [False], a length) are read as the floats of the same value:
      they are small, so that no sum, quotient or comparison changes.
    - A raised exception is a [Raise] result; state (the memo cache, the
      number map filled by [setdefault]) is passed explicitly. *)

From Stdlib Require Import String Ascii Bool Arith ZArith Lia List.
From Stdlib Require Import Floats.SpecFloat.
Import ListNotations.
Open Scope string_scope.
Open Scope nat_scope.
Open Scope list_scope.

Set Implicit Arguments.

(** ** Python strings *)

Abbreviation str := (list ascii).

Definition str_of_string (s : string) : str := list_ascii_of_string s.
Coercion str_of_string : string >-> list.

Module PyStr.

Definition code (c : ascii) : nat := nat_of_ascii c.

Definition eqb (a b : str) : bool :=
  if list_eq_dec ascii_dec a b then true else false.

(** [c.isspace()] on the ASCII range: TAB..CR, FS..US and the blank. *)
Definition isspace (c : ascii) : bool :=
  let n := code c in
  ((9 <=? n) && (n <=? 13)) || ((28 <=? n) && (n <=? 32)).

Definition isdigit (c : ascii) : bool :=
  let n := code c in (48 <=? n) && (n <=? 57).

Definition isupper (c : ascii) : bool :=
  let n := code c in (65 <=? n) && (n <=? 90).

Definition islower (c : ascii) : bool :=
  let n := code c in (97 <=? n) && (n <=? 122).

Definition isalpha (c : ascii) : bool := isupper c || islower c.

Definition lower_char (c : ascii) : ascii :=
  if isupper c then ascii_of_nat (code c + 32) else c.

Definition upper_char (c : ascii) : ascii :=
  if islower c then ascii_of_nat (code c - 32) else c.

Definition lower (s : str) : str := map lower_char s.
Definition upper (s : str) : str := map upper_char s.

(** [s.lstrip(chars)], [s.rstrip(chars)], [s.strip(chars)] with the set of
    characters given as a predicate. *)
Fixpoint lstrip_by (f : ascii -> bool) (s : str) : str :=
  match s with
  | [] => []
  | c :: s' => if f c then lstrip_by f s' else s
  end.

Definition rstrip_by (f : ascii -> bool) (s : str) : str :=
  rev (lstrip_by f (rev s)).

Definition strip_by (f : ascii -> bool) (s : str) : str :=
  rstrip_by f (lstrip_by f s).

Definition strip (s : str) : str := strip_by isspace s.

Definition in_chars (chars : str) (c : ascii) : bool :=
  existsb (Ascii.eqb c) chars.

Definition strip_chars (chars s : str) : str := strip_by (in_chars chars) s.
Definition rstrip_chars (chars s : str) : str := rstrip_by (in_chars chars) s.

(** [s.startswith(p)] *)
Fixpoint startswith (p s : str) : bool :=
  match p, s with
  | [], _ => true
  | _ :: _, [] => false
  | a :: p', b :: s' => Ascii.eqb a b && startswith p' s'
  end.

Definition endswith (p s : str) : bool := startswith (rev p) (rev s).

(** [p in s] *)
Fixpoint contains (p s : str) : bool :=
  startswith p s ||
  match s with
  | [] => false
  | _ :: s' => contains p s'
  end.

(** [s.replace(old, new)] for a non-empty [old]: the occurrences are taken
    from left to right and do not overlap.  [skip] counts the characters of
    the occurrence just replaced that are still to be passed over. *)
Fixpoint replace_from (old new : str) (skip : nat) (s : str) : str :=
  match s with
  | [] => []
  | c :: s' =>
      match skip with
      | S k => replace_from old new k s'
      | O =>
          if startswith old s
          then new ++ replace_from old new (List.length old - 1) s'
          else c :: replace_from old new 0 s'
      end
  end.

Definition replace (old new s : str) : str := replace_from old new 0 s.

(** [s.count(sub)] for a non-empty [sub]: non-overlapping occurrences. *)
Fixpoint count_from (sub : str) (skip : nat) (s : str) : nat :=
  match s with
  | [] => 0
  | _ :: s' =>
      match skip with
      | S k => count_from sub k s'
      | O =>
          if startswith sub s
          then S (count_from sub (List.length sub - 1) s')
          else count_from sub 0 s'
      end
  end.

Definition count (sub s : str) : nat := count_from sub 0 s.

(** [s.split(sep)[0]] for a non-empty [sep]: the text before the first
    occurrence of [sep], the whole text when there is none. *)
Fixpoint before_first (sep s : str) : str :=
  match s with
  | [] => []
  | c :: s' => if startswith sep s then [] else c :: before_first sep s'
  end.

(** [s.split()]: the maximal runs of non-whitespace characters.  [cur] is
    the word being read, in reverse. *)
Fixpoint split_from (cur : str) (s : str) : list str :=
  match s with
  | [] => match cur with [] => [] | _ => [rev cur] end
  | c :: s' =>
      if isspace c
      then match cur with
           | [] => split_from [] s'
           | _ => rev cur :: split_from [] s'
           end
      else split_from (c :: cur) s'
  end.

Definition split (s : str) : list str := split_from [] s.

(** [sep.join(l)] *)
Fixpoint join (sep : str) (l : list str) : str :=
  match l with
  | [] => []
  | [w] => w
  | w :: l' => w ++ sep ++ join sep l'
  end.

Definition char_at (s : str) (i : nat) : option ascii := nth_error s i.

End PyStr.

(** A Python [dict] from strings to strings, in insertion order. *)
Definition dict : Set := list (str * str).

Fixpoint dict_get (d : dict) (k : str) : option str :=
  match d with
  | [] => None
  | (k', v) :: d' => if PyStr.eqb k' k then Some v else dict_get d' k
  end.

Definition dict_of (l : list (string * string)) : dict :=
  map (fun kv => (str_of_string (fst kv), str_of_string (snd kv))) l.

(** [d.setdefault(k, v)]: the stored value when [k] is a key of [d]; else
    [v], which is stored under [k]. *)
Definition setdefault (d : dict) (k v : str) : str * dict :=
  match dict_get d k with
  | Some x => (x, d)
  | None => (v, d ++ [(k, v)])
  end.

(** ** [class EvalAIAnswerProcessor] *)

Module EvalAIAnswerProcessor.

Definition CONTRACTIONS : dict := dict_of [
    ("aint", "ain't");
    ("arent", "aren't");
    ("cant", "can't");
    ("couldve", "could've");
    ("couldnt", "couldn't");
    ("couldn'tve", "couldn't've");
    ("couldnt've", "couldn't've");
    ("didnt", "didn't");
    ("doesnt", "doesn't");
    ("dont", "don't");
    ("hadnt", "hadn't");
    ("hadnt've", "hadn't've");
    ("hadn'tve", "hadn't've");
    ("hasnt", "hasn't");
    ("havent", "haven't");
    ("hed", "he'd");
    ("hed've", "he'd've");
    ("he'dve", "he'd've");
    ("hes", "he's");
    ("howd", "how'd");
    ("howll", "how'll");
    ("hows", "how's");
    ("Id've", "I'd've");
    ("I'dve", "I'd've");
    ("Im", "I'm");
    ("Ive", "I've");
    ("isnt", "isn't");
    ("itd", "it'd");
    ("itd've", "it'd've");
    ("it'dve", "it'd've");
    ("itll", "it'll");
    ("let's", "let's");
    ("maam", "ma'am");
    ("mightnt", "mightn't");
    ("mightnt've", "mightn't've");
    ("mightn'tve", "mightn't've");
    ("mightve", "might've");
    ("mustnt", "mustn't");
    ("mustve", "must've");
    ("neednt", "needn't");
    ("notve", "not've");
    ("oclock", "o'clock");
    ("oughtnt", "oughtn't");
    ("ow's'at", "'ow's'at");
    ("'ows'at", "'ow's'at");
    ("'ow'sat", "'ow's'at");
    ("shant", "shan't");
    ("shed've", "she'd've");
    ("she'dve", "she'd've");
    ("she's", "she's");
    ("shouldve", "should've");
    ("shouldnt", "shouldn't");
    ("shouldnt've", "shouldn't've");
    ("shouldn'tve", "shouldn't've");
    ("somebody'd", "somebodyd");
    ("somebodyd've", "somebody'd've");
    ("somebody'dve", "somebody'd've");
    ("somebodyll", "somebody'll");
    ("somebodys", "somebody's");
    ("someoned", "someone'd");
    ("someoned've", "someone'd've");
    ("someone'dve", "someone'd've");
    ("someonell", "someone'll");
    ("someones", "someone's");
    ("somethingd", "something'd");
    ("somethingd've", "something'd've");
    ("something'dve", "something'd've");
    ("somethingll", "something'll");
    ("thats", "that's");
    ("thered", "there'd");
    ("thered've", "there'd've");
    ("there'dve", "there'd've");
    ("therere", "there're");
    ("theres", "there's");
    ("theyd", "they'd");
    ("theyd've", "they'd've");
    ("they'dve", "they'd've");
    ("theyll", "they'll");
    ("theyre", "they're");
    ("theyve", "they've");
    ("twas", "'twas");
    ("wasnt", "wasn't");
    ("wed've", "we'd've");
    ("we'dve", "we'd've");
    ("weve", "we've");
    ("werent", "weren't");
    ("whatll", "what'll");
    ("whatre", "what're");
    ("whats", "what's");
    ("whatve", "what've");
    ("whens", "when's");
    ("whered", "where'd");
    ("wheres", "where's");
    ("whereve", "where've");
    ("whod", "who'd");
    ("whod've", "who'd've");
    ("who'dve", "who'd've");
    ("wholl", "who'll");
    ("whos", "who's");
    ("whove", "who've");
    ("whyll", "why'll");
    ("whyre", "why're");
    ("whys", "why's");
    ("wont", "won't");
    ("wouldve", "would've");
    ("wouldnt", "wouldn't");
    ("wouldnt've", "wouldn't've");
    ("wouldn'tve", "wouldn't've");
    ("yall", "y'all");
    ("yall'll", "y'all'll");
    ("y'allll", "y'all'll");
    ("yall'd've", "y'all'd've");
    ("y'alld've", "y'all'd've");
    ("y'all'dve", "y'all'd've");
    ("youd", "you'd");
    ("youd've", "you'd've");
    ("you'dve", "you'd've");
    ("youll", "you'll");
    ("youre", "you're");
    ("youve", "you've")
  ]%string.

Definition NUMBER_MAP : dict := dict_of [
    ("none", "0"); ("zero", "0"); ("one", "1"); ("two", "2");
    ("three", "3"); ("four", "4"); ("five", "5"); ("six", "6");
    ("seven", "7"); ("eight", "8"); ("nine", "9"); ("ten", "10")
  ]%string.

Definition ARTICLES : list str := map str_of_string ["a"; "an"; "the"]%string.

Definition dquote : ascii := ascii_of_nat 34.
Definition newline : ascii := ascii_of_nat 10.
Definition tab : ascii := ascii_of_nat 9.

(** The marks of [PUNCTUATIONS]; the list itself holds them as strings of
    one character. *)
Definition PUNCTUATION_MARKS : list ascii :=
  [";"; "/"; "["; "]"; dquote; "{"; "}"; "("; ")"; "="; "+"; "\"; "_";
   "-"; ">"; "<"; "@"; "`"; ","; "?"; "!"]%char.

Definition PUNCTUATIONS : list str := map (fun c : ascii => [c]) PUNCTUATION_MARKS.

(** [PERIOD_STRIP = re.compile(r'(?!<=\d)(\.)(?!\d)')], matched at the head
    of [s].  The pattern opens with a negative lookahead for the characters
    [<=] and a digit (it is not a lookbehind), then takes a period, then
    looks ahead for a non-digit or the end of the text. *)
Definition PERIOD_STRIP_match (s : str) : bool :=
  negb (PyStr.startswith "<=" s &&
        match nth_error s 2 with Some d => PyStr.isdigit d | None => false end)
  && match s with
     | c :: rest =>
         Ascii.eqb c "."
         && negb (match rest with d :: _ => PyStr.isdigit d | [] => false end)
     | [] => false
     end.

(** [PERIOD_STRIP.sub(repl, s, count)]: the matches are single characters,
    taken from left to right; [limit] is the number of substitutions still
    allowed, [None] when it is unbounded. *)
Fixpoint PERIOD_STRIP_sub_from (repl : str) (limit : option nat) (s : str) : str :=
  match s with
  | [] => []
  | c :: s' =>
      if PERIOD_STRIP_match s then
        match limit with
        | None => repl ++ PERIOD_STRIP_sub_from repl None s'
        | Some (S k) => repl ++ PERIOD_STRIP_sub_from repl (Some k) s'
        | Some O => c :: PERIOD_STRIP_sub_from repl (Some O) s'
        end
      else c :: PERIOD_STRIP_sub_from repl limit s'
  end.

(** A [count] of 0 asks for every match to be replaced. *)
Definition PERIOD_STRIP_sub (repl s : str) (count : nat) : str :=
  PERIOD_STRIP_sub_from repl (match count with O => None | _ => Some count end) s.

(** The value of the flag [re.UNICODE], passed to [sub] where it takes the
    count. *)
Definition re_UNICODE : nat := 32.

(** [re.search(COMMA_STRIP, s) is not None] with
    [COMMA_STRIP = re.compile(r'(?<=\d)(\,)+(?=\d)')]: a digit, a run of
    commas, a digit.  [prev_digit] tells whether the character before [s]
    is a digit. *)
Fixpoint COMMA_STRIP_search_from (prev_digit : bool) (s : str) : bool :=
  match s with
  | [] => false
  | c :: s' =>
      (prev_digit && Ascii.eqb c "," &&
       match PyStr.lstrip_by (Ascii.eqb ",") s' with
       | d :: _ => PyStr.isdigit d
       | [] => false
       end)
      || COMMA_STRIP_search_from (PyStr.isdigit c) s'
  end.

Definition COMMA_STRIP_search (s : str) : bool := COMMA_STRIP_search_from false s.

(** [word_tokenize]: lower case, no comma, no question mark, a blank before
    every ['s]. *)
Definition word_tokenize (word : str) : str :=
  let word := PyStr.lower word in
  let word := PyStr.replace "'s" " 's" (PyStr.replace "?" "" (PyStr.replace "," "" word)) in
  PyStr.strip word.

(** [process_punctuation]: a mark is deleted when it stands next to a blank
    somewhere in the text (or when a comma stands between digits), else it
    is replaced by a blank; then the periods are stripped, with the flag
    [re.UNICODE] in the place of the count. *)
Definition process_punctuation (in_text : str) : str :=
  let out_text :=
    fold_left
      (fun (out_text p : str) =>
         if (PyStr.contains (p ++ " ") in_text || PyStr.contains (" " ++ p) in_text)
            || COMMA_STRIP_search in_text
         then PyStr.replace p "" out_text
         else PyStr.replace p " " out_text)
      PUNCTUATIONS in_text in
  PERIOD_STRIP_sub "" out_text re_UNICODE.

Definition is_article (word : str) : bool := existsb (PyStr.eqb word) ARTICLES.

Definition expand (word : str) : str :=
  match dict_get CONTRACTIONS word with
  | Some v => v
  | None => word
  end.

(** The first loop of [process_digit_article]; [number_map] is the class
    attribute [NUMBER_MAP], which [setdefault] extends. *)
Fixpoint digit_article_loop (number_map : dict) (temp_text out_text : list str)
  : list str * dict :=
  match temp_text with
  | [] => (out_text, number_map)
  | word :: rest =>
      let (word, number_map) := setdefault number_map word word in
      if negb (is_article word)
      then digit_article_loop number_map rest (out_text ++ [word])
      else digit_article_loop number_map rest out_text
  end.

(** [process_digit_article]: the text returned and the number map after the
    call.  The second loop replaces in place the words that are keys of
    [CONTRACTIONS]. *)
Definition process_digit_article_st (number_map : dict) (in_text : str) : str * dict :=
  let temp_text := PyStr.split (PyStr.lower in_text) in
  let (out_text, number_map) := digit_article_loop number_map temp_text [] in
  let out_text := map expand out_text in
  (PyStr.join " " out_text, number_map).

(** [__call__], with the number map passed in and out. *)
Definition call_st (number_map : dict) (item : str) : str * dict :=
  let item := word_tokenize item in
  let item := PyStr.strip (PyStr.replace [tab] " " (PyStr.replace [newline] " " item)) in
  let item := process_punctuation item in
  process_digit_article_st number_map item.

(** The processor on the number map as the class declares it. *)
Definition process_digit_article (in_text : str) : str :=
  fst (process_digit_article_st NUMBER_MAP in_text).

(** The normalized text.  The number map of the class is the one to start
    from: the entries that earlier calls have added do not change what a
    call returns (lemma [call_st_number_map]). *)
Definition __call__ (item : str) : str := fst (call_st NUMBER_MAP item).

End EvalAIAnswerProcessor.

(** ** Python floats: IEEE binary64 *)

Module Float64.

Definition prec : Z := 53.
Definition emax : Z := 1024.

Abbreviation float := spec_float.

Definition add : float -> float -> float := SFadd prec emax.
Definition sub : float -> float -> float := SFsub prec emax.
Definition div : float -> float -> float := SFdiv prec emax.
Definition abs : float -> float := SFabs.
Definition ltb : float -> float -> bool := SFltb.
Definition leb : float -> float -> bool := SFleb.

(** The nearest binary64 value (ties to even) of [n / d]. *)
Definition of_ratio (sign : bool) (n d : positive) : float :=
  div (S754_finite sign n 0) (S754_finite false d 0).

(** [float(n)] for a Python integer [n]. *)
Definition of_Z (n : Z) : float :=
  match n with
  | Z0 => S754_zero false
  | Zpos p => of_ratio false p 1
  | Zneg p => of_ratio true p 1
  end.

Definition of_nat (n : nat) : float := of_Z (Z.of_nat n).

(** The nearest binary64 value of the decimal [(-1)^sign * m * 10^e]. *)
Definition of_decimal (sign : bool) (m : Z) (e : Z) : float :=
  match m with
  | Zpos p =>
      if (0 <=? e)%Z
      then of_ratio sign (p * Z.to_pos (10 ^ e)) 1
      else of_ratio sign p (Z.to_pos (10 ^ (- e)))
  | _ => S754_zero sign
  end.

Definition is_zero (x : float) : bool :=
  match x with S754_zero _ => true | _ => false end.

Definition is_nan (x : float) : bool :=
  match x with S754_nan => true | _ => false end.

(** Truth value of a float: [bool(x)] is [x != 0.0]. *)
Definition truthy (x : float) : bool := negb (is_zero x).

(** *** [float(text)] on a string *)

(** Whitespace of the float parser on ASCII text: TAB..CR and the blank. *)
Definition isspace_c (c : ascii) : bool :=
  let n := PyStr.code c in ((9 <=? n) && (n <=? 13)) || (n =? 32).

Definition digit_val (c : ascii) : Z := Z.of_nat (PyStr.code c - 48).

Definition digits_val (ds : str) : Z :=
  fold_left (fun acc c => (10 * acc + digit_val c)%Z) ds 0%Z.

Fixpoint span_digits (s : str) : str * str :=
  match s with
  | c :: s' =>
      if PyStr.isdigit c
      then let (ds, r) := span_digits s' in (c :: ds, r)
      else ([], s)
  | [] => ([], [])
  end.

(** Underscores are accepted between two digits only; they are removed
    before the number is read.  [prev] is the previous character. *)
Fixpoint strip_underscores (prev : option ascii) (s : str) : option str :=
  match s with
  | [] =>
      match prev with
      | Some "_"%char => None
      | _ => Some []
      end
  | c :: s' =>
      if Ascii.eqb c "_" then
        match prev with
        | Some p => if PyStr.isdigit p then strip_underscores (Some c) s' else None
        | None => None
        end
      else
        if match prev with Some "_"%char => negb (PyStr.isdigit c) | _ => false end
        then None
        else option_map (cons c) (strip_underscores (Some c) s')
  end.

(** An optional sign; the result tells whether it is a minus. *)
Definition read_sign (s : str) : bool * str :=
  match s with
  | "-"%char :: r => (true, r)
  | "+"%char :: r => (false, r)
  | _ => (false, s)
  end.

(** The exponent part: [e] or [E], an optional sign and at least one
    digit; when the digits are missing the exponent is not read at all. *)
Definition read_exponent (s : str) : Z * str :=
  match s with
  | c :: r =>
      if Ascii.eqb c "e" || Ascii.eqb c "E" then
        let (neg, r1) := read_sign r in
        let (ds, r2) := span_digits r1 in
        match ds with
        | [] => (0%Z, s)
        | _ => ((if neg then - digits_val ds else digits_val ds)%Z, r2)
        end
      else (0%Z, s)
  | [] => (0%Z, s)
  end.

(** A decimal number: digits, an optional point and digits, with a digit
    on one side of the point at least, and an optional exponent. *)
Definition read_decimal (sign : bool) (s : str) : option (float * str) :=
  let (ip, r1) := span_digits s in
  let (fp, r2) :=
    match r1 with
    | "."%char :: r => span_digits r
    | _ => ([], r1)
    end in
  match ip ++ fp with
  | [] => None
  | ds =>
      let (e, r3) := read_exponent r2 in
      Some (of_decimal sign (digits_val ds) (e - Z.of_nat (List.length fp)), r3)
  end.

(** [inf], [infinity] and [nan], in any case. *)
Definition read_inf_nan (sign : bool) (s : str) : option (float * str) :=
  let l := PyStr.lower (firstn 8 s) in
  if PyStr.startswith "infinity" l then Some (S754_infinity sign, skipn 8 s)
  else if PyStr.startswith "inf" l then Some (S754_infinity sign, skipn 3 s)
  else if PyStr.startswith "nan" l then Some (S754_nan, skipn 3 s)
  else None.

Definition read_number (s : str) : option (float * str) :=
  let (sign, r) := read_sign s in
  match read_decimal sign r with
  | Some res => Some res
  | None => read_inf_nan sign r
  end.

(** [float(text)]; [None] stands for [ValueError]. *)
Definition of_str (text : str) : option float :=
  match (if PyStr.contains "_" text
         then strip_underscores None text
         else Some text) with
  | None => None
  | Some s =>
      match read_number (PyStr.lstrip_by isspace_c s) with
      | Some (x, rest) =>
          match PyStr.lstrip_by isspace_c rest with
          | [] => Some x
          | _ => None
          end
      | None => None
      end
  end.

Definition one : float := Eval vm_compute in of_Z 1.
Definition zero : float := S754_zero false.

(** [float(b)] for a Boolean, as arithmetic and comparisons read it. *)
Definition of_bool (b : bool) : float := if b then one else zero.

End Float64.

(** ** Exceptions *)

Inductive exn : Set :=
| AssertionError
| ZeroDivisionError
| NotImplementedError (msg : str)
| RuntimeError (msg : str).

Inductive result (A : Type) : Type :=
| Ok (a : A)
| Raise (e : exn).

Arguments Ok {A} a.
Arguments Raise {A} e.

Definition bind {A B : Type} (r : result A) (k : A -> result B) : result B :=
  match r with
  | Ok a => k a
  | Raise e => Raise e
  end.

Notation "x <- r ;; k" := (bind r (fun x => k))
  (at level 61, r at next level, right associativity).

Fixpoint mapM {A B : Type} (f : A -> result B) (l : list A) : result (list B) :=
  match l with
  | [] => Ok []
  | a :: l' => b <- f a ;; bs <- mapM f l' ;; Ok (b :: bs)
  end.

(** ** Python built-ins on lists and numbers *)

Definition enumerate {A : Type} (l : list A) : list (nat * A) :=
  combine (seq 0 (List.length l)) l.

(** [sum(l)]: the additions start from 0 and go from left to right, each
    one rounded (CPython 3.12 and later compensate the rounding errors of a
    sum of floats; the sums that the properties of the claims evaluate have
    one term or integer terms, which both ways of summing give alike). *)
Definition py_sum (l : list Float64.float) : Float64.float :=
  fold_left Float64.add l Float64.zero.

(** [max(a, x)] keeps [a] unless [x > a]; [min(a, x)] keeps [a] unless
    [x < a]. *)
Definition py_max (a x : Float64.float) : Float64.float :=
  if Float64.ltb a x then x else a.

Definition py_min (a x : Float64.float) : Float64.float :=
  if Float64.ltb x a then x else a.

(** ** [class TextVQAAccuracyEvaluator] *)

Module TextVQAAccuracyEvaluator.

Definition answer_processor : str -> str := EvalAIAnswerProcessor.__call__.

(** Equality of the pairs [(index, answer)] of [gt_answers]. *)
Definition item_eqb (a b : nat * str) : bool :=
  Nat.eqb (fst a) (fst b) && PyStr.eqb (snd a) (snd b).

(** [set(answers)], listed without repetition; the order of a Python set
    is arbitrary and the dictionary built from it does not depend on it. *)
Definition set_of (answers : list str) : list str :=
  nodup (list_eq_dec ascii_dec) answers.

(** The body of the loop over [unique_answers]: the value stored under
    [unique_answer]. *)
Definition unique_answer_score (gt_answers : list (nat * str)) (unique_answer : str)
  : Float64.float :=
  let accs :=
    map (fun gt_answer =>
           let other_answers :=
             filter (fun item => negb (item_eqb item gt_answer)) gt_answers in
           let matching_answers :=
             filter (fun item => PyStr.eqb (snd item) unique_answer) other_answers in
           py_min Float64.one
             (Float64.div (Float64.of_nat (List.length matching_answers))
                          (Float64.of_nat 3)))
        gt_answers in
  Float64.div (py_sum accs) (Float64.of_nat (List.length accs)).

Definition _compute_answer_scores (raw_answers : list str)
  : result (list (str * Float64.float)) :=
  let answers := map answer_processor raw_answers in
  if negb (List.length answers =? 10) then Raise AssertionError
  else
    let gt_answers := enumerate answers in
    let unique_answers := set_of answers in
    Ok (map (fun unique_answer =>
               (unique_answer, unique_answer_score gt_answers unique_answer))
            unique_answers).

(** [d.get(k, default)] *)
Fixpoint scores_get (d : list (str * Float64.float)) (k : str)
                    (default : Float64.float) : Float64.float :=
  match d with
  | [] => default
  | (k', v) :: d' => if PyStr.eqb k' k then v else scores_get d' k default
  end.

Record entry : Set := { pred_answer : str; gt_answers : list str }.

(** The body of the loop of [eval_pred_list]: the score of one entry. *)
Definition entry_score (e : entry) : result Float64.float :=
  let pred_answer := answer_processor (pred_answer e) in
  unique_answer_scores <- _compute_answer_scores (gt_answers e) ;;
  Ok (scores_get unique_answer_scores pred_answer Float64.zero).

Definition eval_pred_list (pred_list : list entry) : result Float64.float :=
  pred_scores <- mapM entry_score pred_list ;;
  match pred_scores with
  | [] => Raise ZeroDivisionError
  | _ => Ok (Float64.div (py_sum pred_scores)
                         (Float64.of_nat (List.length pred_scores)))
  end.

End TextVQAAccuracyEvaluator.

Definition option_candidate : list str :=
  map (fun c : ascii => [c])
    ["A"; "B"; "C"; "D"; "E"; "F"; "G"; "H"; "I"; "J"; "K"; "L"; "M"; "N"]%char.

Definition isfloat (x : str) : bool :=
  match Float64.of_str x with Some _ => true | None => false end.

(** The float literals of the source. *)
Definition lit_1e_3 : Float64.float := Eval vm_compute in Float64.of_decimal false 1 (-3).
Definition lit_0_05 : Float64.float := Eval vm_compute in Float64.of_decimal false 5 (-2).
Definition lit_0_9 : Float64.float := Eval vm_compute in Float64.of_decimal false 9 (-1).

(** The test [prediction_float is not None and target_float] and the
    comparison it guards, shared by [math_score] and [relaxed_correctness]. *)
Definition relative_change (prediction_float target_float : Float64.float) : Float64.float :=
  Float64.div (Float64.abs (Float64.sub prediction_float target_float))
              (Float64.abs target_float).

Module math_score_def.

Definition _to_float (text : str) : option Float64.float :=
  let text := PyStr.replace "degrees" "" text in
  let text := PyStr.replace "degree" "" text in
  let text := PyStr.replace "\angle" "" text in
  let text := PyStr.replace "degrees" "" text in
  let text := PyStr.replace "°" "" text in
  let text := PyStr.replace "%" "" text in
  let text := PyStr.replace "cm" "" text in
  Float64.of_str text.

End math_score_def.

Definition math_score (target prediction : str) (max_relative_change : Float64.float) : bool :=
  let prediction_float := math_score_def._to_float prediction in
  let target_float := math_score_def._to_float target in
  match prediction_float, target_float with
  | Some pf, Some tf =>
      if Float64.truthy tf
      then Float64.leb (relative_change pf tf) max_relative_change
      else PyStr.eqb (PyStr.lower prediction) (PyStr.lower target)
  | _, _ => PyStr.eqb (PyStr.lower prediction) (PyStr.lower target)
  end.

Module relaxed_correctness_def.

Definition _to_float (text : str) : option Float64.float :=
  if PyStr.endswith "%" text
  then Float64.of_str (PyStr.rstrip_chars "%" text)
  else Float64.of_str text.

End relaxed_correctness_def.

Definition relaxed_correctness (target prediction : str)
                               (max_relative_change : Float64.float) : bool :=
  if (List.length target =? 4) && PyStr.startswith "20" target
  then PyStr.eqb (PyStr.lower prediction) (PyStr.lower target)
  else
    let prediction_float := relaxed_correctness_def._to_float prediction in
    let target_float := relaxed_correctness_def._to_float target in
    match prediction_float, target_float with
    | Some pf, Some tf =>
        if Float64.truthy tf
        then Float64.leb (relative_change pf tf) max_relative_change
        else PyStr.eqb (PyStr.lower prediction) (PyStr.lower target)
    | _, _ => PyStr.eqb (PyStr.lower prediction) (PyStr.lower target)
    end.

Definition min3 (a b c : nat) : nat := Nat.min a (Nat.min b c).

(** The body of the inner loop of [levenshtein_distance]: one more entry of
    the row [distances_], from the previous row [distances].  The indices
    read are inside the rows; [nth] and [last] get a default that is never
    used. *)
Definition levenshtein_step (distances : list nat) (c2 : ascii)
    (distances_ : list nat) (ic : nat * ascii) : list nat :=
  let (i1, c1) := ic in
  if Ascii.eqb c1 c2
  then distances_ ++ [nth i1 distances 0]
  else distances_ ++
         [1 + min3 (nth i1 distances 0) (nth (i1 + 1) distances 0)
                   (last distances_ 0)].

(** The inner loop: the row for the character [c2] at index [i2]. *)
Definition levenshtein_row (s1 : str) (distances : list nat) (i2 : nat) (c2 : ascii)
  : list nat :=
  fold_left (levenshtein_step distances c2) (enumerate s1) [i2 + 1].

Definition levenshtein_distance (s1 s2 : str) : nat :=
  let (s1, s2) :=
    if List.length s2 <? List.length s1 then (s2, s1) else (s1, s2) in
  let distances := seq 0 (List.length s1 + 1) in
  let distances :=
    fold_left
      (fun distances (ic : nat * ascii) =>
         let (i2, c2) := ic in levenshtein_row s1 distances i2 c2)
      (enumerate s2) distances in
  last distances 0.

Definition multi_choice_score (answer_pred answer_gt : str) : bool :=
  let answer_pred := PyStr.strip answer_pred in
  let answer_gt := PyStr.strip answer_gt in
  if PyStr.eqb (PyStr.lower answer_pred) (PyStr.lower answer_gt) then true
  else
    let answer_pred :=
      match answer_pred with
      | c0 :: "."%char :: _ => [c0]
      | _ => answer_pred
      end in
    let answer_pred :=
      match answer_pred with
      | "("%char :: c1 :: ")"%char :: _ => [c1]
      | _ => answer_pred
      end in
    PyStr.eqb (PyStr.lower answer_pred) (PyStr.lower answer_gt).

(** ** [parse_answer] *)

Module Re.

(** An alternation of literal strings under [re.IGNORECASE], matched at
    the head of [s]: the first alternative that fits is taken; the result
    is the matched text and what follows it.  The letters are compared up
    to ASCII case, which is the matching of Python on ASCII text (on other
    text Python also lets the long s stand for [s] and the dotless and the
    dotted capital i for [i]). *)
Fixpoint match_literals (alts : list str) (s : str) : option (str * str) :=
  match alts with
  | [] => None
  | alt :: alts' =>
      let n := List.length alt in
      if PyStr.eqb (PyStr.lower (firstn n s)) (PyStr.lower alt)
      then Some (firstn n s, skipn n s)
      else match_literals alts' s
  end.

(** [.*] without [re.DOTALL]: everything up to the end of the line. *)
Fixpoint dot_star (s : str) : str :=
  match s with
  | [] => []
  | c :: s' => if Ascii.eqb c (ascii_of_nat 10) then [] else c :: dot_star s'
  end.

(** [re.search] under [re.IGNORECASE] for a pattern made of a first group
    that is an alternation of literals, any run of whitespace, and a second
    group that takes the rest of the line: the leftmost match; the result
    is the pair of groups 1 and 2. *)
Fixpoint search (alts : list str) (s : str) : option (str * str) :=
  match match_literals alts s with
  | Some (g1, rest) => Some (g1, dot_star (PyStr.lstrip_by PyStr.isspace rest))
  | None =>
      match s with
      | [] => None
      | _ :: s' => search alts s'
      end
  end.

End Re.

Definition parse_answer (text version : str) : result (str * str) :=
  m <- (if PyStr.eqb version "en"
        then Ok (Re.search ["Final answer:" : str; "Answer:" : str] text)
        else if PyStr.eqb version "zh"
        then Ok (Re.search ["答案:" : str] text)
        else Raise (NotImplementedError ("Unsupported prompt version " ++ version))) ;;
  match m with
  | None => Raise (RuntimeError ("Fail to parse answer: " ++ text))
  | Some (group1, group2) =>
      let answer_trigger := PyStr.strip group1 in
      let answer := PyStr.strip (PyStr.strip_chars "*" (PyStr.strip group2)) in
      if 2 <? PyStr.count answer_trigger text
      then Raise (RuntimeError ("Duplicated answer trigger: " ++ text))
      else
        let rationale :=
          PyStr.strip (PyStr.strip_chars "*" (PyStr.strip
            (PyStr.before_first (PyStr.lower answer_trigger) (PyStr.lower text)))) in
        if List.length rationale =? 0
        then Raise (RuntimeError ("Fail to parse rationale: " ++ text))
        else Ok (rationale, answer)
  end.

(** ** [check_answer] and its memo cache *)

(** [evaluator_cache]: a dictionary from pairs (prediction, target) to the
    decision 0 or 1. *)
Definition cache : Set := list ((str * str) * nat).

Definition key_eqb (a b : str * str) : bool :=
  PyStr.eqb (fst a) (fst b) && PyStr.eqb (snd a) (snd b).

Fixpoint cache_get (c : cache) (k : str * str) : option nat :=
  match c with
  | [] => None
  | (k', v) :: c' => if key_eqb k' k then Some v else cache_get c' k
  end.

Fixpoint cache_set (c : cache) (k : str * str) (v : nat) : cache :=
  match c with
  | [] => [(k, v)]
  | (k', v') :: c' =>
      if key_eqb k' k then (k, v) :: c' else (k', v') :: cache_set c' k v
  end.

Definition in_mode (name : str) (mode : list str) : bool :=
  existsb (PyStr.eqb name) mode.

(** The five blocks of [check_answer], each from the accuracy so far to the
    accuracy after it. *)
Definition vqa_block (answer_pred answer_gt : str) (accuracy : Float64.float)
  : result Float64.float :=
  let merged_outputs :=
    [ {| TextVQAAccuracyEvaluator.pred_answer := answer_pred;
         TextVQAAccuracyEvaluator.gt_answers := repeat answer_gt 10 |} ] in
  score <- TextVQAAccuracyEvaluator.eval_pred_list merged_outputs ;;
  let accuracy := py_max accuracy score in
  let accuracy :=
    if List.length (EvalAIAnswerProcessor.__call__ answer_pred) =? 0
    then Float64.zero else accuracy in
  let accuracy :=
    if List.length (EvalAIAnswerProcessor.__call__ answer_gt) =? 0
    then Float64.zero else accuracy in
  Ok accuracy.

Definition relaxed_block (answer_pred answer_gt : str) (accuracy : Float64.float)
  : result Float64.float :=
  Ok (py_max accuracy (Float64.of_bool (relaxed_correctness answer_gt answer_pred lit_0_05))).

(** The quotient computed by the [anls] block: the edit distance of the
    whitespace-normalized lower-case answers over the larger length. *)
Definition anls_ratio (answer_pred answer_gt : str) : result Float64.float :=
  let gt_answer := PyStr.join " " (PyStr.split (PyStr.lower (PyStr.strip answer_gt))) in
  let det_answer := PyStr.join " " (PyStr.split (PyStr.lower (PyStr.strip answer_pred))) in
  let dist := levenshtein_distance gt_answer det_answer in
  let length := Nat.max (List.length (PyStr.upper answer_gt))
                        (List.length (PyStr.upper answer_pred)) in
  if length =? 0 then Raise ZeroDivisionError
  else Ok (Float64.div (Float64.of_nat dist) (Float64.of_nat length)).

Definition anls_block (answer_pred answer_gt : str) (accuracy : Float64.float)
  : result Float64.float :=
  ratio <- anls_ratio answer_pred answer_gt ;;
  Ok (py_max accuracy ratio).

Definition mc_block (answer_pred answer_gt : str) (accuracy : Float64.float)
  : result Float64.float :=
  Ok (py_max accuracy (Float64.of_bool (multi_choice_score answer_pred answer_gt))).

Definition math_block (answer_pred answer_gt : str) (accuracy : Float64.float)
  : result Float64.float :=
  Ok (py_max accuracy (Float64.of_bool (math_score answer_pred answer_gt lit_1e_3))).

(** [if name in mode: block] *)
Definition when_mode (name : str) (mode : list str)
    (block : Float64.float -> result Float64.float) (accuracy : Float64.float)
  : result Float64.float :=
  if in_mode name mode then block accuracy else Ok accuracy.

(** The accuracy accumulated over the enabled modes, before it is turned
    into a decision. *)
Definition accumulate (answer_pred answer_gt : str) (mode : list str)
  : result Float64.float :=
  a <- when_mode "vqa_score" mode (vqa_block answer_pred answer_gt) Float64.zero ;;
  a <- when_mode "relaxed_accuracy" mode (relaxed_block answer_pred answer_gt) a ;;
  a <- when_mode "anls" mode (anls_block answer_pred answer_gt) a ;;
  a <- when_mode "mc_score" mode (mc_block answer_pred answer_gt) a ;;
  when_mode "math_score" mode (math_block answer_pred answer_gt) a.

(** [check_answer] on the cache [evaluator_cache]: the value returned (or the
    exception raised) and the cache afterwards. *)
Definition check_answer (evaluator_cache : cache) (answer_pred answer_gt : str)
                        (mode : list str) : result nat * cache :=
  (* the value read from the cache is assigned to [accuracy], which is
     assigned again before it is used *)
  let accuracy := cache_get evaluator_cache (answer_pred, answer_gt) in
  if PyStr.eqb (PyStr.lower answer_pred) (PyStr.lower answer_gt)
  then (Ok 1, evaluator_cache)
  else
    match accumulate answer_pred answer_gt mode with
    | Raise e => (Raise e, evaluator_cache)
    | Ok accuracy =>
        let accuracy := if Float64.ltb lit_0_9 accuracy then 1 else 0 in
        (Ok accuracy, cache_set evaluator_cache (answer_pred, answer_gt) accuracy)
    end.

Definition contain_keywords (ds_name : str) (keywords : list str) : bool :=
  existsb (fun keyword => PyStr.contains keyword ds_name) keywords.

Definition post_process (pred : str) : result str :=
  let pred := PyStr.upper (PyStr.strip_chars "*" (PyStr.strip pred)) in
  match pred with
  | [_] => Ok pred
  | _ =>
      match pred with
      | c0 :: c1 :: _ =>
          if negb (PyStr.isalpha c1) && existsb (PyStr.eqb [c0]) option_candidate
          then Ok [c0]
          else
            match pred with
            | "("%char :: x :: ")"%char :: _ =>
                if existsb (PyStr.eqb [x]) option_candidate
                then Ok [x]
                else Raise (RuntimeError ("Fail to parse pred: " ++ pred))
            | _ => Raise (RuntimeError ("Fail to parse pred: " ++ pred))
            end
      | _ => Raise (RuntimeError ("Fail to parse pred: " ++ pred))
      end
  end.

(** ** Further definitions

    [answers = [self.answer_processor(a) for a in raw_answers]]: the
    normalizer called on each item in turn, the number map going from one
    call to the next. *)
Fixpoint call_each (number_map : dict) (items : list str) : list str * dict :=
  match items with
  | [] => ([], number_map)
  | item :: rest =>
      let (answer, number_map) := EvalAIAnswerProcessor.call_st number_map item in
      let (answers, number_map) := call_each number_map rest in
      (answer :: answers, number_map)
  end.

(** [get_longest_common_prefix_index] of [extract_features_offline.py]: the
    first index at which the two sequences differ, their smaller length
    when there is none.  The tensors are one-dimensional sequences of
    integers. *)
Definition get_longest_common_prefix_index (tensor1 tensor2 : list Z) : nat :=
  let min_len := Nat.min (List.length tensor1) (List.length tensor2) in
  match find (fun i => negb (Z.eqb (nth i tensor1 0%Z) (nth i tensor2 0%Z)))
             (seq 0 min_len) with
  | Some i => i
  | None => min_len
  end.

(** * Reference definitions *)

(** The edit distance by its recursive definition: the length of the other
    string when one is empty; the distance of the tails when the heads are
    equal; else one more than the least of the three distances after a
    deletion, an insertion or a substitution. *)
Fixpoint lev (s t : str) : nat :=
  match s with
  | [] => length t
  | a :: s' =>
      (fix lev_s (t : str) : nat :=
         match t with
         | [] => length s
         | b :: t' =>
             if Ascii.eqb a b then lev s' t'
             else S (min3 (lev s' t) (lev_s t') (lev s' t'))
         end) t
  end.

(** Edit scripts: [edit s t n] when [s] is turned into [t] by [n] unit-cost
    insertions, deletions and substitutions, read from left to right. *)
Inductive edit : str -> str -> nat -> Prop :=
| edit_nil : edit [] [] 0
| edit_keep a s t n : edit s t n -> edit (a :: s) (a :: t) n
| edit_subst a b s t n : edit s t n -> edit (a :: s) (b :: t) (S n)
| edit_delete a s t n : edit s t n -> edit (a :: s) t (S n)
| edit_insert b s t n : edit s t n -> edit s (b :: t) (S n).

(** The row of the dynamic-programming table for the prefix [q] of the
    second string: the distances from the first [k] prefixes of [s1]. *)
Definition prefix_row (s1 q : str) (k : nat) : list nat :=
  map (fun i => lev (firstn i s1) q) (seq 0 k).

(** The list without its element at index [i]. *)
Definition others (A : Type) (i : nat) (l : list A) : list A :=
  firstn i l ++ skipn (S i) l.

(** The leave-one-out agreement of the normalized prediction with the ten
    normalized answers: each answer in turn is the query; the answers equal
    to the prediction are counted among the other nine; the trial is worth
    [min(1, count / 3)]; the score is the mean of the ten trials, and 0 when
    the prediction is none of the answers. *)
Definition leave_one_out (prediction : str) (answers : list str) : Float64.float :=
  if existsb (PyStr.eqb prediction) answers
  then
    Float64.div
      (py_sum
         (map (fun i =>
                 py_min Float64.one
                   (Float64.div
                      (Float64.of_nat
                         (count_occ (list_eq_dec ascii_dec) (others i answers) prediction))
                      (Float64.of_nat 3)))
              (seq 0 10)))
      (Float64.of_nat 10)
  else Float64.zero.

(** The position of a float in the order of [SFcompare]: the class (from
    minus infinity to plus infinity), then the exponent, then the mantissa. *)
Definition float_rank (x : Float64.float) : Z * Z * Z :=
  match x with
  | S754_infinity true => (-2, 0, 0)
  | S754_finite true m e => (-1, - e, - Zpos m)
  | S754_zero _ => (0, 0, 0)
  | S754_nan => (0, 0, 0)
  | S754_finite false m e => (1, e, Zpos m)
  | S754_infinity false => (2, 0, 0)
  end%Z.

Definition rank_lt (a b : Z * Z * Z) : Prop :=
  (fst (fst a) < fst (fst b) \/
   (fst (fst a) = fst (fst b) /\
    (snd (fst a) < snd (fst b) \/
     (snd (fst a) = snd (fst b) /\ snd a < snd b))))%Z.

(** [a] is below or equal to [b], both being numbers. *)
Definition float_le (a b : Float64.float) : Prop :=
  Float64.is_nan a = false /\ Float64.is_nan b = false /\ Float64.ltb b a = false.

(** Inclusion of mode sets: every mode of [M] is a mode of [M']. *)
Definition mode_subset (M M' : list str) : bool :=
  forallb (fun m => in_mode m M') M.

(** ** Shape of a normalized answer *)

Definition all_ascii : list ascii := map ascii_of_nat (seq 0 256).

Definition is_punct (c : ascii) : bool :=
  existsb (PyStr.eqb [c]) EvalAIAnswerProcessor.PUNCTUATIONS.

(** A character that the normalizer leaves in a word: no whitespace, no
    upper-case letter, no punctuation mark of the list. *)
Definition clean_char (c : ascii) : bool :=
  negb (PyStr.isspace c) && negb (PyStr.isupper c) && negb (is_punct c).

(** The number-word pass without its side effect on the number map. *)
Definition number_of (word : str) : str :=
  match dict_get EvalAIAnswerProcessor.NUMBER_MAP word with
  | Some v => v
  | None => word
  end.

(** A word that the token passes leave as it is: not empty, made of clean
    characters, no number word, no article, not changed by the expansion of
    contractions. *)
Definition word_ok (w : str) : bool :=
  negb (length w =? 0) && forallb clean_char w
  && PyStr.eqb (number_of w) w
  && negb (EvalAIAnswerProcessor.is_article w)
  && PyStr.eqb (EvalAIAnswerProcessor.expand w) w.

(** Every period is followed by a digit. *)
Fixpoint periods_kept (s : str) : bool :=
  match s with
  | [] => true
  | c :: s' =>
      negb (Ascii.eqb c "." &&
            negb (match s' with d :: _ => PyStr.isdigit d | [] => false end))
      && periods_kept s'
  end.

(** A number map as [setdefault] can have left it: the entries of the class,
    and words stored under themselves. *)
Definition extends_number_map (nm : dict) : Prop :=
  forall k,
    dict_get nm k = dict_get EvalAIAnswerProcessor.NUMBER_MAP k \/
    (dict_get EvalAIAnswerProcessor.NUMBER_MAP k = None /\ dict_get nm k = Some k).

(** The leave-one-out agreement of an entry of [eval_pred_list]. *)
Definition entry_leave_one_out (e : TextVQAAccuracyEvaluator.entry) : Float64.float :=
  leave_one_out
    (EvalAIAnswerProcessor.__call__ (TextVQAAccuracyEvaluator.pred_answer e))
    (map EvalAIAnswerProcessor.__call__ (TextVQAAccuracyEvaluator.gt_answers e)).

(** Every entry of a dictionary literal is the one found under its key: no
    key is written twice with different values. *)
Definition dict_literal_ok (d : dict) : bool :=
  forallb (fun kv : str * str =>
             match dict_get d (fst kv) with
             | Some v => PyStr.eqb v (snd kv)
             | None => false
             end) d.

(** A text that does not start with the letter s. *)
Definition no_s_head (s : str) : bool :=
  match s with
  | [] => true
  | c :: _ => negb (Ascii.eqb "s" c)
  end.

(** A word that a second normalization leaves whole: the two characters
    ['s] do not occur after its first character, and each of its periods is
    followed by a digit. *)
Definition word_stable (w : str) : bool :=
  negb (PyStr.contains "'s" (tl w)) && periods_kept w.

(** ** Agreement patterns of the soft accuracy *)

(** The number of ground truths that agree with the prediction, in a list
    that tells for each ground truth whether it agrees. *)
Definition count_true (bs : list bool) : nat :=
  length (filter (fun b : bool => b) bs).

(** The leave-one-out score as a function of the agreement pattern. *)
Definition pattern_score (bs : list bool) : Float64.float :=
  Float64.div
    (py_sum
       (map (fun i =>
               py_min Float64.one
                 (Float64.div (Float64.of_nat (count_true (others i bs)))
                              (Float64.of_nat 3)))
            (seq 0 10)))
    (Float64.of_nat 10).

Fixpoint all_patterns (n : nat) : list (list bool) :=
  match n with
  | 0 => [[]]
  | S n' => map (cons true) (all_patterns n') ++ map (cons false) (all_patterns n')
  end.

(** Equality of floats as data (sign, mantissa, exponent). *)
Definition float_same (a b : Float64.float) : bool :=
  match a, b with
  | S754_zero s, S754_zero s' => Bool.eqb s s'
  | S754_infinity s, S754_infinity s' => Bool.eqb s s'
  | S754_nan, S754_nan => true
  | S754_finite s m e, S754_finite s' m' e' =>
      Bool.eqb s s' && Pos.eqb m m' && Z.eqb e e'
  | _, _ => false
  end.

(** What the soft accuracy [s] of a pattern with [k] agreeing answers
    satisfies. *)
Definition agreement_check (k : nat) (s : Float64.float) : bool :=
  Float64.leb Float64.zero s && Float64.leb s Float64.one
  && Bool.eqb (k =? 0) (float_same s Float64.zero)
  && Bool.eqb (4 <=? k) (float_same s Float64.one)
  && Bool.eqb (4 <=? k) (Float64.ltb lit_0_9 s).

(** The number of matches of [PERIOD_STRIP] in a text. *)
Fixpoint count_period_matches (s : str) : nat :=
  match s with
  | [] => 0
  | _ :: s' =>
      (if EvalAIAnswerProcessor.PERIOD_STRIP_match s then 1 else 0)
      + count_period_matches s'
  end.

(** [a] is a contiguous part of [t]. *)
Definition part_of (a t : str) : Prop := exists pre post, t = pre ++ a ++ post.

(** The alternatives of the trigger pattern of [parse_answer] for [en]. *)
Definition en_triggers : list str := ["Final answer:" : str; "Answer:" : str].

(** A float that is a number and no infinity. *)
Definition is_finite (x : Float64.float) : bool :=
  match x with
  | S754_zero _ | S754_finite _ _ _ => true
  | _ => false
  end.

(** A text of ASCII characters. *)
Definition is_ascii (s : str) : bool := forallb (fun c => PyStr.code c <? 128) s.

(** [t] is [s] without the characters of the class [f] at its two ends. *)
Definition trimmed (f : ascii -> bool) (s t : str) : Prop :=
  exists l r,
    s = l ++ t ++ r /\
    forallb f l = true /\ forallb f r = true /\
    match t with c :: _ => f c = false | [] => True end /\
    match rev t with c :: _ => f c = false | [] => True end.

(** [t] is [s] trimmed of whitespace, then of asterisks, then of whitespace
    again. *)
Definition cleaned (s t : str) : Prop :=
  exists a b,
    trimmed PyStr.isspace s a /\
    trimmed (fun c => Ascii.eqb c "*") a b /\
    trimmed PyStr.isspace b t.

(** [line] is what [after] holds from its first character that is no
    whitespace up to the end of the line of this character. *)
Definition rest_of_line (after line : str) : Prop :=
  exists ws tail,
    after = ws ++ line ++ tail /\
    forallb PyStr.isspace ws = true /\
    match line ++ tail with c :: _ => PyStr.isspace c = false | [] => True end /\
    ~ In EvalAIAnswerProcessor.newline line /\
    match tail with c :: _ => c = EvalAIAnswerProcessor.newline | [] => True end.

(** No trigger of the English version begins, in any case of its letters,
    at a position of [before] in the text [before ++ rest]. *)
Fixpoint trigger_free (before rest : str) : bool :=
  match before with
  | [] => true
  | _ :: before' =>
      negb (PyStr.startswith "final answer:" (PyStr.lower (before ++ rest)))
      && negb (PyStr.startswith "answer:" (PyStr.lower (before ++ rest)))
      && trigger_free before' rest
  end.

(** * Properties *)

(** ** Concrete evaluations *)

(** C6: normalizing "Two dogs, a cat." gives "2 dogs cat". *)
Theorem C6_normalize_two_dogs :
  EvalAIAnswerProcessor.__call__ "Two dogs, a cat." = "2 dogs cat".
Proof. vm_compute. reflexivity. Qed.

(** ** The edit distance *)

Section Levenshtein.

Lemma lev_nil_r s : lev s [] = length s.
Proof. destruct s; reflexivity. Qed.

Lemma lev_cons a s b t :
  lev (a :: s) (b :: t) =
  if Ascii.eqb a b then lev s t
  else S (min3 (lev s (b :: t)) (lev (a :: s) t) (lev s t)).
Proof. reflexivity. Qed.

Lemma lev_sym s : forall t, lev s t = lev t s.
Proof.
  induction s as [|a s IHs]; intro t.
  - now rewrite lev_nil_r.
  - induction t as [|b t IHt].
    + reflexivity.
    + rewrite !lev_cons, (Ascii.eqb_sym b a), IHt, !IHs.
      destruct (Ascii.eqb a b); [reflexivity|].
      unfold min3; f_equal; lia.
Qed.

(** Adding a character in front of one string moves the distance by one
    at most. *)
Lemma lev_lipschitz n :
  forall s t, length s + length t <= n ->
  forall a, lev (a :: s) t <= S (lev s t) /\ lev s t <= S (lev (a :: s) t).
Proof.
  induction n as [|n IH]; intros s t Hn a.
  - destruct s, t; simpl in Hn; try lia. simpl; lia.
  - destruct t as [|b t].
    + rewrite !lev_nil_r; simpl; lia.
    + rewrite lev_cons.
      assert (Hts : length t + length s <= n) by (simpl in Hn; lia).
      destruct (IH t s Hts b) as [H1 H2].
      rewrite (lev_sym (b :: t) s), (lev_sym t s) in H1, H2.
      destruct (Ascii.eqb a b).
      * lia.
      * assert (Hst : length s + length t <= n) by lia.
        destruct (IH s t Hst a) as [H3 H4].
        unfold min3; lia.
Qed.

Lemma lev_cons_l a s t : lev (a :: s) t <= S (lev s t).
Proof. exact (proj1 (@lev_lipschitz (length s + length t) s t (le_n _) a)). Qed.

Lemma lev_cons_r b s t : lev s (b :: t) <= S (lev s t).
Proof. rewrite (lev_sym s (b :: t)), (lev_sym s t). apply lev_cons_l. Qed.

Lemma edit_lev s : forall t, edit s t (lev s t).
Proof.
  induction s as [|a s IHs]; intro t.
  - induction t as [|b t IHt]; simpl; [constructor|].
    now apply edit_insert.
  - induction t as [|b t IHt].
    + rewrite lev_nil_r. simpl. apply edit_delete.
      specialize (IHs []). now rewrite lev_nil_r in IHs.
    + rewrite lev_cons. destruct (Ascii.eqb a b) eqn:E.
      * apply Ascii.eqb_eq in E; subst b. apply edit_keep, IHs.
      * unfold min3.
        destruct (Nat.min_spec (lev s (b :: t)) (Nat.min (lev (a :: s) t) (lev s t)))
          as [[_ ->]|[_ ->]].
        -- apply edit_delete, IHs.
        -- destruct (Nat.min_spec (lev (a :: s) t) (lev s t)) as [[_ ->]|[_ ->]].
           ++ now apply edit_insert.
           ++ apply edit_subst, IHs.
Qed.

Lemma lev_le_edit s t n : edit s t n -> lev s t <= n.
Proof.
  induction 1 as [|a s t n _ IH|a b s t n _ IH|a s t n _ IH|b s t n _ IH].
  - simpl; lia.
  - now rewrite lev_cons, Ascii.eqb_refl.
  - rewrite lev_cons. destruct (Ascii.eqb a b); unfold min3; lia.
  - pose proof (lev_cons_l a s t); lia.
  - pose proof (lev_cons_r b s t); lia.
Qed.

Lemma edit_snoc_keep a s t n : edit s t n -> edit (s ++ [a]) (t ++ [a]) n.
Proof. induction 1; simpl; try (now constructor). apply edit_keep, edit_nil. Qed.

Lemma edit_snoc_subst a b s t n : edit s t n -> edit (s ++ [a]) (t ++ [b]) (S n).
Proof. induction 1; simpl; try (now constructor). apply edit_subst, edit_nil. Qed.

Lemma edit_snoc_delete a s t n : edit s t n -> edit (s ++ [a]) t (S n).
Proof. induction 1; simpl; try (now constructor). apply edit_delete, edit_nil. Qed.

Lemma edit_snoc_insert b s t n : edit s t n -> edit s (t ++ [b]) (S n).
Proof. induction 1; simpl; try (now constructor). apply edit_insert, edit_nil. Qed.

Lemma edit_rev s t n : edit s t n -> edit (rev s) (rev t) n.
Proof.
  induction 1; simpl.
  - constructor.
  - now apply edit_snoc_keep.
  - now apply edit_snoc_subst.
  - now apply edit_snoc_delete.
  - now apply edit_snoc_insert.
Qed.

(** The distance does not change when both strings are reversed. *)
Lemma lev_rev s t : lev (rev s) (rev t) = lev s t.
Proof.
  apply Nat.le_antisymm.
  - apply lev_le_edit, edit_rev, edit_lev.
  - rewrite <- (rev_involutive s), <- (rev_involutive t) at 1.
    apply lev_le_edit, edit_rev, edit_lev.
Qed.

(** The recurrence on the last characters, which the table follows. *)
Lemma lev_snoc s a t b :
  lev (s ++ [a]) (t ++ [b]) =
  if Ascii.eqb a b then lev s t
  else S (min3 (lev s t) (lev (s ++ [a]) t) (lev s (t ++ [b]))).
Proof.
  rewrite <- (lev_rev (s ++ [a]) (t ++ [b])), !rev_app_distr. cbn [rev app].
  rewrite lev_cons.
  replace (lev (rev s) (b :: rev t)) with (lev s (t ++ [b]))
    by (rewrite <- (lev_rev s (t ++ [b])), rev_app_distr; reflexivity).
  replace (lev (a :: rev s) (rev t)) with (lev (s ++ [a]) t)
    by (rewrite <- (lev_rev (s ++ [a]) t), rev_app_distr; reflexivity).
  rewrite lev_rev. destruct (Ascii.eqb a b); [reflexivity|].
  unfold min3; f_equal; lia.
Qed.

Lemma firstn_length_app (A : Type) (a b : list A) : firstn (length a) (a ++ b) = a.
Proof. induction a; simpl; congruence. Qed.

Lemma prefix_row_S s1 q k :
  prefix_row s1 q (S k) = prefix_row s1 q k ++ [lev (firstn k s1) q].
Proof. unfold prefix_row. now rewrite seq_S, map_app. Qed.

Lemma prefix_row_nth s1 q k i :
  i < k -> nth i (prefix_row s1 q k) 0 = lev (firstn i s1) q.
Proof.
  intro Hi. unfold prefix_row.
  rewrite (nth_indep _ 0 ((fun i => lev (firstn i s1) q) 0))
    by (rewrite length_map, length_seq; exact Hi).
  rewrite (map_nth (fun i => lev (firstn i s1) q)), seq_nth by exact Hi.
  reflexivity.
Qed.

(** The inner loop extends the row of [q ++ [c2]] by one entry at a time. *)
Lemma levenshtein_step_spec s1 q c2 :
  forall rest done, s1 = done ++ rest ->
  fold_left (levenshtein_step (prefix_row s1 q (S (length s1))) c2)
    (combine (seq (length done) (length rest)) rest)
    (prefix_row s1 (q ++ [c2]) (S (length done)))
  = prefix_row s1 (q ++ [c2]) (S (length s1)).
Proof.
  induction rest as [|c1 rest IH]; intros done Hs.
  - rewrite app_nil_r in Hs. subst done. reflexivity.
  - cbn [length seq combine fold_left].
    assert (Hlen : length s1 = length done + S (length rest))
      by (rewrite Hs, length_app; reflexivity).
    assert (Hs' : s1 = (done ++ [c1]) ++ rest)
      by (rewrite <- app_assoc; exact Hs).
    assert (Hd : firstn (length done) s1 = done)
      by (rewrite Hs; apply firstn_length_app).
    assert (Hd1 : firstn (S (length done)) s1 = done ++ [c1]).
    { rewrite Hs' at 1. replace (S (length done)) with (length (done ++ [c1]))
        by (rewrite length_app; simpl; lia).
      apply firstn_length_app. }
    specialize (IH (done ++ [c1]) Hs').
    replace (length (done ++ [c1])) with (S (length done)) in IH
      by (rewrite length_app; simpl; lia).
    rewrite <- IH. f_equal.
    unfold levenshtein_step.
    rewrite (prefix_row_S s1 (q ++ [c2]) (S (length done))), Hd1, lev_snoc.
    rewrite !prefix_row_nth by lia.
    rewrite Nat.add_1_r, Hd, Hd1.
    rewrite (prefix_row_S s1 (q ++ [c2]) (length done)), last_last, Hd.
    destruct (Ascii.eqb c1 c2); reflexivity.
Qed.

Lemma levenshtein_row_spec s1 q c2 :
  levenshtein_row s1 (prefix_row s1 q (S (length s1))) (length q) c2
  = prefix_row s1 (q ++ [c2]) (S (length s1)).
Proof.
  unfold levenshtein_row, enumerate.
  pose proof (@levenshtein_step_spec s1 q c2 s1 [] eq_refl) as H.
  cbn [length] in H. rewrite <- H.
  f_equal. unfold prefix_row. cbn [seq map firstn lev].
  rewrite length_app. reflexivity.
Qed.

(** The outer loop goes from the row of a prefix of [s2] to the row of
    [s2]. *)
Lemma levenshtein_rows_spec s1 s2 :
  forall rest done, s2 = done ++ rest ->
  fold_left
    (fun distances (ic : nat * ascii) =>
       let (i2, c2) := ic in levenshtein_row s1 distances i2 c2)
    (combine (seq (length done) (length rest)) rest)
    (prefix_row s1 done (S (length s1)))
  = prefix_row s1 s2 (S (length s1)).
Proof.
  induction rest as [|c2 rest IH]; intros done Hs.
  - rewrite app_nil_r in Hs. subst done. reflexivity.
  - cbn [length seq combine fold_left].
    rewrite levenshtein_row_spec.
    assert (Hs' : s2 = (done ++ [c2]) ++ rest)
      by (rewrite <- app_assoc; exact Hs).
    specialize (IH (done ++ [c2]) Hs').
    replace (length (done ++ [c2])) with (S (length done)) in IH
      by (rewrite length_app; simpl; lia).
    exact IH.
Qed.

Lemma prefix_row_nil s1 : prefix_row s1 [] (S (length s1)) = seq 0 (length s1 + 1).
Proof.
  unfold prefix_row. rewrite Nat.add_1_r.
  rewrite <- (map_id (seq 0 (S (length s1)))) at 2.
  apply map_ext_in. intros i Hi. apply in_seq in Hi.
  rewrite lev_nil_r, length_firstn. lia.
Qed.

(** The two loops on [s1] and [s2], without the exchange that makes [s1]
    the shorter string. *)
Lemma levenshtein_loops s1 s2 :
  last (fold_left
          (fun distances (ic : nat * ascii) =>
             let (i2, c2) := ic in levenshtein_row s1 distances i2 c2)
          (enumerate s2) (seq 0 (length s1 + 1))) 0
  = lev s1 s2.
Proof.
  rewrite <- prefix_row_nil.
  unfold enumerate.
  pose proof (@levenshtein_rows_spec s1 s2 s2 [] eq_refl) as H.
  cbn [length] in H. rewrite H.
  rewrite prefix_row_S, last_last, firstn_all. reflexivity.
Qed.

Lemma levenshtein_distance_lev s1 s2 : levenshtein_distance s1 s2 = lev s1 s2.
Proof.
  unfold levenshtein_distance.
  destruct (length s2 <? length s1).
  - rewrite levenshtein_loops. apply lev_sym.
  - apply levenshtein_loops.
Qed.

End Levenshtein.

(** C7: [levenshtein_distance] is the edit distance of the recursive
    definition [lev] for every pair of strings; on "kitten" and "sitting" it
    is 3, and the quotient of the [anls] block for this pair is the float
    nearest to 3/7. *)
Theorem C7_levenshtein_distance_is_edit_distance :
  (forall s1 s2 : str, levenshtein_distance s1 s2 = lev s1 s2) /\
  levenshtein_distance "kitten" "sitting" = 3 /\
  anls_ratio "sitting" "kitten" = Ok (Float64.of_ratio false 3 7).
Proof.
  split; [exact levenshtein_distance_lev|].
  split; vm_compute; reflexivity.
Qed.

(** ** The VQA soft accuracy *)

Section SoftAccuracy.

Import TextVQAAccuracyEvaluator.

Lemma PyStr_eqb_eq a b : PyStr.eqb a b = true <-> a = b.
Proof. unfold PyStr.eqb. destruct (list_eq_dec ascii_dec a b); intuition congruence. Qed.

Lemma PyStr_eqb_refl a : PyStr.eqb a a = true.
Proof. now apply PyStr_eqb_eq. Qed.

Lemma PyStr_eqb_sym a b : PyStr.eqb a b = PyStr.eqb b a.
Proof.
  unfold PyStr.eqb.
  destruct (list_eq_dec ascii_dec a b), (list_eq_dec ascii_dec b a); congruence.
Qed.

(** Reading a dictionary that was built from a list of keys. *)
Lemma scores_get_map (f : str -> Float64.float) l k d :
  scores_get (map (fun u => (u, f u)) l) k d
  = if existsb (PyStr.eqb k) l then f k else d.
Proof.
  induction l as [|a l IH]; simpl; [reflexivity|].
  rewrite (PyStr_eqb_sym k a).
  destruct (PyStr.eqb a k) eqn:E; simpl.
  - apply PyStr_eqb_eq in E. now subst.
  - exact IH.
Qed.

Lemma existsb_set_of k l :
  existsb (PyStr.eqb k) (set_of l) = existsb (PyStr.eqb k) l.
Proof.
  unfold set_of. apply eq_true_iff_eq. rewrite !existsb_exists.
  split; intros [x [Hin Hx]]; exists x; split; trivial.
  - now apply nodup_In in Hin.
  - now apply nodup_In.
Qed.

(** In an enumeration, removing the items whose index is below the first
    index removes nothing. *)
Lemma filter_index_below (A : Type) (l : list A) :
  forall k j, j < k ->
  filter (fun it : nat * A => negb (fst it =? j)) (combine (seq k (length l)) l)
  = combine (seq k (length l)) l.
Proof.
  induction l as [|a l IH]; intros k j Hj; simpl; [reflexivity|].
  destruct (Nat.eqb_spec k j); [lia|]. simpl. f_equal. apply IH. lia.
Qed.

Lemma map_snd_enumerate_from (A : Type) (l : list A) k :
  map snd (combine (seq k (length l)) l) = l.
Proof.
  revert k. induction l as [|a l IH]; intro k; simpl; [reflexivity|].
  now rewrite IH.
Qed.

Lemma map_fst_enumerate_from (A : Type) (l : list A) k :
  map fst (combine (seq k (length l)) l) = seq k (length l).
Proof.
  revert k. induction l as [|a l IH]; intro k; simpl; [reflexivity|].
  now rewrite IH.
Qed.

(** Removing the items of index [k + i] leaves the answers other than the
    one at position [i]. *)
Lemma filter_index_others (A : Type) (l : list A) :
  forall k i,
  map snd (filter (fun it : nat * A => negb (fst it =? k + i))
                  (combine (seq k (length l)) l))
  = others i l.
Proof.
  unfold others.
  induction l as [|a l IH]; intros k i.
  - simpl. now rewrite firstn_nil.
  - cbn [length seq combine filter fst].
    destruct i as [|i].
    + rewrite Nat.add_0_r, Nat.eqb_refl. cbn [negb firstn skipn app].
      rewrite filter_index_below by lia. apply map_snd_enumerate_from.
    + replace (k + S i) with (S k + i) by lia.
      destruct (Nat.eqb_spec k (S k + i)); [lia|].
      cbn [negb map snd firstn skipn app]. f_equal. apply IH.
Qed.

(** An index occurs once in an enumeration. *)
Lemma enumerate_from_functional (A : Type) (l : list A) :
  forall k j x y,
  In (j, x) (combine (seq k (length l)) l) ->
  In (j, y) (combine (seq k (length l)) l) -> x = y.
Proof.
  induction l as [|a l IH]; intros k j x y Hx Hy; simpl in *; [contradiction|].
  assert (Hlt : forall z, In (j, z) (combine (seq (S k) (length l)) l) -> S k <= j).
  { intros z Hz. apply in_combine_l in Hz. apply in_seq in Hz. lia. }
  destruct Hx as [Hx|Hx], Hy as [Hy|Hy].
  - congruence.
  - inversion Hx; subst. apply Hlt in Hy. lia.
  - inversion Hy; subst. apply Hlt in Hx. lia.
  - eapply IH; eassumption.
Qed.

(** The test [item != gt_answer] on an enumeration is a test on the index. *)
Lemma filter_item_index (l : list str) gt_answer :
  In gt_answer (enumerate l) ->
  filter (fun item => negb (item_eqb item gt_answer)) (enumerate l)
  = filter (fun item => negb (fst item =? fst gt_answer)) (enumerate l).
Proof.
  intro Hgt. apply filter_ext_in. intros [j x] Hin. f_equal.
  unfold item_eqb. cbn [fst snd].
  destruct (Nat.eqb_spec j (fst gt_answer)) as [E|E]; [|reflexivity].
  destruct gt_answer as [i a]. cbn [fst snd] in *. subst j.
  rewrite (enumerate_from_functional l 0 i x a Hin Hgt).
  apply PyStr_eqb_refl.
Qed.

Lemma length_filter_count (L : list (nat * str)) u :
  length (filter (fun item => PyStr.eqb (snd item) u) L)
  = count_occ (list_eq_dec ascii_dec) (map snd L) u.
Proof.
  induction L as [|[j x] L IH]; simpl; [reflexivity|].
  unfold PyStr.eqb at 1.
  destruct (list_eq_dec ascii_dec x u); simpl; now rewrite IH.
Qed.

(** The number of matching answers of one trial. *)
Lemma matching_answers_count (l : list str) gt_answer u :
  In gt_answer (enumerate l) ->
  length (filter (fun item => PyStr.eqb (snd item) u)
            (filter (fun item => negb (item_eqb item gt_answer)) (enumerate l)))
  = count_occ (list_eq_dec ascii_dec) (others (fst gt_answer) l) u.
Proof.
  intro Hgt. rewrite filter_item_index by exact Hgt.
  rewrite length_filter_count. unfold enumerate.
  pose proof (filter_index_others l 0 (fst gt_answer)) as H.
  rewrite Nat.add_0_l in H. now rewrite H.
Qed.

Lemma map_enumerate_index (B : Type) (l : list str)
      (g : nat * str -> B) (h : nat -> B) :
  (forall item, In item (enumerate l) -> g item = h (fst item)) ->
  map g (enumerate l) = map h (seq 0 (length l)).
Proof.
  intro H. unfold enumerate.
  rewrite <- (map_fst_enumerate_from l 0) at 2.
  rewrite map_map. apply map_ext_in. exact H.
Qed.

(** The value stored under [u] is the mean of the leave-one-out trials. *)
Lemma unique_answer_score_spec (answers : list str) u :
  unique_answer_score (enumerate answers) u
  = Float64.div
      (py_sum
         (map (fun i =>
                 py_min Float64.one
                   (Float64.div
                      (Float64.of_nat
                         (count_occ (list_eq_dec ascii_dec) (others i answers) u))
                      (Float64.of_nat 3)))
              (seq 0 (length answers))))
      (Float64.of_nat (length answers)).
Proof.
  unfold unique_answer_score.
  rewrite length_map.
  replace (length (enumerate answers)) with (length answers)
    by (unfold enumerate; rewrite length_combine, length_seq; lia).
  f_equal. f_equal.
  apply map_enumerate_index. intros item Hin.
  now rewrite matching_answers_count.
Qed.

Lemma entry_score_spec prediction (gts : list str) :
  length gts = 10 ->
  entry_score {| pred_answer := prediction; gt_answers := gts |}
  = Ok (leave_one_out (EvalAIAnswerProcessor.__call__ prediction)
                      (map EvalAIAnswerProcessor.__call__ gts)).
Proof.
  intro Hlen. unfold entry_score, _compute_answer_scores, answer_processor.
  cbn [pred_answer gt_answers].
  assert (Hl : length (map EvalAIAnswerProcessor.__call__ gts) = 10)
    by (now rewrite length_map).
  rewrite Hl. cbn [Nat.eqb negb bind]. f_equal.
  rewrite scores_get_map, existsb_set_of. unfold leave_one_out.
  destruct (existsb _ _); [|reflexivity].
  now rewrite unique_answer_score_spec, Hl.
Qed.

(** The scores of a batch whose entries have ten ground truths each. *)
Lemma mapM_entry_score entries :
  (forall e, In e entries -> length (gt_answers e) = 10) ->
  mapM entry_score entries = Ok (map entry_leave_one_out entries).
Proof.
  induction entries as [|e entries IH]; intro H; [reflexivity|].
  cbn [mapM map]. destruct e as [prediction gts].
  rewrite entry_score_spec by (apply (H _ (or_introl eq_refl))).
  cbn [bind]. rewrite IH by (intros e He; apply H; now right).
  reflexivity.
Qed.

Lemma eval_pred_list_spec entries :
  entries <> [] ->
  (forall e, In e entries -> length (gt_answers e) = 10) ->
  eval_pred_list entries
  = Ok (Float64.div (py_sum (map entry_leave_one_out entries))
                    (Float64.of_nat (length entries))).
Proof.
  intros Hne H. unfold eval_pred_list.
  rewrite mapM_entry_score by exact H. cbn [bind].
  rewrite length_map.
  destruct entries; [contradiction | reflexivity].
Qed.

End SoftAccuracy.

(** C1: for every prediction and every list of exactly 10 ground truths, the
    score of the entry is the leave-one-out agreement of the normalized
    prediction with the normalized answers; the accuracy of a batch of such
    entries is the mean of these scores; for seven times "cat" and three
    times "dog" and the prediction "cat" the score is 1.0. *)
Theorem C1_soft_accuracy_leave_one_out :
  (forall (prediction : str) (gts : list str),
     length gts = 10 ->
     TextVQAAccuracyEvaluator.entry_score
       {| TextVQAAccuracyEvaluator.pred_answer := prediction;
          TextVQAAccuracyEvaluator.gt_answers := gts |}
     = Ok (leave_one_out (EvalAIAnswerProcessor.__call__ prediction)
                         (map EvalAIAnswerProcessor.__call__ gts))) /\
  (forall entries : list TextVQAAccuracyEvaluator.entry,
     entries <> [] ->
     (forall e, In e entries ->
                length (TextVQAAccuracyEvaluator.gt_answers e) = 10) ->
     TextVQAAccuracyEvaluator.eval_pred_list entries
     = Ok (Float64.div (py_sum (map entry_leave_one_out entries))
                       (Float64.of_nat (length entries)))) /\
  TextVQAAccuracyEvaluator.eval_pred_list
    [ {| TextVQAAccuracyEvaluator.pred_answer := "cat";
         TextVQAAccuracyEvaluator.gt_answers :=
           repeat ("cat" : str) 7 ++ repeat ("dog" : str) 3 |} ]
  = Ok Float64.one.
Proof.
  split; [exact entry_score_spec|].
  split; [exact eval_pred_list_spec|].
  vm_compute. reflexivity.
Qed.

Lemma C1_soft_accuracy_witness :
  length (repeat ("cat" : str) 7 ++ repeat ("dog" : str) 3) = 10 /\
  TextVQAAccuracyEvaluator.entry_score
    {| TextVQAAccuracyEvaluator.pred_answer := "cat";
       TextVQAAccuracyEvaluator.gt_answers :=
         repeat ("cat" : str) 7 ++ repeat ("dog" : str) 3 |}
  = Ok (leave_one_out (EvalAIAnswerProcessor.__call__ "cat")
          (map EvalAIAnswerProcessor.__call__
               (repeat ("cat" : str) 7 ++ repeat ("dog" : str) 3))).
Proof.
  split; [reflexivity|].
  apply (proj1 C1_soft_accuracy_leave_one_out). reflexivity.
Defined.

(** ** The order of floats *)

Section FloatOrder.

Lemma ltb_rank a b :
  Float64.is_nan a = false -> Float64.is_nan b = false ->
  (Float64.ltb a b = true <-> rank_lt (float_rank a) (float_rank b)).
Proof.
  destruct a as [sa|sa| |sa ma ea], b as [sb|sb| |sb mb eb];
    try discriminate; intros _ _;
    unfold Float64.ltb, SFltb, SFcompare, float_rank, rank_lt;
    try destruct sa; try destruct sb; cbn [fst snd];
    try (split; [discriminate | intro; lia]);
    try (split; [intro; lia | reflexivity]).
  - change (Pos.compare_cont Eq ma mb) with (Pos.compare ma mb).
    destruct (Z.compare_spec ea eb); try destruct (Pos.compare_spec ma mb);
      cbn [CompOpp]; split; intro; try discriminate; try reflexivity; lia.
  - change (Pos.compare_cont Eq ma mb) with (Pos.compare ma mb).
    destruct (Z.compare_spec ea eb); try destruct (Pos.compare_spec ma mb);
      cbn [CompOpp]; split; intro; try discriminate; try reflexivity; lia.
Qed.

Lemma ltb_true_numbers a b :
  Float64.ltb a b = true -> Float64.is_nan a = false /\ Float64.is_nan b = false.
Proof. destruct a, b; try discriminate; split; reflexivity. Qed.

Lemma ltb_false_rank a b :
  Float64.is_nan a = false -> Float64.is_nan b = false ->
  (Float64.ltb a b = false <-> ~ rank_lt (float_rank a) (float_rank b)).
Proof.
  intros Ha Hb. rewrite <- (@ltb_rank _ _ Ha Hb).
  destruct (Float64.ltb a b); intuition congruence.
Qed.

Lemma float_le_refl a : Float64.is_nan a = false -> float_le a a.
Proof.
  intro Ha. repeat split; trivial.
  apply (@ltb_false_rank _ _ Ha Ha). unfold rank_lt. lia.
Qed.

Lemma py_max_number a x : Float64.is_nan a = false -> Float64.is_nan (py_max a x) = false.
Proof.
  intro Ha. unfold py_max. destruct (Float64.ltb a x) eqn:E; trivial.
  now apply ltb_true_numbers in E.
Qed.

(** [max] is monotone in the accumulated value. *)
Lemma py_max_mono a a' x : float_le a a' -> float_le (py_max a x) (py_max a' x).
Proof.
  intros (Ha & Ha' & Hle).
  repeat split; try (now apply py_max_number).
  apply (@ltb_false_rank _ _ Ha' Ha) in Hle.
  unfold py_max.
  destruct (Float64.ltb a x) eqn:E1, (Float64.ltb a' x) eqn:E2.
  - destruct (ltb_true_numbers _ _ E1) as [_ Hx].
    apply (@ltb_false_rank _ _ Hx Hx). unfold rank_lt; lia.
  - exact E2.
  - destruct (ltb_true_numbers _ _ E2) as [_ Hx].
    apply (@ltb_rank _ _ Ha' Hx) in E2. apply (@ltb_false_rank _ _ Ha Hx) in E1.
    apply (@ltb_false_rank _ _ Hx Ha). unfold rank_lt in *. lia.
  - apply (@ltb_false_rank _ _ Ha' Ha). exact Hle.
Qed.

(** [max] does not go below the accumulated value. *)
Lemma py_max_ge a a' x : float_le a a' -> float_le a (py_max a' x).
Proof.
  intros (Ha & Ha' & Hle).
  repeat split; trivial; try (now apply py_max_number).
  apply (@ltb_false_rank _ _ Ha' Ha) in Hle.
  unfold py_max. destruct (Float64.ltb a' x) eqn:E.
  - destruct (ltb_true_numbers _ _ E) as [_ Hx].
    apply (@ltb_rank _ _ Ha' Hx) in E.
    apply (@ltb_false_rank _ _ Hx Ha). unfold rank_lt in *. lia.
  - apply (@ltb_false_rank _ _ Ha' Ha). exact Hle.
Qed.

(** A threshold passed by [a] is passed by every value above [a]. *)
Lemma threshold_mono c a a' :
  float_le a a' -> Float64.ltb c a = true -> Float64.ltb c a' = true.
Proof.
  intros (Ha & Ha' & Hle) Hc.
  destruct (ltb_true_numbers _ _ Hc) as [Hcn _].
  apply (@ltb_rank _ _ Hcn Ha) in Hc. apply (@ltb_false_rank _ _ Ha' Ha) in Hle.
  apply (@ltb_rank _ _ Hcn Ha'). unfold rank_lt in *. lia.
Qed.

End FloatOrder.

(** ** The dispatcher [check_answer] *)

Section CheckAnswer.

(** Both results are given; the order between them is left to prove. *)
Ltac both_ok := split; [reflexivity | split; [reflexivity | ]].

Lemma in_mode_subset M M' name :
  mode_subset M M' = true -> in_mode name M = true -> in_mode name M' = true.
Proof.
  unfold mode_subset, in_mode. intros Hsub Hin.
  apply existsb_exists in Hin. destruct Hin as [m [Hm E]].
  apply PyStr_eqb_eq in E. subst m.
  rewrite forallb_forall in Hsub. exact (Hsub name Hm).
Qed.

(** The evaluator does not fail on the ten copies of the target. *)
Lemma eval_pred_list_repeat answer_pred answer_gt :
  exists score,
    TextVQAAccuracyEvaluator.eval_pred_list
      [ {| TextVQAAccuracyEvaluator.pred_answer := answer_pred;
           TextVQAAccuracyEvaluator.gt_answers := repeat answer_gt 10 |} ]
    = Ok score.
Proof.
  unfold TextVQAAccuracyEvaluator.eval_pred_list. cbn [mapM].
  rewrite entry_score_spec by apply repeat_length.
  cbn [bind]. eexists. reflexivity.
Qed.

Lemma vqa_block_number answer_pred answer_gt a :
  Float64.is_nan a = false ->
  exists r, vqa_block answer_pred answer_gt a = Ok r /\ float_le a r \/
            vqa_block answer_pred answer_gt a = Ok r /\ r = Float64.zero.
Proof.
  intro Ha. unfold vqa_block.
  destruct (eval_pred_list_repeat answer_pred answer_gt) as [score ->].
  cbn [bind].
  destruct (length (EvalAIAnswerProcessor.__call__ answer_gt) =? 0).
  - eexists. right. split; reflexivity.
  - destruct (length (EvalAIAnswerProcessor.__call__ answer_pred) =? 0).
    + eexists. right. split; reflexivity.
    + eexists. left. split; [reflexivity|].
      apply py_max_ge, float_le_refl, Ha.
Qed.

(** The first block, entered with the accuracy 0. *)
Lemma vqa_stage_mono answer_pred answer_gt M M' :
  mode_subset M M' = true ->
  exists r r',
    when_mode "vqa_score" M (vqa_block answer_pred answer_gt) Float64.zero = Ok r /\
    when_mode "vqa_score" M' (vqa_block answer_pred answer_gt) Float64.zero = Ok r' /\
    float_le r r'.
Proof.
  intro Hsub. unfold when_mode.
  pose proof (@in_mode_subset M M' "vqa_score" Hsub) as Hin.
  assert (H0 : float_le Float64.zero Float64.zero) by (now apply float_le_refl).
  destruct (in_mode "vqa_score" M).
  - rewrite (Hin eq_refl).
    destruct (@vqa_block_number answer_pred answer_gt Float64.zero eq_refl)
      as [r [[-> Hr]|[-> ->]]].
    + exists r, r. both_ok. destruct Hr as (_ & Hn & _).
      now apply float_le_refl.
    + exists Float64.zero, Float64.zero. both_ok. exact H0.
  - destruct (in_mode "vqa_score" M').
    + destruct (@vqa_block_number answer_pred answer_gt Float64.zero eq_refl)
        as [r [[-> Hr]|[-> ->]]].
      * exists Float64.zero, r. both_ok. exact Hr.
      * exists Float64.zero, Float64.zero. both_ok. exact H0.
    + exists Float64.zero, Float64.zero. both_ok. exact H0.
Qed.

(** A block that takes the maximum with a score of its own. *)
Lemma when_mode_mono name block x M M' :
  (forall a, block a = Ok (py_max a x)) ->
  mode_subset M M' = true ->
  forall a a', float_le a a' ->
  exists r r',
    when_mode name M block a = Ok r /\
    when_mode name M' block a' = Ok r' /\
    float_le r r'.
Proof.
  intros Hblock Hsub a a' Hle. unfold when_mode.
  pose proof (@in_mode_subset M M' name Hsub) as Hin.
  destruct (in_mode name M).
  - rewrite (Hin eq_refl), !Hblock.
    exists (py_max a x), (py_max a' x). both_ok. now apply py_max_mono.
  - destruct (in_mode name M').
    + rewrite Hblock. exists a, (py_max a' x). both_ok. now apply py_max_ge.
    + exists a, a'. both_ok. exact Hle.
Qed.

(** Two answers that differ are not both empty: the quotient is defined. *)
Lemma anls_ratio_defined answer_pred answer_gt :
  PyStr.eqb (PyStr.lower answer_pred) (PyStr.lower answer_gt) = false ->
  exists ratio, anls_ratio answer_pred answer_gt = Ok ratio.
Proof.
  intro Hne. unfold anls_ratio.
  destruct (Nat.max (length (PyStr.upper answer_gt))
                    (length (PyStr.upper answer_pred)) =? 0) eqn:E.
  - exfalso. apply Nat.eqb_eq in E.
    unfold PyStr.upper in E. rewrite !length_map in E.
    destruct answer_pred, answer_gt; simpl in E; try lia.
    discriminate Hne.
  - eexists. reflexivity.
Qed.

Lemma accumulate_mono answer_pred answer_gt M M' :
  PyStr.eqb (PyStr.lower answer_pred) (PyStr.lower answer_gt) = false ->
  mode_subset M M' = true ->
  exists r r',
    accumulate answer_pred answer_gt M = Ok r /\
    accumulate answer_pred answer_gt M' = Ok r' /\
    float_le r r'.
Proof.
  intros Hne Hsub. unfold accumulate.
  destruct (@vqa_stage_mono answer_pred answer_gt M M' Hsub) as (r1 & r1' & -> & -> & H1).
  cbn [bind].
  destruct (@when_mode_mono "relaxed_accuracy"
              (relaxed_block answer_pred answer_gt) _ M M'
              (fun a => eq_refl) Hsub r1 r1' H1) as (r2 & r2' & -> & -> & H2).
  cbn [bind].
  destruct (@anls_ratio_defined answer_pred answer_gt Hne) as [ratio Hratio].
  assert (Hanls : forall a, anls_block answer_pred answer_gt a = Ok (py_max a ratio))
    by (intro a; unfold anls_block; now rewrite Hratio).
  destruct (@when_mode_mono "anls" _ _ M M' Hanls Hsub r2 r2' H2)
    as (r3 & r3' & -> & -> & H3).
  cbn [bind].
  destruct (@when_mode_mono "mc_score"
              (mc_block answer_pred answer_gt) _ M M'
              (fun a => eq_refl) Hsub r3 r3' H3) as (r4 & r4' & -> & -> & H4).
  cbn [bind].
  exact (@when_mode_mono "math_score"
           (math_block answer_pred answer_gt) _ M M'
           (fun a => eq_refl) Hsub r4 r4' H4).
Qed.

End CheckAnswer.

(** C3: [check_answer] is monotone in the mode set: when every mode of [M]
    is a mode of [M'], both calls return a decision, whatever the cache, and
    the decision under [M] is at most the decision under [M']. *)
Theorem C3_check_answer_monotone :
  forall (c c' : cache) (prediction target : str) (M M' : list str),
    mode_subset M M' = true ->
    exists d d',
      fst (check_answer c prediction target M) = Ok d /\
      fst (check_answer c' prediction target M') = Ok d' /\
      d <= d'.
Proof.
  intros c c' prediction target M M' Hsub. unfold check_answer.
  destruct (PyStr.eqb (PyStr.lower prediction) (PyStr.lower target)) eqn:E.
  - exists 1, 1. repeat split. lia.
  - destruct (@accumulate_mono prediction target M M' E Hsub)
      as (r & r' & -> & -> & Hle).
    cbn [fst].
    destruct (Float64.ltb lit_0_9 r) eqn:Hr.
    + rewrite (@threshold_mono _ _ _ Hle Hr). exists 1, 1. repeat split. lia.
    + destruct (Float64.ltb lit_0_9 r'); eexists _, _; repeat split; lia.
Qed.

Lemma C3_check_answer_monotone_witness :
  mode_subset ["anls" : str] ["anls" : str; "mc_score" : str] = true /\
  exists d d',
    fst (check_answer [] "(B)" "b" ["anls" : str]) = Ok d /\
    fst (check_answer [] "(B)" "b" ["anls" : str; "mc_score" : str]) = Ok d' /\
    d <= d'.
Proof.
  split; [reflexivity|].
  apply C3_check_answer_monotone. reflexivity.
Defined.

(** C5: the value returned by [check_answer] does not depend on the cache it
    is called with. *)
Theorem C5_check_answer_ignores_cache :
  forall (c1 c2 : cache) (prediction target : str) (mode : list str),
    fst (check_answer c1 prediction target mode)
    = fst (check_answer c2 prediction target mode).
Proof.
  intros. unfold check_answer.
  destruct (PyStr.eqb (PyStr.lower prediction) (PyStr.lower target)); [reflexivity|].
  destruct (accumulate prediction target mode); reflexivity.
Qed.

(** ** The relaxed numeric scorers *)

(** The result of [relaxed_correctness] is not a function of the two parsed
    numbers: for the target "0", the predictions "0" and "0.00" parse to the
    same number and get different results. *)
Lemma relaxed_correctness_not_numeric :
  ~ (exists F : Float64.float -> Float64.float -> bool,
       forall (target prediction : str) (pf tf : Float64.float),
         relaxed_correctness_def._to_float prediction = Some pf ->
         relaxed_correctness_def._to_float target = Some tf ->
         (length target =? 4) && PyStr.startswith "20" target = false ->
         relaxed_correctness target prediction lit_0_05 = F pf tf).
Proof.
  intros [F H].
  assert (H0 : relaxed_correctness_def._to_float "0" = Some Float64.zero)
    by (vm_compute; reflexivity).
  assert (H1 : relaxed_correctness_def._to_float "0.00" = Some Float64.zero)
    by (vm_compute; reflexivity).
  pose proof (H "0" "0" Float64.zero Float64.zero H0 H0 eq_refl) as Ha.
  pose proof (H "0" "0.00" Float64.zero Float64.zero H1 H0 eq_refl) as Hb.
  rewrite <- Hb in Ha. vm_compute in Ha. discriminate Ha.
Qed.

(** C4, as stated, fails: it would make the result a function of the two
    parsed numbers on every target outside the year rule, and the target "0"
    with the prediction "0" is accepted although the quotient 0/0 is not a
    number. *)
Lemma C4_relaxed_correctness_counterexample :
  ~ (forall (target prediction : str) (pf tf : Float64.float),
       relaxed_correctness_def._to_float prediction = Some pf ->
       relaxed_correctness_def._to_float target = Some tf ->
       (length target =? 4) && PyStr.startswith "20" target = false ->
       relaxed_correctness target prediction lit_0_05
       = Float64.leb (relative_change pf tf) lit_0_05).
Proof.
  intro H.
  assert (H0 : relaxed_correctness_def._to_float "0" = Some Float64.zero)
    by (vm_compute; reflexivity).
  specialize (H "0" "0" Float64.zero Float64.zero H0 H0 eq_refl).
  vm_compute in H. discriminate H.
Qed.

(** C4, amended: when both strings parse, the target is outside the year
    rule and its number is not zero, [relaxed_correctness] is the test that
    the relative change is at most the tolerance; a target of 4 characters
    that starts with "20" is compared as a string, without regard to case;
    "5%" parses to 5; and the four examples have the stated results. *)
Theorem C4_relaxed_correctness_tolerance :
  (forall (target prediction : str) (tol pf tf : Float64.float),
     (length target =? 4) && PyStr.startswith "20" target = false ->
     relaxed_correctness_def._to_float prediction = Some pf ->
     relaxed_correctness_def._to_float target = Some tf ->
     Float64.is_zero tf = false ->
     relaxed_correctness target prediction tol
     = Float64.leb (relative_change pf tf) tol) /\
  (forall (target prediction : str) (tol : Float64.float),
     (length target =? 4) && PyStr.startswith "20" target = true ->
     relaxed_correctness target prediction tol
     = PyStr.eqb (PyStr.lower prediction) (PyStr.lower target)) /\
  relaxed_correctness_def._to_float "5%" = Some (Float64.of_Z 5) /\
  relaxed_correctness "10" "10.4" lit_0_05 = true /\
  relaxed_correctness "10" "11" lit_0_05 = false /\
  relaxed_correctness "2019" "2019" lit_0_05 = true /\
  relaxed_correctness "2019" "2020" lit_0_05 = false.
Proof.
  split.
  { intros target prediction tol pf tf Hy Hp Ht Hz.
    unfold relaxed_correctness. rewrite Hy, Hp, Ht.
    unfold Float64.truthy. rewrite Hz. reflexivity. }
  split.
  { intros target prediction tol Hy.
    unfold relaxed_correctness. rewrite Hy. reflexivity. }
  repeat split; vm_compute; reflexivity.
Qed.

Lemma C4_relaxed_correctness_witness :
  (length ("10" : str) =? 4) && PyStr.startswith "20" "10" = false /\
  relaxed_correctness_def._to_float "10.4" = Some (Float64.of_decimal false 104 (-1)) /\
  relaxed_correctness_def._to_float "10" = Some (Float64.of_Z 10) /\
  Float64.is_zero (Float64.of_Z 10) = false /\
  relaxed_correctness "10" "10.4" lit_0_05
  = Float64.leb
      (relative_change (Float64.of_decimal false 104 (-1)) (Float64.of_Z 10))
      lit_0_05.
Proof.
  assert (Hy : (length ("10" : str) =? 4) && PyStr.startswith "20" "10" = false)
    by reflexivity.
  assert (Hp : relaxed_correctness_def._to_float "10.4"
               = Some (Float64.of_decimal false 104 (-1)))
    by (vm_compute; reflexivity).
  assert (Ht : relaxed_correctness_def._to_float "10" = Some (Float64.of_Z 10))
    by (vm_compute; reflexivity).
  assert (Hz : Float64.is_zero (Float64.of_Z 10) = false)
    by (vm_compute; reflexivity).
  split; [exact Hy|]. split; [exact Hp|]. split; [exact Ht|]. split; [exact Hz|].
  exact (proj1 C4_relaxed_correctness_tolerance "10" "10.4" lit_0_05 _ _ Hy Hp Ht Hz).
Defined.

(** C10: in [relaxed_correctness] and in [math_score], a target that parses
    to zero is compared as a string, without regard to case; the targets "0"
    and "0.00" (and "0cm" for [math_score]) parse to zero, and
    [relaxed_correctness] rejects the prediction "0.00" for the target "0". *)
Theorem C10_zero_target_exact_match :
  (forall (target prediction : str) (tol tf : Float64.float),
     relaxed_correctness_def._to_float target = Some tf ->
     Float64.is_zero tf = true ->
     relaxed_correctness target prediction tol
     = PyStr.eqb (PyStr.lower prediction) (PyStr.lower target)) /\
  (forall (target prediction : str) (tol tf : Float64.float),
     math_score_def._to_float target = Some tf ->
     Float64.is_zero tf = true ->
     math_score target prediction tol
     = PyStr.eqb (PyStr.lower prediction) (PyStr.lower target)) /\
  relaxed_correctness_def._to_float "0" = Some Float64.zero /\
  relaxed_correctness_def._to_float "0.0" = Some Float64.zero /\
  relaxed_correctness_def._to_float "0.00" = Some Float64.zero /\
  math_score_def._to_float "0cm" = Some Float64.zero /\
  relaxed_correctness "0" "0.00" lit_0_05 = false.
Proof.
  split.
  { intros target prediction tol tf Ht Hz.
    unfold relaxed_correctness.
    destruct ((length target =? 4) && PyStr.startswith "20" target); [reflexivity|].
    rewrite Ht. unfold Float64.truthy. rewrite Hz.
    destruct (relaxed_correctness_def._to_float prediction); reflexivity. }
  split.
  { intros target prediction tol tf Ht Hz.
    unfold math_score. rewrite Ht. unfold Float64.truthy. rewrite Hz.
    destruct (math_score_def._to_float prediction); reflexivity. }
  repeat split; vm_compute; reflexivity.
Qed.

Lemma C10_zero_target_witness :
  relaxed_correctness_def._to_float "0" = Some Float64.zero /\
  Float64.is_zero Float64.zero = true /\
  relaxed_correctness "0" "0.00" lit_0_05
  = PyStr.eqb (PyStr.lower "0.00") (PyStr.lower "0").
Proof.
  assert (Ht : relaxed_correctness_def._to_float "0" = Some Float64.zero)
    by (vm_compute; reflexivity).
  split; [exact Ht|]. split; [reflexivity|].
  exact (proj1 C10_zero_target_exact_match "0" "0.00" lit_0_05 Float64.zero Ht eq_refl).
Defined.

(** ** The multiple-choice post-processing *)

(** C8, as stated, fails: [post_process] does not fail on "(C) cats". *)
Lemma C8_post_process_counterexample :
  ~ (exists e, post_process "(C) cats" = Raise e).
Proof. intros [e H]. vm_compute in H. discriminate H. Qed.

(** C8, amended: [post_process] returns the letter between the parentheses
    whenever the cleaned, upper-case text opens with a parenthesis, an
    allowed letter and a closing parenthesis, whatever follows; on
    "(C) cats" it returns "C". *)
Theorem C8_post_process_parenthesized_prefix :
  (forall (pred rest : str) (x : ascii),
     PyStr.upper (PyStr.strip_chars "*" (PyStr.strip pred))
     = "("%char :: x :: ")"%char :: rest ->
     existsb (PyStr.eqb [x]) option_candidate = true ->
     post_process pred = Ok [x]) /\
  post_process "(C) cats" = Ok ("C" : str).
Proof.
  split; [|vm_compute; reflexivity].
  intros pred rest x Hshape Hx. unfold post_process. rewrite Hshape, Hx.
  replace (existsb (PyStr.eqb ["("%char]) option_candidate) with false
    by (vm_compute; reflexivity).
  rewrite andb_false_r. reflexivity.
Qed.

Lemma C8_post_process_witness :
  PyStr.upper (PyStr.strip_chars "*" (PyStr.strip "(C) cats"))
  = "("%char :: "C"%char :: ")"%char :: (" CATS" : str) /\
  existsb (PyStr.eqb ["C"%char]) option_candidate = true /\
  post_process "(C) cats" = Ok ["C"%char].
Proof.
  assert (H1 : PyStr.upper (PyStr.strip_chars "*" (PyStr.strip "(C) cats"))
               = "("%char :: "C"%char :: ")"%char :: (" CATS" : str))
    by (vm_compute; reflexivity).
  assert (H2 : existsb (PyStr.eqb ["C"%char]) option_candidate = true)
    by (vm_compute; reflexivity).
  split; [exact H1|]. split; [exact H2|].
  exact (proj1 C8_post_process_parenthesized_prefix "(C) cats" " CATS" "C"%char H1 H2).
Defined.

(** ** The normalizer *)

Section Strings.

Lemma forall_ascii (P : ascii -> bool) :
  forallb P all_ascii = true -> forall c, P c = true.
Proof.
  intros H c. rewrite forallb_forall in H. apply H.
  unfold all_ascii. rewrite <- (ascii_nat_embedding c).
  apply in_map, in_seq. pose proof (nat_ascii_bounded c). lia.
Qed.

Lemma replace_absent old new s :
  PyStr.contains old s = false -> PyStr.replace old new s = s.
Proof.
  unfold PyStr.replace.
  induction s as [|c s IH]; intro H; [reflexivity|].
  cbn [PyStr.contains] in H. apply orb_false_elim in H. destruct H as [H1 H2].
  cbn [PyStr.replace_from]. rewrite H1. f_equal. now apply IH.
Qed.

Lemma contains_single p s : ~ In p s -> PyStr.contains [p] s = false.
Proof.
  induction s as [|c s IH]; intro H; [reflexivity|].
  cbn [PyStr.contains PyStr.startswith].
  destruct (Ascii.eqb_spec p c) as [E|E].
  - exfalso. apply H. left. now symmetry.
  - cbn [andb orb]. apply IH. intro Hin. apply H. now right.
Qed.

Lemma replace_single p new s :
  PyStr.replace [p] new s
  = flat_map (fun c => if Ascii.eqb p c then new else [c]) s.
Proof.
  unfold PyStr.replace.
  induction s as [|c s IH]; [reflexivity|].
  cbn [PyStr.replace_from PyStr.startswith flat_map length Nat.sub].
  destruct (Ascii.eqb p c), s; cbn [andb]; rewrite IH; reflexivity.
Qed.

Lemma in_replace_single p new s c :
  In c (PyStr.replace [p] new s) -> (In c s /\ c <> p) \/ In c new.
Proof.
  rewrite replace_single, in_flat_map. intros [a [Ha Hc]].
  destruct (Ascii.eqb_spec p a) as [E|E].
  - now right.
  - left. destruct Hc as [Hc|[]]. subst a. split; [exact Ha|congruence].
Qed.

(** The words of [split] are not empty and made of characters of the text
    that are no whitespace. *)
Lemma split_from_words s :
  forall cur w,
    (forall c, In c cur -> PyStr.isspace c = false) ->
    In w (PyStr.split_from cur s) ->
    w <> [] /\ forall c, In c w -> PyStr.isspace c = false /\ (In c cur \/ In c s).
Proof.
  induction s as [|a s IH]; intros cur w Hcur Hw.
  - destruct cur as [|c0 cur]; [contradiction|].
    destruct Hw as [Hw|[]]. subst w. split.
    + intro E. apply (f_equal (@length ascii)) in E.
      rewrite length_rev in E. discriminate.
    + intros c Hc. apply in_rev in Hc. split; [now apply Hcur | now left].
  - cbn [PyStr.split_from] in Hw.
    destruct (PyStr.isspace a) eqn:Ea.
    + assert (Hrest : In w (PyStr.split_from [] s) ->
                      w <> [] /\ forall c, In c w ->
                        PyStr.isspace c = false /\ (In c cur \/ In c (a :: s))).
      { intro H. destruct (IH [] w (fun c (F : In c []) => match F with end) H)
          as [Hne Hc].
        split; [exact Hne|]. intros c Hin. destruct (Hc c Hin) as [Hs [[]|Hin']].
        split; [exact Hs|]. right. now right. }
      destruct cur as [|c0 cur]; [now apply Hrest|].
      destruct Hw as [Hw|Hw]; [|now apply Hrest].
      subst w. split.
      * intro E. apply (f_equal (@length ascii)) in E.
        rewrite length_rev in E. discriminate.
      * intros c Hc. apply in_rev in Hc. split; [now apply Hcur | now left].
    + assert (Hcur' : forall c, In c (a :: cur) -> PyStr.isspace c = false).
      { intros c [<-|Hc]; [exact Ea | now apply Hcur]. }
      destruct (IH (a :: cur) w Hcur' Hw) as [Hne Hc].
      split; [exact Hne|]. intros c Hin.
      destruct (Hc c Hin) as [Hs [[<-|Hin']|Hin']].
      * split; [exact Hs|]. right. now left.
      * split; [exact Hs|]. now left.
      * split; [exact Hs|]. right. now right.
Qed.

Lemma split_words s w :
  In w (PyStr.split s) ->
  w <> [] /\ forall c, In c w -> PyStr.isspace c = false /\ In c s.
Proof.
  intro Hw.
  destruct (@split_from_words s [] w (fun c (F : In c []) => match F with end) Hw)
    as [Hne Hc].
  split; [exact Hne|]. intros c Hin. destruct (Hc c Hin) as [Hs [[]|H]]. now split.
Qed.

(** Reading a word that holds no whitespace. *)
Lemma split_from_word w :
  forall cur rest,
    (forall c, In c w -> PyStr.isspace c = false) ->
    PyStr.split_from cur (w ++ rest) = PyStr.split_from (rev w ++ cur) rest.
Proof.
  induction w as [|a w IH]; intros cur rest Hw; [reflexivity|].
  cbn [app PyStr.split_from]. rewrite (Hw a (or_introl eq_refl)).
  rewrite IH by (intros c Hc; apply Hw; now right).
  cbn [rev]. now rewrite <- app_assoc.
Qed.

Lemma join_cons sep w w' ws :
  PyStr.join sep (w :: w' :: ws) = w ++ sep ++ PyStr.join sep (w' :: ws).
Proof. reflexivity. Qed.

(** Splitting the words joined by single blanks gives the words back. *)
Lemma split_join ws :
  (forall w, In w ws -> w <> [] /\ forall c, In c w -> PyStr.isspace c = false) ->
  PyStr.split (PyStr.join " " ws) = ws.
Proof.
  unfold PyStr.split.
  induction ws as [|w ws IH]; intro H; [reflexivity|].
  destruct (H w (or_introl eq_refl)) as [Hne Hw].
  assert (Hrev : rev w <> []).
  { intro E. apply Hne. apply (f_equal (@rev ascii)) in E.
    now rewrite rev_involutive in E. }
  destruct ws as [|w' ws].
  - cbn [PyStr.join]. rewrite <- (app_nil_r w) at 1.
    rewrite split_from_word by exact Hw.
    cbn [PyStr.split_from]. rewrite app_nil_r.
    destruct (rev w) eqn:E; [contradiction|]. rewrite <- E, rev_involutive.
    reflexivity.
  - rewrite join_cons, split_from_word by exact Hw.
    rewrite app_nil_r.
    change (str_of_string " " ++ PyStr.join " " (w' :: ws))
      with (" "%char :: PyStr.join " " (w' :: ws)).
    cbn [PyStr.split_from].
    replace (PyStr.isspace " ") with true by reflexivity.
    destruct (rev w) eqn:E; [contradiction|]. rewrite <- E, rev_involutive.
    f_equal. apply IH. intros w0 Hw0. apply H. now right.
Qed.

Lemma in_join sep ws c :
  In c (PyStr.join sep ws) -> In c sep \/ exists w, In w ws /\ In c w.
Proof.
  induction ws as [|w ws IH]; [contradiction|].
  destruct ws as [|w' ws].
  - intro H. right. exists w. split; [now left | exact H].
  - rewrite join_cons, !in_app_iff. intros [H|[H|H]].
    + right. exists w. split; [now left | exact H].
    + now left.
    + destruct (IH H) as [H'|[w0 [Hw0 Hc]]]; [now left|].
      right. exists w0. split; [now right | exact Hc].
Qed.

Lemma join_head sep w ws : exists rest, PyStr.join sep (w :: ws) = w ++ rest.
Proof.
  destruct ws as [|w' ws].
  - exists []. cbn [PyStr.join]. now rewrite app_nil_r.
  - eexists. apply join_cons.
Qed.

Lemma join_last sep w ws :
  exists front, PyStr.join sep (ws ++ [w]) = front ++ w.
Proof.
  induction ws as [|w0 ws [front IH]].
  - exists []. reflexivity.
  - destruct ws as [|w1 ws].
    + exists (w0 ++ sep). cbn [app PyStr.join]. now rewrite <- app_assoc.
    + exists (w0 ++ sep ++ front).
      change ((w0 :: w1 :: ws) ++ [w]) with (w0 :: w1 :: (ws ++ [w])).
      rewrite join_cons. change (w1 :: ws ++ [w]) with ((w1 :: ws) ++ [w]).
      rewrite IH. now rewrite <- !app_assoc.
Qed.

Lemma lstrip_by_head f c s : f c = false -> PyStr.lstrip_by f (c :: s) = c :: s.
Proof. intro H. cbn [PyStr.lstrip_by]. now rewrite H. Qed.

(** Stripping does nothing to words joined by blanks when the words are not
    empty and hold none of the characters to strip. *)
Lemma strip_by_join f ws :
  (forall w, In w ws -> w <> [] /\ forall c, In c w -> f c = false) ->
  PyStr.strip_by f (PyStr.join " " ws) = PyStr.join " " ws.
Proof.
  intro H. unfold PyStr.strip_by, PyStr.rstrip_by.
  destruct ws as [|w ws]; [reflexivity|].
  assert (Hl : PyStr.lstrip_by f (PyStr.join " " (w :: ws)) = PyStr.join " " (w :: ws)).
  { destruct (join_head " " w ws) as [rest ->].
    destruct (H w (or_introl eq_refl)) as [Hne Hw].
    destruct w as [|c w]; [contradiction|].
    apply lstrip_by_head, Hw. now left. }
  rewrite Hl.
  destruct (exists_last (l := w :: ws)) as [front [wl E]]; [discriminate|].
  rewrite E. destruct (join_last " " wl front) as [pre ->].
  assert (Hwl : In wl (w :: ws)) by (rewrite E; apply in_or_app; right; now left).
  destruct (H wl Hwl) as [Hne Hc].
  destruct (exists_last Hne) as [wf [cl Ewl]].
  rewrite Ewl, app_assoc, rev_app_distr. cbn [rev app].
  rewrite lstrip_by_head
    by (apply Hc; rewrite Ewl; apply in_or_app; right; now left).
  change (cl :: rev (pre ++ wf)) with (rev [cl] ++ rev (pre ++ wf)).
  now rewrite <- rev_app_distr, rev_involutive.
Qed.

End Strings.

Section NumberMap.

Import EvalAIAnswerProcessor.

Lemma dict_get_app d1 d2 k :
  dict_get (d1 ++ d2) k
  = match dict_get d1 k with Some v => Some v | None => dict_get d2 k end.
Proof.
  induction d1 as [|[k' v] d1 IH]; [reflexivity|].
  cbn [app dict_get]. destruct (PyStr.eqb k' k); [reflexivity | exact IH].
Qed.

Lemma dict_get_in d k v : dict_get d k = Some v -> In (k, v) d.
Proof.
  induction d as [|[k' v'] d IH]; [discriminate|].
  cbn [dict_get]. destruct (PyStr.eqb k' k) eqn:E.
  - apply PyStr_eqb_eq in E. intro H. left. congruence.
  - intro H. right. now apply IH.
Qed.

Lemma dict_literals_ok :
  dict_literal_ok CONTRACTIONS = true /\ dict_literal_ok NUMBER_MAP = true.
Proof. split; vm_compute; reflexivity. Qed.

Lemma extends_number_map_init : extends_number_map NUMBER_MAP.
Proof. intro k. now left. Qed.

(** [setdefault(word, word)] returns what the class's map gives, and leaves
    a map of the same kind. *)
Lemma setdefault_number nm word :
  extends_number_map nm ->
  fst (setdefault nm word word) = number_of word /\
  extends_number_map (snd (setdefault nm word word)).
Proof.
  intro Hnm. unfold setdefault, number_of.
  destruct (dict_get nm word) as [x|] eqn:E; cbn [fst snd].
  - split; [|exact Hnm].
    destruct (Hnm word) as [H|[H1 H2]].
    + now rewrite <- H, E.
    + rewrite H1. congruence.
  - split.
    + destruct (Hnm word) as [H|[H1 H2]]; [now rewrite <- H, E | congruence].
    + intro k. rewrite dict_get_app. cbn [dict_get].
      destruct (Hnm k) as [H|[H1 H2]].
      * destruct (dict_get nm k) eqn:Ek; [now left|].
        destruct (PyStr.eqb word k) eqn:Ew; [|now left].
        apply PyStr_eqb_eq in Ew. subst k. right. now split.
      * rewrite H2. right. now split.
Qed.

Lemma digit_article_loop_spec temp_text :
  forall nm out_text,
    extends_number_map nm ->
    fst (digit_article_loop nm temp_text out_text)
    = out_text ++ filter (fun w => negb (is_article w)) (map number_of temp_text) /\
    extends_number_map (snd (digit_article_loop nm temp_text out_text)).
Proof.
  induction temp_text as [|word rest IH]; intros nm out_text Hnm.
  - cbn. now rewrite app_nil_r.
  - cbn [digit_article_loop map filter].
    destruct (setdefault_number word Hnm) as [Hword Hnm'].
    destruct (setdefault nm word word) as [word' nm'].
    cbn [fst snd] in Hword, Hnm'. subst word'.
    destruct (negb (is_article (number_of word))).
    + destruct (IH nm' (out_text ++ [number_of word]) Hnm') as [H1 H2].
      split; [|exact H2]. rewrite H1, <- app_assoc. reflexivity.
    + now apply IH.
Qed.

Lemma process_digit_article_st_spec nm in_text :
  extends_number_map nm ->
  fst (process_digit_article_st nm in_text)
  = PyStr.join " "
      (map expand
         (filter (fun w => negb (is_article w))
                 (map number_of (PyStr.split (PyStr.lower in_text))))) /\
  extends_number_map (snd (process_digit_article_st nm in_text)).
Proof.
  intro Hnm. unfold process_digit_article_st.
  destruct (digit_article_loop_spec (PyStr.split (PyStr.lower in_text)) [] Hnm)
    as [H1 H2].
  destruct (digit_article_loop nm (PyStr.split (PyStr.lower in_text)) [])
    as [out_text nm'].
  cbn [fst snd] in *. subst out_text. now split.
Qed.

(** The entries that [setdefault] adds to the number map are not observable:
    on every map it can have produced, the normalizer returns what it
    returns on the map of the class. *)
Lemma call_st_number_map nm item :
  extends_number_map nm ->
  fst (call_st nm item) = __call__ item /\
  extends_number_map (snd (call_st nm item)).
Proof.
  intro Hnm. unfold __call__, call_st.
  destruct (process_digit_article_st_spec
              (process_punctuation
                 (PyStr.strip
                    (PyStr.replace [tab] " "
                       (PyStr.replace [newline] " " (word_tokenize item))))) Hnm)
    as [H1 H2].
  split; [|exact H2]. rewrite H1.
  symmetry. apply process_digit_article_st_spec, extends_number_map_init.
Qed.

End NumberMap.

Section Words.

Lemma in_replace_from old new s :
  forall k c, In c (PyStr.replace_from old new k s) -> In c s \/ In c new.
Proof.
  induction s as [|a s IH]; intros k c Hc; [contradiction|].
  cbn [PyStr.replace_from] in Hc. destruct k as [|k].
  - destruct (PyStr.startswith old (a :: s)).
    + apply in_app_or in Hc. destruct Hc as [Hc|Hc]; [now right|].
      destruct (IH _ _ Hc); [left; now right | now right].
    + destruct Hc as [<- | Hc]; [left; now left|].
      destruct (IH _ _ Hc); [left; now right | now right].
  - destruct (IH _ _ Hc); [left; now right | now right].
Qed.

Lemma startswith_apos_s_app u rest :
  u <> [] -> no_s_head rest = true ->
  PyStr.startswith "'s" (u ++ rest) = PyStr.startswith "'s" u.
Proof.
  intros Hu Hrest. destruct u as [|c u]; [contradiction|].
  change (str_of_string "'s") with ["'"%char; "s"%char].
  cbn [app PyStr.startswith].
  destruct u as [|d u]; cbn [app]; [|reflexivity].
  destruct rest as [|r rest]; [reflexivity|].
  cbn [no_s_head] in Hrest. apply negb_true_iff in Hrest.
  rewrite Hrest. reflexivity.
Qed.

(** A stretch without ['s], before a text that does not start with s, is
    copied by the replacement. *)
Lemma replace_apos_s_skip u rest :
  PyStr.contains "'s" u = false -> no_s_head rest = true ->
  PyStr.replace "'s" " 's" (u ++ rest) = u ++ PyStr.replace "'s" " 's" rest.
Proof.
  unfold PyStr.replace. intros Hu Hrest.
  induction u as [|c u IH]; [reflexivity|].
  cbn [PyStr.contains] in Hu. apply orb_false_elim in Hu. destruct Hu as [H1 H2].
  change ((c :: u) ++ rest) with (c :: (u ++ rest)).
  cbn [PyStr.replace_from].
  change (c :: (u ++ rest)) with ((c :: u) ++ rest).
  rewrite startswith_apos_s_app by (trivial; discriminate).
  rewrite H1. cbn [app]. f_equal. now apply IH.
Qed.

(** The replacement on a word that holds ['s] at its start at most. *)
Lemma replace_apos_s_word w rest :
  PyStr.contains "'s" (tl w) = false -> no_s_head rest = true ->
  PyStr.replace "'s" " 's" (w ++ rest)
  = (if PyStr.startswith "'s" w then " "%char :: w else w)
    ++ PyStr.replace "'s" " 's" rest.
Proof.
  intros Hw Hrest.
  destruct (PyStr.startswith "'s" w) eqn:E.
  - change (str_of_string "'s") with ["'"%char; "s"%char] in E.
    destruct w as [|a w]; [discriminate E|].
    destruct w as [|b u];
      [cbn [PyStr.startswith] in E; rewrite andb_false_r in E; discriminate E|].
    cbn [PyStr.startswith] in E.
    apply andb_prop in E. destruct E as [Ea E].
    apply andb_prop in E. destruct E as [Eb _].
    apply Ascii.eqb_eq in Ea, Eb. subst a b.
    cbn [tl PyStr.contains] in Hw. apply orb_false_elim in Hw.
    destruct Hw as [_ Hu].
    pose proof (replace_apos_s_skip u rest Hu Hrest) as H.
    unfold PyStr.replace in *.
    change (("'"%char :: "s"%char :: u) ++ rest)
      with ("'"%char :: "s"%char :: (u ++ rest)).
    cbn [PyStr.replace_from]. 
    replace (PyStr.startswith "'s" ("'"%char :: "s"%char :: u ++ rest)) with true
      by reflexivity.
    change (length (str_of_string "'s") - 1) with 1.
    cbn [PyStr.replace_from]. rewrite H. reflexivity.
  - apply replace_apos_s_skip; [|exact Hrest].
    destruct w as [|a u]; [reflexivity|].
    cbn [PyStr.contains]. rewrite E. exact Hw.
Qed.

Lemma split_from_blanks cur t :
  forallb PyStr.isspace t = true ->
  PyStr.split_from cur t = match cur with [] => [] | _ => [rev cur] end.
Proof.
  revert cur. induction t as [|c t IH]; intros cur H; [reflexivity|].
  cbn [forallb] in H. apply andb_prop in H. destruct H as [Hc Ht].
  cbn [PyStr.split_from]. rewrite Hc.
  destruct cur; rewrite (IH [] Ht); reflexivity.
Qed.

Lemma split_from_trailing s :
  forall cur t, forallb PyStr.isspace t = true ->
  PyStr.split_from cur (s ++ t) = PyStr.split_from cur s.
Proof.
  induction s as [|c s IH]; intros cur t Ht.
  - cbn [app PyStr.split_from]. now apply split_from_blanks.
  - cbn [app PyStr.split_from].
    destruct (PyStr.isspace c); [destruct cur|]; now rewrite IH.
Qed.

Lemma lstrip_by_decomp f s :
  exists t, s = t ++ PyStr.lstrip_by f s /\ forallb f t = true.
Proof.
  induction s as [|c s [t [E Ht]]].
  - exists []. now split.
  - cbn [PyStr.lstrip_by]. destruct (f c) eqn:Ec.
    + exists (c :: t). split; [cbn [app]; now f_equal|].
      cbn [forallb]. now rewrite Ec.
    + exists []. now split.
Qed.

Lemma rstrip_by_decomp f s :
  exists t, s = PyStr.rstrip_by f s ++ t /\ forallb f t = true.
Proof.
  unfold PyStr.rstrip_by.
  destruct (lstrip_by_decomp f (rev s)) as [t [E Ht]].
  exists (rev t). split.
  - rewrite <- rev_app_distr, <- E. now rewrite rev_involutive.
  - rewrite forallb_forall in *. intros c Hc. apply Ht. now apply in_rev.
Qed.

Lemma split_lstrip s : PyStr.split (PyStr.lstrip_by PyStr.isspace s) = PyStr.split s.
Proof.
  unfold PyStr.split. induction s as [|c s IH]; [reflexivity|].
  cbn [PyStr.lstrip_by PyStr.split_from].
  destruct (PyStr.isspace c) eqn:E; [exact IH|].
  cbn [PyStr.split_from]. now rewrite E.
Qed.

(** Stripping does not change the words. *)
Lemma split_strip s : PyStr.split (PyStr.strip s) = PyStr.split s.
Proof.
  unfold PyStr.strip, PyStr.strip_by.
  rewrite <- (split_lstrip s).
  destruct (rstrip_by_decomp PyStr.isspace (PyStr.lstrip_by PyStr.isspace s))
    as [t [E Ht]].
  rewrite E at 2. unfold PyStr.split. now rewrite split_from_trailing.
Qed.

Lemma in_lstrip_by f s c : In c (PyStr.lstrip_by f s) -> In c s.
Proof.
  destruct (lstrip_by_decomp f s) as [t [E _]]. intro H.
  rewrite E. apply in_or_app. now right.
Qed.

Lemma in_strip s c : In c (PyStr.strip s) -> In c s.
Proof.
  unfold PyStr.strip, PyStr.strip_by. intro H.
  apply (in_lstrip_by PyStr.isspace).
  destruct (rstrip_by_decomp PyStr.isspace (PyStr.lstrip_by PyStr.isspace s))
    as [t [E _]].
  rewrite E. apply in_or_app. now left.
Qed.

Lemma periods_kept_tail c s : periods_kept (c :: s) = true -> periods_kept s = true.
Proof. cbn [periods_kept]. intro H. now apply andb_prop in H. Qed.

Lemma periods_kept_app a b :
  periods_kept a = true -> periods_kept b = true -> periods_kept (a ++ b) = true.
Proof.
  intros Ha Hb. induction a as [|c a IH]; [exact Hb|].
  cbn [app periods_kept] in *. apply andb_prop in Ha. destruct Ha as [H1 H2].
  rewrite (IH H2), andb_true_r.
  destruct a as [|d a]; [|exact H1].
  cbn [app]. destruct (Ascii.eqb c "."); [discriminate H1 | reflexivity].
Qed.

Lemma space_not_period :
  forall c, negb (PyStr.isspace c) || negb (Ascii.eqb c ".") = true.
Proof. apply forall_ascii. vm_compute. reflexivity. Qed.

(** A text keeps its periods when each of its words does. *)
Lemma periods_kept_of_words s :
  forall cur,
    (forall w, In w (PyStr.split_from cur s) -> periods_kept w = true) ->
    periods_kept (rev cur ++ s) = true.
Proof.
  induction s as [|c s IH]; intros cur H.
  - rewrite app_nil_r. destruct cur as [|c0 cur]; [reflexivity|].
    apply H. now left.
  - cbn [PyStr.split_from] in H. destruct (PyStr.isspace c) eqn:Ec.
    + assert (Hs : periods_kept (c :: s) = true).
      { cbn [periods_kept].
        pose proof (space_not_period c) as Hc. rewrite Ec in Hc.
        cbn [negb orb] in Hc. apply negb_true_iff in Hc. rewrite Hc.
        cbn [andb negb].
        apply (IH []). intros w Hw. apply H.
        destruct cur; [exact Hw | now right]. }
      destruct cur as [|c0 cur]; [exact Hs|].
      apply periods_kept_app; [|exact Hs]. apply H. now left.
    + specialize (IH (c :: cur) H). cbn [rev] in IH.
      now rewrite <- app_assoc in IH.
Qed.

End Words.

Section Normalizer.

Import EvalAIAnswerProcessor.

Lemma is_punct_mark c : is_punct c = true -> In c PUNCTUATION_MARKS.
Proof.
  unfold is_punct, PUNCTUATIONS. intro H.
  apply existsb_exists in H. destruct H as [p [Hp E]].
  apply PyStr_eqb_eq in E. subst p.
  apply in_map_iff in Hp. destruct Hp as [a [Ha Hin]]. congruence.
Qed.

(** After the loop over the marks, no mark is left in the text. *)
Lemma punctuation_loop_chars (cond : str -> bool) marks :
  ~ In " "%char marks ->
  forall s c,
    In c (fold_left
            (fun (out_text p : str) =>
               if cond p then PyStr.replace p "" out_text
               else PyStr.replace p " " out_text)
            (map (fun m : ascii => [m]) marks) s) ->
    ~ In c marks /\ (In c s \/ c = " "%char).
Proof.
  induction marks as [|m marks IH]; intros Hsp s c Hc.
  - split; [intros [] | now left].
  - cbn [map fold_left] in Hc.
    assert (Hsp' : ~ In " "%char marks) by (intro F; apply Hsp; now right).
    assert (Hm : " "%char <> m) by (intro F; apply Hsp; now left).
    destruct (IH Hsp' _ c Hc) as [Hnot Hin].
    assert (Hstep : (In c s /\ c <> m) \/ c = " "%char).
    { destruct Hin as [Hin| ->]; [|now right].
      destruct (cond [m]); apply in_replace_single in Hin;
        destruct Hin as [Hin|Hin]; try (now left);
        try contradiction.
      destruct Hin as [<- |[]]. now right. }
    split.
    + intros [<- |F]; [|contradiction].
      destruct Hstep as [[_ F]|F]; congruence.
    + destruct Hstep as [[H _]|H]; [now left | now right].
Qed.

Lemma period_sub_chars s :
  forall limit c, In c (PERIOD_STRIP_sub_from "" limit s) -> In c s.
Proof.
  induction s as [|a s IH]; intros limit c Hc; [contradiction|].
  cbn [PERIOD_STRIP_sub_from] in Hc.
  destruct (PERIOD_STRIP_match (a :: s)).
  - destruct limit as [[|k]|]; cbn [app str_of_string list_ascii_of_string] in Hc.
    + destruct Hc as [<- |Hc]; [now left | right; now apply (IH _ _ Hc)].
    + right. now apply (IH _ _ Hc).
    + right. now apply (IH _ _ Hc).
  - destruct Hc as [<- |Hc]; [now left | right; now apply (IH _ _ Hc)].
Qed.

Lemma process_punctuation_chars in_text c :
  In c (process_punctuation in_text) -> is_punct c = false.
Proof.
  unfold process_punctuation, PERIOD_STRIP_sub, PUNCTUATIONS. intro Hc.
  apply period_sub_chars in Hc.
  apply (punctuation_loop_chars
           (fun p => (PyStr.contains (p ++ " ") in_text
                      || PyStr.contains (" " ++ p) in_text)
                     || COMMA_STRIP_search in_text)) in Hc.
  - destruct Hc as [Hnot _].
    destruct (is_punct c) eqn:E; [|reflexivity].
    exfalso. now apply Hnot, is_punct_mark.
  - vm_compute. intuition discriminate.
Qed.

Lemma lower_char_clean :
  forall c, negb (PyStr.isupper (PyStr.lower_char c))
            && (negb (is_punct (PyStr.lower_char c)) || is_punct c) = true.
Proof. apply forall_ascii. vm_compute. reflexivity. Qed.

(** The words read from a text without marks are not empty and made of
    clean characters. *)
Lemma words_clean t w :
  (forall c, In c t -> is_punct c = false) ->
  In w (PyStr.split (PyStr.lower t)) ->
  w <> [] /\ forallb clean_char w = true.
Proof.
  intros Ht Hw. apply split_words in Hw. destruct Hw as [Hne Hc].
  split; [exact Hne|]. apply forallb_forall. intros c Hin.
  destruct (Hc c Hin) as [Hs Hl].
  unfold PyStr.lower in Hl. apply in_map_iff in Hl. destruct Hl as [c0 [<- Hc0]].
  pose proof (lower_char_clean c0) as H.
  apply andb_prop in H. destruct H as [H1 H2].
  rewrite (Ht c0 Hc0), orb_false_r in H2.
  unfold clean_char. now rewrite Hs, H1, H2.
Qed.

Lemma number_values_ok :
  forallb (fun kv : str * str =>
             is_article (snd kv) || word_ok (expand (snd kv))) NUMBER_MAP = true.
Proof. vm_compute. reflexivity. Qed.

Lemma contraction_values_ok :
  forallb (fun kv : str * str =>
             negb (forallb clean_char (fst kv)) || word_ok (snd kv)) CONTRACTIONS = true.
Proof. vm_compute. reflexivity. Qed.

(** What the token passes make of a clean word is a word they leave as it
    is. *)
Lemma word_ok_after w0 :
  w0 <> [] -> forallb clean_char w0 = true ->
  is_article (number_of w0) = false ->
  word_ok (expand (number_of w0)) = true.
Proof.
  intros Hne Hclean Hart.
  destruct (dict_get NUMBER_MAP w0) as [v|] eqn:En.
  - pose proof number_values_ok as H. rewrite forallb_forall in H.
    specialize (H _ (dict_get_in _ _ En)). cbn [snd] in H.
    unfold number_of in *. rewrite En in *. now rewrite Hart in H.
  - assert (Hn : number_of w0 = w0) by (unfold number_of; now rewrite En).
    rewrite Hn in *.
    destruct (dict_get CONTRACTIONS w0) as [v|] eqn:Ec.
    + pose proof contraction_values_ok as H. rewrite forallb_forall in H.
      specialize (H _ (dict_get_in _ _ Ec)). cbn [fst snd] in H.
      rewrite Hclean in H. unfold expand. now rewrite Ec.
    + assert (He : expand w0 = w0) by (unfold expand; now rewrite Ec).
      rewrite He. unfold word_ok. rewrite Hn, He, Hclean, Hart, !PyStr_eqb_refl.
      destruct w0; [contradiction | reflexivity].
Qed.

(** The words that the token passes return on a text without marks are
    words they leave as they are. *)
Lemma token_passes_shape t :
  (forall c, In c t -> is_punct c = false) ->
  forall w,
    In w (map expand
            (filter (fun w => negb (is_article w))
                    (map number_of (PyStr.split (PyStr.lower t))))) ->
    word_ok w = true.
Proof.
  intros Ht w Hw. apply in_map_iff in Hw. destruct Hw as [w1 [<- Hw1]].
  apply filter_In in Hw1. destruct Hw1 as [Hw1 Hart].
  apply in_map_iff in Hw1. destruct Hw1 as [w0 [<- Hw0]].
  apply words_clean in Hw0; [|exact Ht].
  destruct Hw0 as [Hne Hclean].
  apply word_ok_after; trivial. now apply negb_true_iff.
Qed.

Lemma word_ok_facts w :
  word_ok w = true ->
  w <> [] /\ forallb clean_char w = true /\ number_of w = w /\
  is_article w = false /\ expand w = w.
Proof.
  unfold word_ok. intro H.
  repeat (apply andb_prop in H; destruct H as [H ?]).
  repeat split.
  - intro E. subst w. discriminate.
  - assumption.
  - now apply PyStr_eqb_eq.
  - now apply negb_true_iff.
  - now apply PyStr_eqb_eq.
Qed.

Lemma filter_all (A : Type) (f : A -> bool) l :
  (forall a, In a l -> f a = true) -> filter f l = l.
Proof.
  induction l as [|a l IH]; intro H; [reflexivity|].
  cbn [filter]. rewrite (H a (or_introl eq_refl)). f_equal.
  apply IH. intros b Hb. apply H. now right.
Qed.

Lemma map_fixed (A : Type) (f : A -> A) l :
  (forall a, In a l -> f a = a) -> map f l = l.
Proof.
  intro H. rewrite <- (map_id l) at 2. now apply map_ext_in.
Qed.

Lemma periods_kept_sub repl s :
  periods_kept s = true ->
  forall limit, PERIOD_STRIP_sub_from repl limit s = s.
Proof.
  induction s as [|a s IH]; intros H limit; [reflexivity|].
  cbn [periods_kept] in H. apply andb_prop in H. destruct H as [H1 H2].
  cbn [PERIOD_STRIP_sub_from].
  assert (Hm : PERIOD_STRIP_match (a :: s) = false).
  { unfold PERIOD_STRIP_match. apply negb_true_iff in H1. rewrite H1.
    apply andb_false_r. }
  rewrite Hm. f_equal. now apply IH.
Qed.

Lemma punctuation_loop_absent (cond : str -> bool) marks s :
  (forall m, In m marks -> ~ In m s) ->
  fold_left
    (fun (out_text p : str) =>
       if cond p then PyStr.replace p "" out_text
       else PyStr.replace p " " out_text)
    (map (fun m : ascii => [m]) marks) s
  = s.
Proof.
  induction marks as [|m marks IH]; intro H; [reflexivity|].
  cbn [map fold_left].
  assert (Hm : PyStr.contains [m] s = false)
    by (apply contains_single, H; now left).
  rewrite (@replace_absent [m] "" s Hm), (@replace_absent [m] " " s Hm).
  destruct (cond [m]); apply IH; intros m' Hm'; apply H; now right.
Qed.

Lemma mark_not_clean :
  forallb (fun m => is_punct m && negb (Ascii.eqb m " ")) PUNCTUATION_MARKS = true.
Proof. vm_compute. reflexivity. Qed.

Lemma split_blank s : PyStr.split (" "%char :: s) = PyStr.split s.
Proof. reflexivity. Qed.

Lemma split_word_blank w rest :
  w <> [] -> (forall c, In c w -> PyStr.isspace c = false) ->
  PyStr.split (w ++ " "%char :: rest) = w :: PyStr.split rest.
Proof.
  intros Hne Hw. unfold PyStr.split.
  rewrite split_from_word by exact Hw. rewrite app_nil_r.
  cbn [PyStr.split_from]. replace (PyStr.isspace " ") with true by reflexivity.
  destruct (rev w) eqn:E.
  - exfalso. apply Hne. apply (f_equal (@rev ascii)) in E.
    now rewrite rev_involutive in E.
  - rewrite <- E, rev_involutive. reflexivity.
Qed.

(** Putting a blank before each ['s] that starts a word does not change the
    words. *)
Lemma split_replace_join ws :
  (forall w, In w ws -> w <> [] /\ forall c, In c w -> PyStr.isspace c = false) ->
  (forall w, In w ws -> PyStr.contains "'s" (tl w) = false) ->
  PyStr.split (PyStr.replace "'s" " 's" (PyStr.join " " ws)) = ws.
Proof.
  induction ws as [|w ws IH]; intros Hwords Hs; [reflexivity|].
  destruct (Hwords w (or_introl eq_refl)) as [Hne Hw].
  pose proof (Hs w (or_introl eq_refl)) as Hsw.
  destruct ws as [|w' ws].
  - cbn [PyStr.join]. rewrite <- (app_nil_r w) at 1.
    rewrite replace_apos_s_word by (trivial; reflexivity).
    change (PyStr.replace "'s" " 's" []) with (@nil ascii). rewrite app_nil_r.
    pose proof (split_join [w] Hwords) as H. cbn [PyStr.join] in H.
    destruct (PyStr.startswith "'s" w); [rewrite split_blank|]; exact H.
  - rewrite join_cons.
    change (str_of_string " " ++ PyStr.join " " (w' :: ws))
      with (" "%char :: PyStr.join " " (w' :: ws)).
    rewrite replace_apos_s_word by (trivial; reflexivity).
    change (PyStr.replace "'s" " 's" (" "%char :: PyStr.join " " (w' :: ws)))
      with (" "%char :: PyStr.replace "'s" " 's" (PyStr.join " " (w' :: ws))).
    assert (Hrest : PyStr.split (PyStr.replace "'s" " 's" (PyStr.join " " (w' :: ws)))
                    = w' :: ws).
    { apply IH; intros w0 Hw0; [apply Hwords | apply Hs]; now right. }
    destruct (PyStr.startswith "'s" w).
    + change ((" "%char :: w) ++ " "%char :: ?r) with (" "%char :: (w ++ " "%char :: r)).
      cbn [app]. rewrite split_blank, split_word_blank by assumption.
      now rewrite Hrest.
    + rewrite split_word_blank by assumption. now rewrite Hrest.
Qed.

Lemma replace_absent_char s p new :
  (forall c, In c s -> c = " "%char \/ clean_char c = true) ->
  clean_char p = false -> p <> " "%char ->
  PyStr.replace [p] new s = s.
Proof.
  intros Hs Hp1 Hp2. apply replace_absent, contains_single.
  intro Hin. destruct (Hs p Hin); congruence.
Qed.

Lemma lower_clean s :
  (forall c, In c s -> c = " "%char \/ clean_char c = true) ->
  PyStr.lower s = s.
Proof.
  intro Hs. apply map_fixed. intros c Hc. unfold PyStr.lower_char.
  destruct (Hs c Hc) as [-> | Hcl]; [reflexivity|].
  unfold clean_char in Hcl.
  apply andb_prop in Hcl. destruct Hcl as [Hcl _].
  apply andb_prop in Hcl. destruct Hcl as [_ Hcl].
  apply negb_true_iff in Hcl. now rewrite Hcl.
Qed.

(** The last two steps of the normalizer on a text made of blanks and of
    words that they leave as they are. *)
Lemma passes_on_words ws s :
  (forall w, In w ws -> word_ok w = true) ->
  (forall w, In w ws -> periods_kept w = true) ->
  PyStr.split s = ws ->
  (forall c, In c s -> c = " "%char \/ clean_char c = true) ->
  fst (process_digit_article_st NUMBER_MAP (process_punctuation s))
  = PyStr.join " " ws.
Proof.
  intros Hok Hper Hsplit Hchars.
  assert (Hpunct : process_punctuation s = s).
  { unfold process_punctuation, PERIOD_STRIP_sub, PUNCTUATIONS.
    rewrite (punctuation_loop_absent
               (fun p => (PyStr.contains (p ++ " ") s
                          || PyStr.contains (" " ++ p) s)
                         || COMMA_STRIP_search s)).
    - apply periods_kept_sub.
      apply (periods_kept_of_words s []).
      fold (PyStr.split s). rewrite Hsplit. exact Hper.
    - intros m Hm Hin. pose proof mark_not_clean as H.
      rewrite forallb_forall in H. specialize (H m Hm).
      apply andb_prop in H. destruct H as [H1 H2].
      destruct (Hchars m Hin) as [-> | Hcl]; [discriminate H2|].
      unfold clean_char in Hcl. rewrite H1, andb_false_r in Hcl.
      discriminate Hcl. }
  rewrite Hpunct.
  destruct (process_digit_article_st_spec s extends_number_map_init) as [-> _].
  rewrite (lower_clean s Hchars), Hsplit.
  rewrite (map_fixed number_of)
    by (intros w Hw; now destruct (word_ok_facts _ (Hok w Hw)) as (_ & _ & H & _)).
  rewrite filter_all
    by (intros w Hw; destruct (word_ok_facts _ (Hok w Hw)) as (_ & _ & _ & H & _);
        now rewrite H).
  rewrite (map_fixed expand)
    by (intros w Hw; now destruct (word_ok_facts _ (Hok w Hw)) as (_ & _ & _ & _ & H)).
  reflexivity.
Qed.

(** A text made of words that the token passes leave as they are and that a
    second normalization leaves whole, joined by single blanks, is
    normalized to itself. *)
Lemma normalize_fixed ws :
  (forall w, In w ws -> word_ok w = true) ->
  (forall w, In w ws -> word_stable w = true) ->
  __call__ (PyStr.join " " ws) = PyStr.join " " ws.
Proof.
  intros Hok Hst.
  set (y := PyStr.join " " ws).
  assert (Hchars : forall c, In c y -> c = " "%char \/ clean_char c = true).
  { intros c Hc. apply in_join in Hc. destruct Hc as [[<- | []] | [w [Hw Hc]]].
    - now left.
    - right. destruct (word_ok_facts _ (Hok w Hw)) as (_ & Hcl & _).
      rewrite forallb_forall in Hcl. now apply Hcl. }
  assert (Hwords : forall w, In w ws ->
            w <> [] /\ forall c, In c w -> PyStr.isspace c = false).
  { intros w Hw. destruct (word_ok_facts _ (Hok w Hw)) as (Hne & Hcl & _).
    split; [exact Hne|]. intros c Hc. rewrite forallb_forall in Hcl.
    specialize (Hcl c Hc). unfold clean_char in Hcl.
    apply andb_prop in Hcl. destruct Hcl as [Hcl _].
    apply andb_prop in Hcl. destruct Hcl as [Hcl _].
    now apply negb_true_iff. }
  assert (Hs : forall w, In w ws -> PyStr.contains "'s" (tl w) = false).
  { intros w Hw. specialize (Hst w Hw). unfold word_stable in Hst.
    apply andb_prop in Hst. destruct Hst as [H _]. now apply negb_true_iff. }
  assert (Hper : forall w, In w ws -> periods_kept w = true).
  { intros w Hw. specialize (Hst w Hw). unfold word_stable in Hst.
    now apply andb_prop in Hst. }
  set (t := PyStr.strip (PyStr.replace "'s" " 's" y)).
  assert (Htok : word_tokenize y = t).
  { unfold word_tokenize. rewrite (lower_clean y Hchars).
    change (str_of_string ",") with [","%char].
    change (str_of_string "?") with ["?"%char].
    rewrite (replace_absent_char y "" Hchars (p := ","%char))
      by (reflexivity || discriminate).
    rewrite (replace_absent_char y "" Hchars (p := "?"%char))
      by (reflexivity || discriminate).
    reflexivity. }
  assert (Htchars : forall c, In c t -> c = " "%char \/ clean_char c = true).
  { intros c Hc. apply in_strip in Hc. apply in_replace_from in Hc.
    destruct Hc as [Hc | Hc]; [now apply Hchars|].
    destruct Hc as [<- | [<- | [<- | []]]]; [now left | now right | now right]. }
  assert (Htsplit : PyStr.split t = ws).
  { unfold t. rewrite split_strip. now apply split_replace_join. }
  unfold __call__, call_st. rewrite Htok.
  rewrite (replace_absent_char t " " Htchars (p := newline))
    by (reflexivity || discriminate).
  rewrite (replace_absent_char t " " Htchars (p := tab))
    by (reflexivity || discriminate).
  apply passes_on_words; trivial.
  - now rewrite split_strip.
  - intros c Hc. apply in_strip in Hc. now apply Htchars.
Qed.

(** Words that hold no whitespace are the words of their join. *)
Lemma split_join_ok ws :
  (forall w, In w ws -> word_ok w = true) ->
  PyStr.split (PyStr.join " " ws) = ws.
Proof.
  intro Hok. apply split_join. intros w Hw.
  destruct (word_ok_facts _ (Hok w Hw)) as (Hne & Hcl & _).
  split; [exact Hne|]. intros c Hc. rewrite forallb_forall in Hcl.
  specialize (Hcl c Hc). unfold clean_char in Hcl.
  apply andb_prop in Hcl. destruct Hcl as [Hcl _].
  apply andb_prop in Hcl. destruct Hcl as [Hcl _].
  now apply negb_true_iff.
Qed.

(** What the token passes return on a text without marks: words that they
    leave as they are, joined by single blanks. *)
Lemma token_passes_join t :
  (forall c, In c t -> is_punct c = false) ->
  exists ws,
    fst (process_digit_article_st NUMBER_MAP t) = PyStr.join " " ws /\
    PyStr.split (fst (process_digit_article_st NUMBER_MAP t)) = ws /\
    forall w, In w ws -> word_ok w = true.
Proof.
  intro Ht.
  destruct (process_digit_article_st_spec t extends_number_map_init) as [-> _].
  pose proof (token_passes_shape t Ht) as Hok.
  eexists. split; [reflexivity|]. split; [|exact Hok].
  now apply split_join_ok.
Qed.

(** The shape of every normalized answer. *)
Lemma call_shape x :
  exists ws,
    __call__ x = PyStr.join " " ws /\
    PyStr.split (__call__ x) = ws /\
    forall w, In w ws -> word_ok w = true.
Proof.
  unfold __call__, call_st.
  exact (token_passes_join
           (process_punctuation
              (PyStr.strip
                 (PyStr.replace [tab] " "
                    (PyStr.replace [newline] " " (word_tokenize x)))))
           (fun c => @process_punctuation_chars _ c)).
Qed.

End Normalizer.

(** C2, as stated, fails: the contraction "hes" is expanded to "he's", and
    normalizing "he's" again separates the ['s]. *)
Lemma C2_normalize_idempotent_counterexample :
  EvalAIAnswerProcessor.__call__ (EvalAIAnswerProcessor.__call__ "hes")
  <> EvalAIAnswerProcessor.__call__ "hes".
Proof. vm_compute. discriminate. Qed.

(** C2, amended: normalizing twice gives the same string as normalizing
    once for every string such that no word of its normalized form holds
    the two characters ['s] after its first character or a period that is
    not followed by a digit. *)
Theorem C2_normalize_idempotent_amended :
  forall x : str,
    forallb word_stable (PyStr.split (EvalAIAnswerProcessor.__call__ x)) = true ->
    EvalAIAnswerProcessor.__call__ (EvalAIAnswerProcessor.__call__ x)
    = EvalAIAnswerProcessor.__call__ x.
Proof.
  intros x Hst.
  destruct (call_shape x) as [ws [E [Hsplit Hok]]].
  rewrite Hsplit in Hst. rewrite E.
  apply normalize_fixed; [exact Hok|].
  now apply forallb_forall.
Qed.

Lemma C2_normalize_idempotent_witness :
  forallb word_stable
    (PyStr.split (EvalAIAnswerProcessor.__call__ "It's 1.5 miles, the Two dogs."))
  = true /\
  EvalAIAnswerProcessor.__call__
    (EvalAIAnswerProcessor.__call__ "It's 1.5 miles, the Two dogs.")
  = EvalAIAnswerProcessor.__call__ "It's 1.5 miles, the Two dogs.".
Proof.
  assert (Hst : forallb word_stable
                  (PyStr.split
                     (EvalAIAnswerProcessor.__call__ "It's 1.5 miles, the Two dogs."))
                = true)
    by (vm_compute; reflexivity).
  split; [exact Hst|].
  exact (C2_normalize_idempotent_amended "It's 1.5 miles, the Two dogs." Hst).
Defined.

(** * Further properties of the code *)

(** ** [levenshtein_distance] is a metric *)

Section LevenshteinMetric.

Lemma lev_refl s : lev s s = 0.
Proof.
  induction s as [|a s IH]; [reflexivity|].
  now rewrite lev_cons, Ascii.eqb_refl.
Qed.

Lemma lev_zero s : forall t, lev s t = 0 -> s = t.
Proof.
  induction s as [|a s IH]; intros [|b t] H.
  - reflexivity.
  - discriminate H.
  - discriminate H.
  - rewrite lev_cons in H. destruct (Ascii.eqb_spec a b) as [E|E].
    + subst b. f_equal. now apply IH.
    + discriminate H.
Qed.

(** An edit script changes the length by its cost at most. *)
Lemma edit_length s t n :
  edit s t n -> length s <= length t + n /\ length t <= length s + n.
Proof. induction 1; simpl; lia. Qed.

Lemma lev_le_max s : forall t, lev s t <= Nat.max (length s) (length t).
Proof.
  induction s as [|a s IH]; intro t.
  - simpl. lia.
  - induction t as [|b t IHt].
    + rewrite lev_nil_r. lia.
    + rewrite lev_cons. specialize (IH t).
      destruct (Ascii.eqb a b); unfold min3; simpl length; lia.
Qed.

(** Edit scripts compose: the costs add up at most. *)
Lemma edit_trans N :
  forall s t u n m,
    length s + length t + length u <= N ->
    edit s t n -> edit t u m ->
    exists k, k <= n + m /\ edit s u k.
Proof.
  induction N as [|N IH]; intros s t u n m HN H1 H2.
  - destruct s, t, u; simpl in HN; try lia.
    inversion H1; inversion H2; subst. exists 0. split; [lia | constructor].
  - inversion H1 as [|a s' t' n' H1'|a b s' t' n' H1'|a s' t' n' H1'|b s' t' n' H1'];
      subst.
    + exists m. split; [lia | exact H2].
    + inversion H2 as [|a2 t2 u' m' H2'|a2 b2 t2 u' m' H2'|a2 t2 u' m' H2'|b2 t2 u' m' H2'];
        subst.
      * destruct (IH s' t' u' n m) as [k [Hk Hed]]; trivial; [simpl in HN; lia|].
        exists k. split; [lia | now apply edit_keep].
      * destruct (IH s' t' u' n m') as [k [Hk Hed]]; trivial; [simpl in HN; lia|].
        exists (S k). split; [lia | now apply edit_subst].
      * destruct (IH s' t' u n m') as [k [Hk Hed]]; trivial; [simpl in HN; lia|].
        exists (S k). split; [lia | now apply edit_delete].
      * destruct (IH (a :: s') (a :: t') u' n m') as [k [Hk Hed]]; trivial;
          [simpl in HN |- *; lia|].
        exists (S k). split; [lia | now apply edit_insert].
    + inversion H2 as [|a2 t2 u' m' H2'|a2 b2 t2 u' m' H2'|a2 t2 u' m' H2'|b2 t2 u' m' H2'];
        subst.
      * destruct (IH s' t' u' n' m) as [k [Hk Hed]]; trivial; [simpl in HN; lia|].
        exists (S k). split; [lia | now apply edit_subst].
      * destruct (IH s' t' u' n' m') as [k [Hk Hed]]; trivial; [simpl in HN; lia|].
        exists (S k). split; [lia | now apply edit_subst].
      * destruct (IH s' t' u n' m') as [k [Hk Hed]]; trivial; [simpl in HN; lia|].
        exists (S k). split; [lia | now apply edit_delete].
      * destruct (IH (a :: s') (b :: t') u' (S n') m') as [k [Hk Hed]]; trivial;
          [simpl in HN |- *; lia|].
        exists (S k). split; [lia | now apply edit_insert].
    + destruct (IH s' t u n' m) as [k [Hk Hed]]; trivial; [simpl in HN; lia|].
      exists (S k). split; [lia | now apply edit_delete].
    + inversion H2 as [|a2 t2 u' m' H2'|a2 b2 t2 u' m' H2'|a2 t2 u' m' H2'|b2 t2 u' m' H2'];
        subst.
      * destruct (IH s t' u' n' m) as [k [Hk Hed]]; trivial; [simpl in HN; lia|].
        exists (S k). split; [lia | now apply edit_insert].
      * destruct (IH s t' u' n' m') as [k [Hk Hed]]; trivial; [simpl in HN; lia|].
        exists (S k). split; [lia | now apply edit_insert].
      * destruct (IH s t' u n' m') as [k [Hk Hed]]; trivial; [simpl in HN; lia|].
        exists k. split; [lia | exact Hed].
      * destruct (IH s (b :: t') u' (S n') m') as [k [Hk Hed]]; trivial;
          [simpl in HN |- *; lia|].
        exists (S k). split; [lia | now apply edit_insert].
Qed.

Lemma lev_triangle s t u : lev s u <= lev s t + lev t u.
Proof.
  destruct (@edit_trans _ s t u _ _ (le_n _) (edit_lev s t) (edit_lev t u))
    as [k [Hk Hed]].
  apply lev_le_edit in Hed. lia.
Qed.

End LevenshteinMetric.

(** X1: the distance does not depend on the order of the two strings. *)
Theorem X1_levenshtein_symmetric :
  forall s1 s2 : str, levenshtein_distance s1 s2 = levenshtein_distance s2 s1.
Proof. intros. rewrite !levenshtein_distance_lev. apply lev_sym. Qed.

(** X2: the distance is 0 exactly between equal strings. *)
Theorem X2_levenshtein_zero_iff_equal :
  forall s1 s2 : str, levenshtein_distance s1 s2 = 0 <-> s1 = s2.
Proof.
  intros. rewrite levenshtein_distance_lev. split.
  - apply lev_zero.
  - intros ->. apply lev_refl.
Qed.

(** X3: the triangle inequality. *)
Theorem X3_levenshtein_triangle :
  forall s1 s2 s3 : str,
    levenshtein_distance s1 s3
    <= levenshtein_distance s1 s2 + levenshtein_distance s2 s3.
Proof. intros. rewrite !levenshtein_distance_lev. apply lev_triangle. Qed.

(** X4: the distance is at least the difference of the lengths and at most
    the larger length. *)
Theorem X4_levenshtein_bounds :
  forall s1 s2 : str,
    length s1 - length s2 <= levenshtein_distance s1 s2 /\
    length s2 - length s1 <= levenshtein_distance s1 s2 /\
    levenshtein_distance s1 s2 <= Nat.max (length s1) (length s2).
Proof.
  intros. rewrite levenshtein_distance_lev.
  pose proof (edit_length (edit_lev s1 s2)) as [H1 H2].
  pose proof (lev_le_max s1 s2). lia.
Qed.

(** ** The soft accuracy as a function of the number of agreeing answers *)

Section AgreementPatterns.

Import TextVQAAccuracyEvaluator.

Lemma float_same_eq a b : float_same a b = true -> a = b.
Proof.
  destruct a as [s|s| |s m e], b as [s'|s'| |s' m' e']; try discriminate;
    cbn [float_same]; intro H.
  - apply Bool.eqb_prop in H. now subst.
  - apply Bool.eqb_prop in H. now subst.
  - reflexivity.
  - apply andb_prop in H. destruct H as [H He].
    apply andb_prop in H. destruct H as [Hs Hm].
    apply Bool.eqb_prop in Hs. apply Pos.eqb_eq in Hm. apply Z.eqb_eq in He.
    now subst.
Qed.

Lemma float_same_refl a : float_same a a = true.
Proof.
  destruct a as [s|s| |s m e]; cbn [float_same];
    rewrite ?Bool.eqb_reflx, ?Pos.eqb_refl, ?Z.eqb_refl; reflexivity.
Qed.

Lemma all_patterns_complete n :
  forall bs, length bs = n -> In bs (all_patterns n).
Proof.
  induction n as [|n IH]; intros bs Hlen.
  - destruct bs; [now left | discriminate].
  - destruct bs as [|b bs]; [discriminate|].
    cbn [all_patterns]. apply in_or_app.
    destruct b; [left | right]; apply in_map, IH; simpl in Hlen; lia.
Qed.

Lemma pattern_scores_ok :
  forallb (fun bs => agreement_check (count_true bs) (pattern_score bs))
          (all_patterns 10) = true.
Proof. vm_compute. reflexivity. Qed.

Lemma agreement_check_spec k s :
  agreement_check k s = true ->
  Float64.leb Float64.zero s = true /\
  Float64.leb s Float64.one = true /\
  (k =? 0) = float_same s Float64.zero /\
  (4 <=? k) = float_same s Float64.one /\
  (4 <=? k) = Float64.ltb lit_0_9 s.
Proof.
  unfold agreement_check. intro H.
  apply andb_prop in H. destruct H as [H H5].
  apply andb_prop in H. destruct H as [H H4].
  apply andb_prop in H. destruct H as [H H3].
  apply andb_prop in H. destruct H as [H1 H2].
  apply Bool.eqb_prop in H3. apply Bool.eqb_prop in H4. apply Bool.eqb_prop in H5.
  exact (conj H1 (conj H2 (conj H3 (conj H4 H5)))).
Qed.

Lemma pattern_ok bs :
  length bs = 10 ->
  Float64.leb Float64.zero (pattern_score bs) = true /\
  Float64.leb (pattern_score bs) Float64.one = true /\
  (count_true bs =? 0) = float_same (pattern_score bs) Float64.zero /\
  (4 <=? count_true bs) = float_same (pattern_score bs) Float64.one /\
  (4 <=? count_true bs) = Float64.ltb lit_0_9 (pattern_score bs).
Proof.
  intro Hlen. pose proof pattern_scores_ok as H. rewrite forallb_forall in H.
  exact (agreement_check_spec _ _ (H bs (all_patterns_complete bs Hlen))).
Qed.

Lemma others_map (A B : Type) (f : A -> B) i l :
  others i (map f l) = map f (others i l).
Proof. unfold others. now rewrite map_app, firstn_map, skipn_map. Qed.

Lemma count_occ_pattern p l :
  count_occ (list_eq_dec ascii_dec) l p = count_true (map (PyStr.eqb p) l).
Proof.
  unfold count_true. induction l as [|a l IH]; [reflexivity|].
  cbn [count_occ map filter]. rewrite (PyStr_eqb_sym p a). unfold PyStr.eqb at 1.
  destruct (list_eq_dec ascii_dec a p); simpl; now rewrite IH.
Qed.

Lemma existsb_pattern p l :
  existsb (PyStr.eqb p) l = negb (count_true (map (PyStr.eqb p) l) =? 0).
Proof.
  unfold count_true. induction l as [|a l IH]; [reflexivity|].
  cbn [existsb map filter]. destruct (PyStr.eqb p a); [reflexivity | exact IH].
Qed.

(** The score depends on the answers through their agreement with the
    prediction only. *)
Lemma leave_one_out_pattern p answers :
  length answers = 10 ->
  leave_one_out p answers = pattern_score (map (PyStr.eqb p) answers).
Proof.
  intro Hlen. unfold leave_one_out.
  rewrite existsb_pattern.
  destruct (count_true (map (PyStr.eqb p) answers) =? 0) eqn:E; cbn [negb].
  - destruct (pattern_ok (map (PyStr.eqb p) answers)
                (eq_trans (length_map _ _) Hlen)) as (_ & _ & Hz & _).
    rewrite E in Hz. symmetry in Hz. apply float_same_eq in Hz.
    now rewrite Hz.
  - unfold pattern_score. do 2 f_equal. apply map_ext. intro i.
    now rewrite others_map, count_occ_pattern.
Qed.

End AgreementPatterns.

(** X5: with ten ground truths, the score of an entry lies between 0 and 1;
    it is 0 exactly when no normalized ground truth is the normalized
    prediction, 1.0 exactly when four or more are, and it is above 0.9 in
    that case only (sums rounded from left to right). *)
Theorem X5_soft_accuracy_by_agreement :
  forall (prediction : str) (gts : list str),
    length gts = 10 ->
    let k := count_occ (list_eq_dec ascii_dec)
               (map EvalAIAnswerProcessor.__call__ gts)
               (EvalAIAnswerProcessor.__call__ prediction) in
    exists score,
      TextVQAAccuracyEvaluator.entry_score
        {| TextVQAAccuracyEvaluator.pred_answer := prediction;
           TextVQAAccuracyEvaluator.gt_answers := gts |} = Ok score /\
      Float64.leb Float64.zero score = true /\
      Float64.leb score Float64.one = true /\
      (k = 0 <-> score = Float64.zero) /\
      (4 <= k <-> score = Float64.one) /\
      (4 <= k <-> Float64.ltb lit_0_9 score = true).
Proof.
  intros prediction gts Hlen k.
  eexists. split; [now apply entry_score_spec|].
  assert (Hl : length (map EvalAIAnswerProcessor.__call__ gts) = 10)
    by (now rewrite length_map).
  rewrite (leave_one_out_pattern _ _ Hl).
  unfold k. rewrite count_occ_pattern.
  set (bs := map (PyStr.eqb (EvalAIAnswerProcessor.__call__ prediction))
                 (map EvalAIAnswerProcessor.__call__ gts)).
  destruct (pattern_ok bs (eq_trans (length_map _ _) Hl))
    as (H1 & H2 & H3 & H4 & H5).
  split; [exact H1|]. split; [exact H2|].
  split; [|split]; split.
  - intro Hk. apply float_same_eq. rewrite <- H3. now apply Nat.eqb_eq.
  - intro Hs. apply Nat.eqb_eq. rewrite H3, Hs. apply float_same_refl.
  - intro Hk. apply float_same_eq. rewrite <- H4. now apply Nat.leb_le.
  - intro Hs. apply Nat.leb_le. rewrite H4, Hs. apply float_same_refl.
  - intro Hk. rewrite <- H5. now apply Nat.leb_le.
  - intro Hs. apply Nat.leb_le. now rewrite H5.
Qed.

Lemma X5_soft_accuracy_witness :
  length (repeat ("cat" : str) 7 ++ repeat ("dog" : str) 3) = 10 /\
  exists score,
    TextVQAAccuracyEvaluator.entry_score
      {| TextVQAAccuracyEvaluator.pred_answer := "dog";
         TextVQAAccuracyEvaluator.gt_answers :=
           repeat ("cat" : str) 7 ++ repeat ("dog" : str) 3 |} = Ok score /\
    Float64.leb Float64.zero score = true /\
    Float64.leb score Float64.one = true.
Proof.
  split; [reflexivity|].
  destruct (X5_soft_accuracy_by_agreement "dog"
              (repeat ("cat" : str) 7 ++ repeat ("dog" : str) 3) eq_refl)
    as [score [H1 [H2 [H3 _]]]].
  exists score. split; [exact H1|]. split; [exact H2 | exact H3].
Defined.

(** ** The errors of [eval_pred_list] *)

Section EvalErrors.

Import TextVQAAccuracyEvaluator.

Lemma entry_score_assertion e :
  length (gt_answers e) <> 10 -> entry_score e = Raise AssertionError.
Proof.
  intro H. unfold entry_score, _compute_answer_scores, answer_processor.
  rewrite length_map.
  destruct (Nat.eqb_spec (length (gt_answers e)) 10); [contradiction | reflexivity].
Qed.

Lemma mapM_entry_score_assertion entries :
  (exists e, In e entries /\ length (gt_answers e) <> 10) ->
  mapM entry_score entries = Raise AssertionError.
Proof.
  induction entries as [|e0 entries IH]; intros [e [Hin Hbad]]; [contradiction|].
  cbn [mapM].
  destruct (Nat.eq_dec (length (gt_answers e0)) 10) as [E|E].
  - destruct e0 as [p gts]. cbn [gt_answers] in E.
    rewrite (entry_score_spec p gts E). cbn [bind].
    destruct Hin as [<- | Hin]; [cbn [gt_answers] in Hbad; contradiction|].
    rewrite IH by (exists e; now split). reflexivity.
  - now rewrite entry_score_assertion.
Qed.

Lemma all_ten_or_not (entries : list entry) :
  (forall e, In e entries -> length (gt_answers e) = 10) \/
  (exists e, In e entries /\ length (gt_answers e) <> 10).
Proof.
  induction entries as [|e0 entries [IH|[e [Hin Hbad]]]].
  - left. intros e [].
  - destruct (Nat.eq_dec (length (gt_answers e0)) 10) as [E|E].
    + left. intros e [<- | He]; [exact E | now apply IH].
    + right. exists e0. split; [now left | exact E].
  - right. exists e. split; [now right | exact Hbad].
Qed.

End EvalErrors.

(** X6: [eval_pred_list] raises [AssertionError] exactly when an entry has
    not ten ground truths, and [ZeroDivisionError] exactly on the empty
    batch; it raises nothing else. *)
Theorem X6_eval_pred_list_errors :
  forall entries : list TextVQAAccuracyEvaluator.entry,
    (TextVQAAccuracyEvaluator.eval_pred_list entries = Raise AssertionError <->
     exists e, In e entries /\
               length (TextVQAAccuracyEvaluator.gt_answers e) <> 10) /\
    (TextVQAAccuracyEvaluator.eval_pred_list entries = Raise ZeroDivisionError <->
     entries = []) /\
    (forall x, TextVQAAccuracyEvaluator.eval_pred_list entries = Raise x ->
               x = AssertionError \/ x = ZeroDivisionError).
Proof.
  intro entries.
  assert (Hbad : (exists e, In e entries /\
                    length (TextVQAAccuracyEvaluator.gt_answers e) <> 10) ->
                 TextVQAAccuracyEvaluator.eval_pred_list entries = Raise AssertionError).
  { intro H. unfold TextVQAAccuracyEvaluator.eval_pred_list.
    now rewrite mapM_entry_score_assertion. }
  destruct (all_ten_or_not entries) as [Hall | Hex].
  - destruct entries as [|e0 entries].
    + change (TextVQAAccuracyEvaluator.eval_pred_list [])
        with (@Raise Float64.float ZeroDivisionError).
      split; [split; [discriminate | intros [e [[] _]]]|].
      split; [split; reflexivity|].
      intros x H. right. now inversion H.
    + rewrite (eval_pred_list_spec (entries := e0 :: entries)) by (trivial; discriminate).
      split; [split; [discriminate | intros [e [Hin Hne]]; elim Hne; now apply Hall]|].
      split; [split; discriminate|].
      intros x H. discriminate H.
  - rewrite (Hbad Hex).
    split; [split; [intros _; exact Hex | reflexivity]|].
    split; [split; [discriminate | intros ->; destruct Hex as [e [[] _]]]|].
    intros x H. left. now inversion H.
Qed.

(** ** [check_answer]: results and cache *)

Section CheckAnswerMore.

Lemma mode_subset_refl M : mode_subset M M = true.
Proof.
  unfold mode_subset. apply forallb_forall. intros m Hm.
  unfold in_mode. apply existsb_exists. exists m. split; [exact Hm|].
  apply PyStr_eqb_refl.
Qed.

Lemma accumulate_defined answer_pred answer_gt M :
  PyStr.eqb (PyStr.lower answer_pred) (PyStr.lower answer_gt) = false ->
  exists a, accumulate answer_pred answer_gt M = Ok a.
Proof.
  intro Hne.
  destruct (@accumulate_mono answer_pred answer_gt M M Hne (mode_subset_refl M))
    as (r & _ & H & _).
  now exists r.
Qed.

Lemma key_eqb_eq a b : key_eqb a b = true <-> a = b.
Proof.
  unfold key_eqb. destruct a as [a1 a2], b as [b1 b2]. cbn [fst snd].
  rewrite andb_true_iff, !PyStr_eqb_eq. split.
  - intros [-> ->]. reflexivity.
  - intro H. inversion H. now split.
Qed.

Lemma cache_get_set_same c k v : cache_get (cache_set c k v) k = Some v.
Proof.
  assert (Hk : key_eqb k k = true) by (now apply key_eqb_eq).
  induction c as [|[k' v'] c IH]; cbn [cache_set cache_get].
  - now rewrite Hk.
  - destruct (key_eqb k' k) eqn:E; cbn [cache_get].
    + now rewrite Hk.
    + now rewrite E.
Qed.

Lemma cache_get_set_other c k v k0 :
  k0 <> k -> cache_get (cache_set c k v) k0 = cache_get c k0.
Proof.
  intro Hne.
  assert (Hk : key_eqb k k0 = false).
  { destruct (key_eqb k k0) eqn:E; [|reflexivity].
    apply key_eqb_eq in E. congruence. }
  induction c as [|[k' v'] c IH]; cbn [cache_set cache_get].
  - now rewrite Hk.
  - destruct (key_eqb k' k) eqn:E; cbn [cache_get].
    + apply key_eqb_eq in E. subst k'. now rewrite Hk.
    + now rewrite IH.
Qed.

End CheckAnswerMore.

(** X7: [check_answer] returns 0 or 1 for every prediction, target, mode
    list and cache: no block raises, the division of the [anls] block
    included. *)
Theorem X7_check_answer_returns_decision :
  forall (c : cache) (prediction target : str) (mode : list str),
    exists d, fst (check_answer c prediction target mode) = Ok d /\ d <= 1.
Proof.
  intros c prediction target mode. unfold check_answer.
  destruct (PyStr.eqb (PyStr.lower prediction) (PyStr.lower target)) eqn:E.
  - exists 1. split; [reflexivity | lia].
  - destruct (accumulate_defined prediction target mode E) as [a ->].
    cbn [fst]. destruct (Float64.ltb lit_0_9 a); eexists; split; try reflexivity; lia.
Qed.

(** X8: when the answers are equal up to case, [check_answer] returns 1 and
    leaves the cache as it is; otherwise the cache afterwards holds the
    decision returned under the pair (prediction, target), and what it holds
    under every other pair is unchanged. *)
Theorem X8_check_answer_cache :
  forall (c : cache) (prediction target : str) (mode : list str),
    (PyStr.eqb (PyStr.lower prediction) (PyStr.lower target) = true ->
     check_answer c prediction target mode = (Ok 1, c)) /\
    (PyStr.eqb (PyStr.lower prediction) (PyStr.lower target) = false ->
     exists d,
       fst (check_answer c prediction target mode) = Ok d /\
       cache_get (snd (check_answer c prediction target mode)) (prediction, target)
       = Some d /\
       forall k, k <> (prediction, target) ->
         cache_get (snd (check_answer c prediction target mode)) k = cache_get c k).
Proof.
  intros c prediction target mode. unfold check_answer.
  split; intro E; rewrite E; [reflexivity|].
  destruct (accumulate_defined prediction target mode E) as [a ->].
  cbn [fst snd]. eexists. split; [reflexivity|]. split.
  - apply cache_get_set_same.
  - intros k Hk. now apply cache_get_set_other.
Qed.

Lemma X8_check_answer_cache_witness :
  PyStr.eqb (PyStr.lower "kitten") (PyStr.lower "sitting") = false /\
  exists d,
    fst (check_answer [] "kitten" "sitting" ["anls" : str]) = Ok d /\
    cache_get (snd (check_answer [] "kitten" "sitting" ["anls" : str]))
              ("kitten" : str, "sitting" : str) = Some d.
Proof.
  split; [reflexivity|].
  destruct (proj2 (X8_check_answer_cache [] "kitten" "sitting" ["anls" : str]) eq_refl)
    as [d [H1 [H2 _]]].
  exists d. split; [exact H1 | exact H2].
Defined.

Section VqaMode.

Import TextVQAAccuracyEvaluator.

Lemma pattern_score_all b :
  pattern_score (repeat b 10) = if b then Float64.one else Float64.zero.
Proof. destruct b; vm_compute; reflexivity. Qed.

(** The score against ten copies of one target. *)
Lemma eval_pred_list_copies answer_pred answer_gt :
  eval_pred_list
    [ {| pred_answer := answer_pred; gt_answers := repeat answer_gt 10 |} ]
  = Ok (if PyStr.eqb (EvalAIAnswerProcessor.__call__ answer_pred)
                     (EvalAIAnswerProcessor.__call__ answer_gt)
        then Float64.one else Float64.zero).
Proof.
  rewrite eval_pred_list_spec.
  - cbn [map length]. unfold entry_leave_one_out. cbn [pred_answer gt_answers].
    rewrite leave_one_out_pattern by (now rewrite length_map, repeat_length).
    rewrite !map_repeat, pattern_score_all.
    destruct (PyStr.eqb _ _); vm_compute; reflexivity.
  - discriminate.
  - intros e [<- | []]. apply repeat_length.
Qed.

Lemma when_mode_on name mode block a :
  in_mode name mode = true -> when_mode name mode block a = block a.
Proof. intro H. unfold when_mode. now rewrite H. Qed.

Lemma when_mode_off name mode block a :
  in_mode name mode = false -> when_mode name mode block a = Ok a.
Proof. intro H. unfold when_mode. now rewrite H. Qed.

End VqaMode.

(** X9: with the mode [vqa_score] alone, [check_answer] returns 1 exactly
    when the answers are equal up to case, or have the same normalized form
    and this form is not empty. *)
Theorem X9_check_answer_vqa_mode :
  forall (c : cache) (prediction target : str),
    fst (check_answer c prediction target ["vqa_score" : str])
    = Ok (if PyStr.eqb (PyStr.lower prediction) (PyStr.lower target)
             || (PyStr.eqb (EvalAIAnswerProcessor.__call__ prediction)
                           (EvalAIAnswerProcessor.__call__ target)
                 && negb (length (EvalAIAnswerProcessor.__call__ prediction) =? 0))
          then 1 else 0).
Proof.
  intros c prediction target. unfold check_answer.
  destruct (PyStr.eqb (PyStr.lower prediction) (PyStr.lower target)); [reflexivity|].
  cbn [orb]. unfold accumulate.
  rewrite when_mode_on by reflexivity.
  unfold vqa_block. rewrite eval_pred_list_copies. cbn [bind].
  rewrite !when_mode_off by reflexivity. cbn [bind].
  destruct (PyStr.eqb (EvalAIAnswerProcessor.__call__ prediction)
                      (EvalAIAnswerProcessor.__call__ target)) eqn:E.
  - apply PyStr_eqb_eq in E. rewrite <- E.
    destruct (length (EvalAIAnswerProcessor.__call__ prediction) =? 0);
      vm_compute; reflexivity.
  - destruct (length (EvalAIAnswerProcessor.__call__ prediction) =? 0),
             (length (EvalAIAnswerProcessor.__call__ target) =? 0);
      vm_compute; reflexivity.
Qed.

(** ** The normalizer: state, shape of the result, dead branch, count *)

Section NormalizerMore.

Import EvalAIAnswerProcessor.

Lemma call_each_number_map items :
  forall nm, extends_number_map nm ->
    fst (call_each nm items) = map __call__ items /\
    extends_number_map (snd (call_each nm items)).
Proof.
  induction items as [|item rest IH]; intros nm Hnm.
  - now split.
  - cbn [call_each map].
    destruct (call_st_number_map item Hnm) as [H1 H2].
    destruct (call_st nm item) as [answer nm1]. cbn [fst snd] in H1, H2.
    destruct (IH nm1 H2) as [H3 H4].
    destruct (call_each nm1 rest) as [answers nm2]. cbn [fst snd] in *.
    split; [now rewrite H1, H3 | exact H4].
Qed.

Lemma number_keys_change :
  forallb (fun kv : str * str => negb (PyStr.eqb (snd kv) (fst kv))) NUMBER_MAP = true.
Proof. vm_compute. reflexivity. Qed.

Lemma number_of_fixed w : number_of w = w -> dict_get NUMBER_MAP w = None.
Proof.
  unfold number_of. destruct (dict_get NUMBER_MAP w) as [v|] eqn:E; [|reflexivity].
  intros ->. apply dict_get_in in E.
  pose proof number_keys_change as H. rewrite forallb_forall in H.
  specialize (H _ E). cbn [fst snd] in H. now rewrite PyStr_eqb_refl in H.
Qed.

Lemma clean_char_facts c :
  clean_char c = true ->
  PyStr.isspace c = false /\ PyStr.isupper c = false /\ is_punct c = false.
Proof.
  unfold clean_char. intro H.
  apply andb_prop in H. destruct H as [H H3].
  apply andb_prop in H. destruct H as [H1 H2].
  now rewrite negb_true_iff in H1, H2, H3.
Qed.

Lemma comma_search_needs_comma s :
  forall b, ~ In ","%char s -> COMMA_STRIP_search_from b s = false.
Proof.
  induction s as [|c s IH]; intros b H; [reflexivity|].
  cbn [COMMA_STRIP_search_from].
  rewrite IH by (intro F; apply H; now right).
  destruct (Ascii.eqb_spec c ","%char) as [E|E].
  - exfalso. apply H. left. exact E.
  - now rewrite andb_false_r.
Qed.

Lemma word_tokenize_no_comma item : ~ In ","%char (word_tokenize item).
Proof.
  unfold word_tokenize. intro H.
  apply in_strip in H. apply in_replace_from in H.
  destruct H as [H | H].
  - change (str_of_string "?") with ["?"%char] in H.
    apply in_replace_single in H. destruct H as [[H _] | []].
    change (str_of_string ",") with [","%char] in H.
    apply in_replace_single in H. destruct H as [[_ H] | []]. now apply H.
  - destruct H as [H | [H | [H | []]]]; discriminate H.
Qed.

Lemma PERIOD_STRIP_match_spec c s :
  PERIOD_STRIP_match (c :: s)
  = Ascii.eqb c "."
    && negb (match s with d :: _ => PyStr.isdigit d | [] => false end).
Proof.
  unfold PERIOD_STRIP_match.
  destruct (Ascii.eqb_spec c "."%char) as [-> | E].
  - reflexivity.
  - cbn [andb]. apply andb_false_r.
Qed.

Lemma digit_not_period :
  forall c, negb (PyStr.isdigit c) || negb (Ascii.eqb c ".") = true.
Proof. apply forall_ascii. vm_compute. reflexivity. Qed.

Lemma period_sub_digit_head limit d s :
  PyStr.isdigit d = true ->
  PERIOD_STRIP_sub_from [] limit (d :: s) = d :: PERIOD_STRIP_sub_from [] limit s.
Proof.
  intro Hd. cbn [PERIOD_STRIP_sub_from]. rewrite PERIOD_STRIP_match_spec.
  pose proof (digit_not_period d) as H. rewrite Hd in H. cbn [negb orb] in H.
  apply negb_true_iff in H. now rewrite H.
Qed.

Lemma period_sub_length s :
  forall k,
    length (PERIOD_STRIP_sub_from [] (Some k) s)
    + Nat.min (count_period_matches s) k = length s.
Proof.
  induction s as [|c s IH]; intro k; [reflexivity|].
  cbn [PERIOD_STRIP_sub_from count_period_matches].
  destruct (PERIOD_STRIP_match (c :: s)).
  - destruct k as [|k].
    + cbn [length]. specialize (IH 0). lia.
    + cbn [app str_of_string list_ascii_of_string length]. specialize (IH k). lia.
  - cbn [length]. specialize (IH k). lia.
Qed.

Lemma period_sub_kept s :
  forall k, count_period_matches s <= k ->
    periods_kept (PERIOD_STRIP_sub_from [] (Some k) s) = true.
Proof.
  induction s as [|c s IH]; intros k Hk; [reflexivity|].
  cbn [PERIOD_STRIP_sub_from count_period_matches] in *.
  destruct (PERIOD_STRIP_match (c :: s)) eqn:Em.
  - destruct k as [|k]; [lia|].
    cbn [app str_of_string list_ascii_of_string]. apply IH. lia.
  - cbn [periods_kept]. rewrite IH by lia. rewrite andb_true_r.
    rewrite PERIOD_STRIP_match_spec in Em.
    destruct (Ascii.eqb c "."); [|reflexivity].
    cbn [andb] in Em. apply negb_false_iff in Em.
    destruct s as [|d s]; [discriminate Em|].
    rewrite period_sub_digit_head by exact Em. now rewrite Em.
Qed.

End NormalizerMore.

(** X10: the entries that [setdefault] has added to [NUMBER_MAP] during
    earlier calls do not change what the normalizer returns: after any calls,
    a list of items is normalized to the list of the normalized items. *)
Theorem X10_normalizer_independent_of_earlier_calls :
  forall before items : list str,
    fst (call_each (snd (call_each EvalAIAnswerProcessor.NUMBER_MAP before)) items)
    = map EvalAIAnswerProcessor.__call__ items.
Proof.
  intros before items.
  destruct (call_each_number_map before extends_number_map_init) as [_ H].
  exact (proj1 (call_each_number_map items H)).
Qed.

(** X11: a normalized answer is its words joined by single blanks, and it
    holds no mark of [PUNCTUATIONS], no upper-case letter and no whitespace
    other than the blank. *)
Theorem X11_normalized_answer_shape :
  forall x : str,
    PyStr.join " " (PyStr.split (EvalAIAnswerProcessor.__call__ x))
    = EvalAIAnswerProcessor.__call__ x /\
    forall c, In c (EvalAIAnswerProcessor.__call__ x) ->
      is_punct c = false /\ PyStr.isupper c = false /\
      (PyStr.isspace c = true -> c = " "%char).
Proof.
  intro x. destruct (call_shape x) as [ws [E [Hsplit Hok]]].
  split; [now rewrite Hsplit|].
  rewrite E. intros c Hc. apply in_join in Hc.
  destruct Hc as [[<- | []] | [w [Hw Hc]]].
  - repeat split; reflexivity.
  - destruct (word_ok_facts _ (Hok w Hw)) as (_ & Hcl & _).
    rewrite forallb_forall in Hcl.
    destruct (clean_char_facts _ (Hcl c Hc)) as (H1 & H2 & H3).
    repeat split; trivial. intro F. congruence.
Qed.

(** X12: no word of a normalized answer is empty, an article, a number word
    of [NUMBER_MAP] or a contraction that [CONTRACTIONS] changes. *)
Theorem X12_normalized_words :
  forall (x w : str),
    In w (PyStr.split (EvalAIAnswerProcessor.__call__ x)) ->
    w <> [] /\
    EvalAIAnswerProcessor.is_article w = false /\
    dict_get EvalAIAnswerProcessor.NUMBER_MAP w = None /\
    EvalAIAnswerProcessor.expand w = w.
Proof.
  intros x w Hw. destruct (call_shape x) as [ws [_ [Hsplit Hok]]].
  rewrite Hsplit in Hw.
  destruct (word_ok_facts _ (Hok w Hw)) as (H1 & _ & H3 & H4 & H5).
  repeat split; trivial. now apply number_of_fixed.
Qed.

Lemma X12_normalized_words_witness :
  In ("dogs" : str) (PyStr.split (EvalAIAnswerProcessor.__call__ "Two dogs, a cat.")) /\
  EvalAIAnswerProcessor.is_article "dogs" = false.
Proof.
  assert (H : In ("dogs" : str)
                (PyStr.split (EvalAIAnswerProcessor.__call__ "Two dogs, a cat.")))
    by (vm_compute; right; left; reflexivity).
  split; [exact H|].
  exact (proj1 (proj2 (X12_normalized_words "Two dogs, a cat." "dogs" H))).
Defined.

(** X13: inside [__call__], the text that [process_punctuation] receives
    holds no comma, so that its test for a comma between digits never holds:
    a mark is deleted exactly when it stands next to a blank. *)
Theorem X13_comma_test_never_holds :
  forall item : str,
    let in_text :=
      PyStr.strip
        (PyStr.replace [EvalAIAnswerProcessor.tab] " "
           (PyStr.replace [EvalAIAnswerProcessor.newline] " "
              (EvalAIAnswerProcessor.word_tokenize item))) in
    ~ In ","%char in_text /\
    EvalAIAnswerProcessor.COMMA_STRIP_search in_text = false.
Proof.
  intros item in_text.
  assert (H : ~ In ","%char in_text).
  { unfold in_text. intro H. apply in_strip in H.
    apply in_replace_single in H. destruct H as [[H _] | [H | []]]; [|discriminate H].
    apply in_replace_single in H. destruct H as [[H _] | [H | []]]; [|discriminate H].
    now apply word_tokenize_no_comma in H. }
  split; [exact H|].
  now apply comma_search_needs_comma.
Qed.

(** X14: [PERIOD_STRIP] matches a period that is not followed by a digit
    (its first lookahead never fails), and the call of [sub], which gets the
    flag [re.UNICODE] = 32 as its count, removes the first 32 matches only:
    the text loses min(matches, 32) characters, and no match is left when
    there are at most 32. *)
Theorem X14_period_strip_count :
  forall s : str,
    (forall c rest,
       EvalAIAnswerProcessor.PERIOD_STRIP_match (c :: rest)
       = Ascii.eqb c "."
         && negb (match rest with d :: _ => PyStr.isdigit d | [] => false end)) /\
    length (EvalAIAnswerProcessor.PERIOD_STRIP_sub "" s EvalAIAnswerProcessor.re_UNICODE)
    + Nat.min (count_period_matches s) 32 = length s /\
    (count_period_matches s <= 32 ->
     periods_kept
       (EvalAIAnswerProcessor.PERIOD_STRIP_sub "" s EvalAIAnswerProcessor.re_UNICODE)
     = true).
Proof.
  intro s. split; [exact PERIOD_STRIP_match_spec|].
  split.
  - exact (period_sub_length s 32).
  - exact (@period_sub_kept s 32).
Qed.

Lemma X14_period_strip_count_witness :
  count_period_matches "a.b 1.5 x." <= 32 /\
  periods_kept
    (EvalAIAnswerProcessor.PERIOD_STRIP_sub "" "a.b 1.5 x." EvalAIAnswerProcessor.re_UNICODE)
  = true.
Proof.
  assert (H : count_period_matches "a.b 1.5 x." <= 32) by (vm_compute; lia).
  split; [exact H|].
  exact (proj2 (proj2 (X14_period_strip_count "a.b 1.5 x.")) H).
Defined.

(** ** The answer parsers *)

Section Parsers.

Lemma lstrip_by_first f s c r : PyStr.lstrip_by f s = c :: r -> f c = false.
Proof.
  induction s as [|a s IH]; cbn [PyStr.lstrip_by]; [discriminate|].
  destruct (f a) eqn:E; [exact IH|].
  intro H. injection H as Ha _. now subst a.
Qed.

Lemma lstrip_by_fixed f s :
  match s with c :: _ => f c = false | [] => True end -> PyStr.lstrip_by f s = s.
Proof. destruct s as [|c s]; [reflexivity|]. cbn [PyStr.lstrip_by]. now intros ->. Qed.

Lemma lstrip_by_idem f s :
  PyStr.lstrip_by f (PyStr.lstrip_by f s) = PyStr.lstrip_by f s.
Proof.
  apply lstrip_by_fixed. destruct (PyStr.lstrip_by f s) as [|c r] eqn:E; [exact I|].
  exact (lstrip_by_first _ _ E).
Qed.

Lemma strip_by_idem f s :
  PyStr.strip_by f (PyStr.strip_by f s) = PyStr.strip_by f s.
Proof.
  unfold PyStr.strip_by.
  assert (Hl : PyStr.lstrip_by f (PyStr.rstrip_by f (PyStr.lstrip_by f s))
               = PyStr.rstrip_by f (PyStr.lstrip_by f s)).
  { apply lstrip_by_fixed.
    destruct (rstrip_by_decomp f (PyStr.lstrip_by f s)) as [t [E _]].
    destruct (PyStr.rstrip_by f (PyStr.lstrip_by f s)) as [|c r]; [exact I|].
    cbn [app] in E. exact (lstrip_by_first _ _ E). }
  rewrite Hl. unfold PyStr.rstrip_by. now rewrite rev_involutive, lstrip_by_idem.
Qed.

Lemma strip_by_single f s c : PyStr.strip_by f s = [c] -> f c = false.
Proof.
  unfold PyStr.strip_by, PyStr.rstrip_by. intro H.
  apply (f_equal (@rev ascii)) in H. rewrite rev_involutive in H.
  cbn [rev app] in H. exact (lstrip_by_first _ _ H).
Qed.

Lemma lstrip_by_part f s : part_of (PyStr.lstrip_by f s) s.
Proof.
  destruct (lstrip_by_decomp f s) as [t [E _]].
  exists t, []. now rewrite app_nil_r.
Qed.

Lemma rstrip_by_part f s : part_of (PyStr.rstrip_by f s) s.
Proof.
  destruct (rstrip_by_decomp f s) as [t [E _]].
  exists [], t. exact E.
Qed.

Lemma part_of_refl s : part_of s s.
Proof. exists [], []. now rewrite app_nil_r. Qed.

Lemma part_of_trans a b c : part_of a b -> part_of b c -> part_of a c.
Proof.
  intros [p1 [q1 ->]] [p2 [q2 ->]].
  exists (p2 ++ p1), (q1 ++ q2). now rewrite <- !app_assoc.
Qed.

Lemma part_of_cons a c s : part_of a s -> part_of a (c :: s).
Proof. intros [p [q ->]]. now exists (c :: p), q. Qed.

Lemma part_of_in a s c : part_of a s -> In c a -> In c s.
Proof.
  intros [p [q ->]] H. apply in_or_app. right. apply in_or_app. now left.
Qed.

Lemma strip_by_part f s : part_of (PyStr.strip_by f s) s.
Proof.
  unfold PyStr.strip_by.
  exact (part_of_trans (rstrip_by_part f _) (lstrip_by_part f s)).
Qed.

Lemma dot_star_part s : part_of (Re.dot_star s) s.
Proof.
  induction s as [|c s [p [q E]]]; [apply part_of_refl|].
  cbn [Re.dot_star]. destruct (Ascii.eqb c (ascii_of_nat 10)).
  - now exists [], (c :: s).
  - assert (Hp : exists q', s = Re.dot_star s ++ q').
    { clear. induction s as [|a s [q' E]]; [now exists []|].
      cbn [Re.dot_star]. destruct (Ascii.eqb a (ascii_of_nat 10)).
      - now exists (a :: s).
      - exists q'. cbn [app]. now f_equal. }
    destruct Hp as [q' Hq]. exists [], q'. cbn [app]. now f_equal.
Qed.

Lemma dot_star_no_newline s : ~ In EvalAIAnswerProcessor.newline (Re.dot_star s).
Proof.
  induction s as [|c s IH]; [intros []|].
  cbn [Re.dot_star].
  destruct (Ascii.eqb_spec c (ascii_of_nat 10)) as [E|E]; [intros []|].
  intros [H|H]; [now apply E | now apply IH].
Qed.

Lemma before_first_part sep s : part_of (PyStr.before_first sep s) s.
Proof.
  induction s as [|c s [p [q E]]]; [apply part_of_refl|].
  cbn [PyStr.before_first]. destruct (PyStr.startswith sep (c :: s)).
  - now exists [], (c :: s).
  - assert (Hp : exists q', s = PyStr.before_first sep s ++ q').
    { clear. induction s as [|a s [q' E]]; [now exists []|].
      cbn [PyStr.before_first]. destruct (PyStr.startswith sep (a :: s)).
      - now exists (a :: s).
      - exists q'. cbn [app]. now f_equal. }
    destruct Hp as [q' Hq]. exists [], q'. cbn [app]. now f_equal.
Qed.

(** The test of [match_literals] is a prefix test on the lower-cased
    texts. *)
Lemma startswith_firstn p t :
  PyStr.startswith p t = PyStr.eqb (firstn (length p) t) p.
Proof.
  revert t. induction p as [|a p IH]; intro t.
  - cbn [PyStr.startswith length firstn]. now rewrite PyStr_eqb_refl.
  - destruct t as [|b t]; cbn [PyStr.startswith length firstn].
    + symmetry. destruct (PyStr.eqb [] (a :: p)) eqn:E; [|reflexivity].
      apply PyStr_eqb_eq in E. discriminate E.
    + rewrite IH. destruct (Ascii.eqb_spec a b) as [<- | Hab]; cbn [andb].
      * destruct (PyStr.eqb (firstn (length p) t) p) eqn:E.
        -- apply PyStr_eqb_eq in E. rewrite E. symmetry. apply PyStr_eqb_refl.
        -- symmetry. destruct (PyStr.eqb (a :: firstn (length p) t) (a :: p)) eqn:E';
             [|reflexivity].
           apply PyStr_eqb_eq in E'. injection E' as E'.
           rewrite E', PyStr_eqb_refl in E. discriminate E.
      * symmetry. destruct (PyStr.eqb (b :: firstn (length p) t) (a :: p)) eqn:E';
          [|reflexivity].
        apply PyStr_eqb_eq in E'. injection E' as E1 _. now subst.
Qed.

Lemma literal_test alt s :
  PyStr.eqb (PyStr.lower (firstn (length alt) s)) (PyStr.lower alt)
  = PyStr.startswith (PyStr.lower alt) (PyStr.lower s).
Proof.
  rewrite startswith_firstn. unfold PyStr.lower.
  now rewrite length_map, firstn_map.
Qed.

Lemma match_literals_none alts s :
  Re.match_literals alts s = None <->
  forall alt, In alt alts -> PyStr.startswith (PyStr.lower alt) (PyStr.lower s) = false.
Proof.
  induction alts as [|alt alts IH]; cbn [Re.match_literals].
  - split; [intros _ alt [] | reflexivity].
  - rewrite literal_test.
    destruct (PyStr.startswith (PyStr.lower alt) (PyStr.lower s)) eqn:E.
    + split; [discriminate|]. intro H.
      rewrite (H alt (or_introl eq_refl)) in E. discriminate E.
    + rewrite IH. split.
      * intros H a [<- | Ha]; [exact E | now apply H].
      * intros H a Ha. apply H. now right.
Qed.

Lemma match_literals_some alts s g1 rest :
  Re.match_literals alts s = Some (g1, rest) ->
  s = g1 ++ rest /\ exists alt, In alt alts /\ PyStr.lower g1 = PyStr.lower alt.
Proof.
  induction alts as [|alt alts IH]; cbn [Re.match_literals]; [discriminate|].
  destruct (PyStr.eqb (PyStr.lower (firstn (length alt) s)) (PyStr.lower alt)) eqn:E.
  - intro H. injection H as <- <-. split; [now rewrite firstn_skipn|].
    exists alt. split; [now left|]. now apply PyStr_eqb_eq.
  - intro H. destruct (IH H) as [H1 [a [Ha H2]]].
    split; [exact H1|]. exists a. split; [now right | exact H2].
Qed.

Lemma search_eq alts s :
  Re.search alts s
  = match Re.match_literals alts s with
    | Some (g1, rest) => Some (g1, Re.dot_star (PyStr.lstrip_by PyStr.isspace rest))
    | None => match s with [] => None | _ :: s' => Re.search alts s' end
    end.
Proof. destruct s; reflexivity. Qed.

Lemma search_none alts s :
  Re.search alts s = None <->
  forall alt, In alt alts -> PyStr.contains (PyStr.lower alt) (PyStr.lower s) = false.
Proof.
  induction s as [|c s IH]; rewrite search_eq.
  - destruct (Re.match_literals alts []) as [[g1 rest]|] eqn:E.
    + split; [discriminate|]. intro H.
      assert (Hn : Re.match_literals alts [] = None).
      { apply match_literals_none. intros alt Ha. specialize (H alt Ha).
        cbn [PyStr.lower map PyStr.contains] in H.
        now rewrite orb_false_r in H. }
      congruence.
    + split; [|reflexivity]. intros _ alt Ha.
      cbn [PyStr.lower map PyStr.contains]. rewrite orb_false_r.
      exact (proj1 (match_literals_none alts []) E alt Ha).
  - destruct (Re.match_literals alts (c :: s)) as [[g1 rest]|] eqn:E.
    + split; [discriminate|]. intro H.
      assert (Hn : Re.match_literals alts (c :: s) = None).
      { apply match_literals_none. intros alt Ha. specialize (H alt Ha).
        cbn [PyStr.lower map PyStr.contains] in H.
        now apply orb_false_elim in H. }
      congruence.
    + rewrite IH. split.
      * intros H alt Ha. cbn [PyStr.lower map PyStr.contains].
        change (map PyStr.lower_char s) with (PyStr.lower s). rewrite (H alt Ha).
        rewrite orb_false_r.
        exact (proj1 (match_literals_none alts (c :: s)) E alt Ha).
      * intros H alt Ha. specialize (H alt Ha).
        cbn [PyStr.lower map PyStr.contains] in H.
        now apply orb_false_elim in H.
Qed.

Lemma search_some alts s g1 g2 :
  Re.search alts s = Some (g1, g2) ->
  part_of g2 s /\ exists alt, In alt alts /\ PyStr.lower g1 = PyStr.lower alt.
Proof.
  induction s as [|c s IH]; rewrite search_eq.
  - destruct (Re.match_literals alts []) as [[h1 rest]|] eqn:E; [|discriminate].
    intro H. injection H as <- <-.
    destruct (match_literals_some _ _ E) as [Hs Halt].
    split; [|exact Halt].
    apply (part_of_trans (dot_star_part _)), (part_of_trans (lstrip_by_part _ _)).
    exists h1, []. now rewrite app_nil_r.
  - destruct (Re.match_literals alts (c :: s)) as [[h1 rest]|] eqn:E.
    + intro H. injection H as <- <-.
      destruct (match_literals_some _ _ E) as [Hs Halt].
      split; [|exact Halt].
      apply (part_of_trans (dot_star_part _)), (part_of_trans (lstrip_by_part _ _)).
      exists h1, []. now rewrite app_nil_r.
    + intro H. destruct (IH H) as [H1 H2]. split; [|exact H2].
      now apply part_of_cons.
Qed.

(** [p in s]: [s] has a part equal to [p]. *)
Lemma startswith_app p s : PyStr.startswith p s = true <-> exists q, s = p ++ q.
Proof.
  revert s. induction p as [|a p IH]; intro s.
  - split; [now exists s | reflexivity].
  - destruct s as [|b s]; cbn [PyStr.startswith].
    + split; [discriminate | intros [q E]; discriminate E].
    + rewrite andb_true_iff, IH. split.
      * intros [Hab [q ->]]. apply Ascii.eqb_eq in Hab. subst. now exists q.
      * intros [q E]. injection E as -> ->. split; [apply Ascii.eqb_refl | now exists q].
Qed.

Lemma contains_part p s : PyStr.contains p s = true <-> part_of p s.
Proof.
  induction s as [|c s IH]; cbn [PyStr.contains].
  - rewrite orb_false_r, startswith_app. split.
    + intros [q E]. now exists [], q.
    + intros [[|a pre] [post E]]; [now exists post|discriminate E].
  - rewrite orb_true_iff, IH, startswith_app. split.
    + intros [[q E] | H]; [now exists [], q | now apply part_of_cons].
    + intros [[|a pre] [post E]].
      * left. now exists post.
      * right. injection E as _ E. now exists pre, post.
Qed.

Lemma contains_app_r p1 p2 s :
  PyStr.contains (p1 ++ p2) s = true -> PyStr.contains p2 s = true.
Proof.
  rewrite !contains_part. intros [pre [post ->]].
  exists (pre ++ p1), post. now rewrite <- !app_assoc.
Qed.

Lemma upper_lower_alpha :
  forall x,
    negb (PyStr.isupper x)
    || (PyStr.isalpha (PyStr.lower_char x) && PyStr.isalpha x) = true.
Proof. apply forall_ascii. vm_compute. reflexivity. Qed.

(** Lower-casing the text does not change where a text without letters
    occurs. *)
Lemma eqb_lower_nonletter c x :
  PyStr.isalpha c = false -> Ascii.eqb c (PyStr.lower_char x) = Ascii.eqb c x.
Proof.
  intro Hc. unfold PyStr.lower_char at 1.
  destruct (PyStr.isupper x) eqn:U; [|reflexivity].
  pose proof (upper_lower_alpha x) as F. rewrite U in F. cbn [negb orb] in F.
  apply andb_prop in F. destruct F as [F1 F2].
  unfold PyStr.lower_char in F1. rewrite U in F1.
  destruct (Ascii.eqb_spec c (ascii_of_nat (PyStr.code x + 32))) as [E|_];
    [rewrite <- E in F1; congruence|].
  destruct (Ascii.eqb_spec c x) as [E|_]; [rewrite <- E in F2; congruence|].
  reflexivity.
Qed.

Lemma startswith_lower_nonletter p :
  forallb (fun c => negb (PyStr.isalpha c)) p = true ->
  forall s, PyStr.startswith p (PyStr.lower s) = PyStr.startswith p s.
Proof.
  induction p as [|a p IH]; intros H s; [reflexivity|].
  cbn [forallb] in H. apply andb_prop in H. destruct H as [Ha H].
  apply negb_true_iff in Ha.
  destruct s as [|b s]; [reflexivity|].
  cbn [PyStr.lower map PyStr.startswith].
  rewrite (@eqb_lower_nonletter a b Ha). f_equal. exact (IH H s).
Qed.

Lemma contains_lower_nonletter p s :
  forallb (fun c => negb (PyStr.isalpha c)) p = true ->
  PyStr.contains p (PyStr.lower s) = PyStr.contains p s.
Proof.
  intro H. induction s as [|b s IH].
  - reflexivity.
  - cbn [PyStr.lower map PyStr.contains].
    change (map PyStr.lower_char s) with (PyStr.lower s). rewrite IH. f_equal.
    exact (@startswith_lower_nonletter p H (b :: s)).
Qed.

Ltac parse_tail H g1 g2 Es El :=
  match type of H with
  | context [Re.search ?alts ?text] =>
      destruct (Re.search alts text) as [[g1 g2]|] eqn:Es; [|discriminate H]
  end;
  match type of H with
  | context [2 <? ?n] => destruct (2 <? n); [discriminate H|]
  end;
  match type of H with
  | context [length ?r =? 0] => destruct (length r =? 0) eqn:El; [discriminate H|]
  end.

Lemma parse_answer_ok text version r a :
  parse_answer text version = Ok (r, a) ->
  (version = ("en" : str) \/ version = ("zh" : str)) /\
  exists alts g1 g2,
    Re.search alts text = Some (g1, g2) /\
    a = PyStr.strip (PyStr.strip_chars "*" (PyStr.strip g2)) /\
    r = PyStr.strip (PyStr.strip_chars "*" (PyStr.strip
          (PyStr.before_first (PyStr.lower (PyStr.strip g1)) (PyStr.lower text)))) /\
    r <> [].
Proof.
  unfold parse_answer. intro H.
  destruct (PyStr.eqb version "en") eqn:E1.
  - apply PyStr_eqb_eq in E1. split; [now left|]. cbn [bind] in H. cbv zeta in H.
    parse_tail H g1 g2 Es El. injection H as Hr Ha.
    exists ["Final answer:" : str; "Answer:" : str], g1, g2.
    split; [exact Es|]. split; [now symmetry|]. split; [now symmetry|].
    assert (Hl : (length r =? 0) = false) by (rewrite <- Hr; exact El).
    intro F. rewrite F in Hl. discriminate Hl.
  - destruct (PyStr.eqb version "zh") eqn:E2; [|discriminate H].
    apply PyStr_eqb_eq in E2. split; [now right|]. cbn [bind] in H. cbv zeta in H.
    parse_tail H g1 g2 Es El. injection H as Hr Ha.
    exists ["答案:" : str], g1, g2.
    split; [exact Es|]. split; [now symmetry|]. split; [now symmetry|].
    assert (Hl : (length r =? 0) = false) by (rewrite <- Hr; exact El).
    intro F. rewrite F in Hl. discriminate Hl.
Qed.

Lemma lower_char_idem : forall c, Ascii.eqb (PyStr.lower_char (PyStr.lower_char c)) (PyStr.lower_char c) = true.
Proof. apply forall_ascii. vm_compute. reflexivity. Qed.

Lemma lower_lower s : PyStr.lower (PyStr.lower s) = PyStr.lower s.
Proof.
  unfold PyStr.lower. rewrite map_map. apply map_ext.
  intro c. apply Ascii.eqb_eq, lower_char_idem.
Qed.

End Parsers.

(** X15: [parse_answer] raises [NotImplementedError] exactly for a version
    other than [en] and [zh].  On an ASCII text, the English version fails
    with "Fail to parse answer" exactly when the lower-cased text does not
    contain "answer:", of which "final answer:" is a case; the Chinese
    version fails so exactly when the text does not contain its trigger. *)
Theorem X15_parse_answer_missing_trigger :
  forall text : str,
    (forall version : str,
       (exists msg, parse_answer text version = Raise (NotImplementedError msg))
       <-> (version <> ("en" : str) /\ version <> ("zh" : str))) /\
    (is_ascii text = true ->
     (parse_answer text "en" = Raise (RuntimeError ("Fail to parse answer: " ++ text))
      <-> PyStr.contains "answer:" (PyStr.lower text) = false)) /\
    (parse_answer text "zh" = Raise (RuntimeError ("Fail to parse answer: " ++ text))
     <-> PyStr.contains "答案:" text = false).
Proof.
  intro text. split; [|split].
  - intro version. unfold parse_answer.
    destruct (PyStr.eqb version "en") eqn:E1.
    + apply PyStr_eqb_eq in E1. cbn [bind]. split.
      * intros [msg H].
        destruct (Re.search _ text) as [[g1 g2]|]; [|discriminate H].
        destruct (2 <? _); [discriminate H|].
        destruct (length _ =? 0); discriminate H.
      * intros [H _]. contradiction.
    + destruct (PyStr.eqb version "zh") eqn:E2.
      * apply PyStr_eqb_eq in E2. cbn [bind]. split.
        -- intros [msg H].
           destruct (Re.search _ text) as [[g1 g2]|]; [|discriminate H].
           destruct (2 <? _); [discriminate H|].
           destruct (length _ =? 0); discriminate H.
        -- intros [_ H]. contradiction.
      * cbn [bind]. split.
        -- intros _. split; intro F; subst version.
           ++ now rewrite PyStr_eqb_refl in E1.
           ++ now rewrite PyStr_eqb_refl in E2.
        -- intros _. eexists. reflexivity.
  - intros _. unfold parse_answer. rewrite PyStr_eqb_refl. cbn [bind].
    destruct (Re.search ["Final answer:" : str; "Answer:" : str] text)
      as [[g1 g2]|] eqn:Es.
    + split.
      * intro H. exfalso.
        destruct (2 <? _); [discriminate H|].
        destruct (length _ =? 0); discriminate H.
      * intro H. exfalso.
        assert (Hn : Re.search ["Final answer:" : str; "Answer:" : str] text = None).
        { apply search_none. intros alt [<- | [<- | []]].
          - destruct (PyStr.contains (PyStr.lower "Final answer:") (PyStr.lower text))
              eqn:E; [|reflexivity].
            change (PyStr.lower "Final answer:") with (("final " : str) ++ ("answer:" : str)) in E.
            apply contains_app_r in E. congruence.
          - exact H. }
        congruence.
    + split; [|reflexivity]. intros _.
      exact (proj1 (search_none _ _) Es ("Answer:" : str) (or_intror (or_introl eq_refl))).
  - unfold parse_answer.
    replace (PyStr.eqb ("zh" : str) "en") with false by reflexivity.
    rewrite PyStr_eqb_refl. cbn [bind].
    rewrite <- (@contains_lower_nonletter "答案:" text eq_refl).
    destruct (Re.search ["答案:" : str] text) as [[g1 g2]|] eqn:Es.
    + split.
      * intro H. exfalso.
        destruct (2 <? _); [discriminate H|].
        destruct (length _ =? 0); discriminate H.
      * intro H. exfalso.
        assert (Hn : Re.search ["答案:" : str] text = None).
        { apply search_none. intros alt [<- | []]. exact H. }
        congruence.
    + split; [|reflexivity]. intros _.
      exact (proj1 (search_none _ _) Es ("答案:" : str) (or_introl eq_refl)).
Qed.

Lemma X15_parse_answer_missing_trigger_witness :
  is_ascii "no trigger here" = true /\
  parse_answer "no trigger here" "en"
  = Raise (RuntimeError ("Fail to parse answer: " ++ "no trigger here")).
Proof.
  assert (H : is_ascii "no trigger here" = true) by reflexivity.
  split; [exact H|].
  apply (proj1 (proj2 (X15_parse_answer_missing_trigger "no trigger here")) H).
  vm_compute. reflexivity.
Defined.

(** X16: what [parse_answer] returns.  The rationale is not empty, has no
    whitespace at its ends and is a part of the lower-cased text; the answer
    has no whitespace at its ends, holds no newline and is a part of the
    text. *)
Theorem X16_parse_answer_result :
  forall (text version rationale answer : str),
    parse_answer text version = Ok (rationale, answer) ->
    (version = ("en" : str) \/ version = ("zh" : str)) /\
    rationale <> [] /\
    PyStr.strip rationale = rationale /\
    PyStr.lower rationale = rationale /\
    part_of rationale (PyStr.lower text) /\
    PyStr.strip answer = answer /\
    ~ In EvalAIAnswerProcessor.newline answer /\
    part_of answer text.
Proof.
  intros text version r a H.
  destruct (parse_answer_ok _ _ H) as [Hv (alts & g1 & g2 & Hs & Ha & Hr & Hne)].
  destruct (search_some _ _ Hs) as [Hg2 _].
  assert (Hpr : part_of r (PyStr.lower text)).
  { rewrite Hr.
    apply (part_of_trans (strip_by_part _ _)), (part_of_trans (strip_by_part _ _)),
          (part_of_trans (strip_by_part _ _)), before_first_part. }
  assert (Hpa : part_of a g2).
  { rewrite Ha.
    apply (part_of_trans (strip_by_part _ _)), (part_of_trans (strip_by_part _ _)),
          strip_by_part. }
  split; [exact Hv|]. split; [exact Hne|].
  split; [rewrite Hr; apply strip_by_idem|].
  split.
  { apply map_fixed. intros c Hc. apply (@part_of_in _ _ c Hpr) in Hc.
    unfold PyStr.lower in Hc. apply in_map_iff in Hc. destruct Hc as [c0 [<- _]].
    apply Ascii.eqb_eq, lower_char_idem. }
  split; [exact Hpr|].
  split; [rewrite Ha; apply strip_by_idem|].
  split; [|exact (part_of_trans Hpa Hg2)].
  intro F. apply (@part_of_in _ _ _ Hpa) in F.
  assert (Hd : exists t, g2 = Re.dot_star t).
  { clear - Hs. revert Hs. induction text as [|c s IH]; rewrite search_eq.
    - destruct (Re.match_literals alts []) as [[h1 rest]|]; [|discriminate].
      intro H. injection H as _ <-. now eexists.
    - destruct (Re.match_literals alts (c :: s)) as [[h1 rest]|]; [|exact IH].
      intro H. injection H as _ <-. now eexists. }
  destruct Hd as [t ->]. exact (dot_star_no_newline _ F).
Qed.

Lemma X16_parse_answer_result_witness :
  parse_answer "It rains. Answer: yes" "en" = Ok ("it rains." : str, "yes" : str) /\
  PyStr.strip "yes" = ("yes" : str).
Proof.
  assert (H : parse_answer "It rains. Answer: yes" "en" = Ok ("it rains." : str, "yes" : str))
    by (vm_compute; reflexivity).
  split; [exact H|].
  exact (proj1 (proj2 (proj2 (proj2 (proj2 (proj2 (X16_parse_answer_result _ _ H))))))).
Defined.

Section ParsersMore.

Lemma space_facts :
  forall c,
    negb (PyStr.isspace c)
    || (negb (Ascii.eqb "f" (PyStr.lower_char c))
        && negb (Ascii.eqb "a" (PyStr.lower_char c))
        && PyStr.isspace (PyStr.lower_char c)) = true.
Proof. apply forall_ascii. vm_compute. reflexivity. Qed.

Lemma space_lower :
  forall c, Bool.eqb (PyStr.isspace (PyStr.lower_char c)) (PyStr.isspace c) = true.
Proof. apply forall_ascii. vm_compute. reflexivity. Qed.

Lemma space_not_letter c :
  PyStr.isspace c = true ->
  Ascii.eqb "f" (PyStr.lower_char c) = false /\
  Ascii.eqb "a" (PyStr.lower_char c) = false.
Proof.
  intro H. pose proof (space_facts c) as F. rewrite H in F. cbn [negb orb] in F.
  apply andb_prop in F. destruct F as [F _].
  apply andb_prop in F. destruct F as [F1 F2].
  now rewrite negb_true_iff in F1, F2.
Qed.

Lemma match_en_space w t :
  PyStr.isspace w = true -> Re.match_literals en_triggers (w :: t) = None.
Proof.
  intro Hw. destruct (@space_not_letter _ Hw) as [Hf Ha].
  apply match_literals_none. intros alt [<- | [<- | []]].
  - change (PyStr.lower "Final answer:") with ("final answer:" : str).
    cbn [PyStr.lower map str_of_string list_ascii_of_string PyStr.startswith].
    now rewrite Hf.
  - change (PyStr.lower "Answer:") with ("answer:" : str).
    cbn [PyStr.lower map str_of_string list_ascii_of_string PyStr.startswith].
    now rewrite Ha.
Qed.

Lemma search_skip_space ws t :
  forallb PyStr.isspace ws = true ->
  Re.search en_triggers (ws ++ t) = Re.search en_triggers t.
Proof.
  induction ws as [|w ws IH]; intro H; [reflexivity|].
  cbn [forallb] in H. apply andb_prop in H. destruct H as [Hw H].
  cbn [app]. rewrite search_eq, (@match_en_space _ _ Hw). now apply IH.
Qed.

Lemma skipn_length_app (A : Type) (l r : list A) : skipn (length l) (l ++ r) = r.
Proof. induction l as [|a l IH]; [reflexivity|]. exact IH. Qed.

Lemma lower_length s : length (PyStr.lower s) = length s.
Proof. apply length_map. Qed.

Lemma match_literals_hit alt alts trig rest :
  PyStr.lower trig = PyStr.lower alt ->
  Re.match_literals (alt :: alts) (trig ++ rest) = Some (trig, rest).
Proof.
  intro H. cbn [Re.match_literals]. cbv zeta.
  assert (Hn : length alt = length trig).
  { rewrite <- (lower_length trig), H. symmetry. apply lower_length. }
  now rewrite Hn, firstn_length_app, skipn_length_app, H, PyStr_eqb_refl.
Qed.

Lemma match_literals_miss alt alts s :
  PyStr.startswith (PyStr.lower alt) (PyStr.lower s) = false ->
  Re.match_literals (alt :: alts) s = Re.match_literals alts s.
Proof.
  intro H. cbn [Re.match_literals]. cbv zeta. now rewrite literal_test, H.
Qed.

Lemma match_en_trigger trig rest :
  PyStr.lower trig = ("answer:" : str) \/ PyStr.lower trig = ("final answer:" : str) ->
  Re.match_literals en_triggers (trig ++ rest) = Some (trig, rest).
Proof.
  intro H. unfold en_triggers. destruct H as [H | H].
  - rewrite match_literals_miss.
    + apply match_literals_hit. now rewrite H.
    + unfold PyStr.lower at 2. rewrite map_app. fold (PyStr.lower trig). rewrite H.
      reflexivity.
  - apply match_literals_hit. now rewrite H.
Qed.

Lemma lstrip_by_map f (g : ascii -> ascii) s :
  (forall c, f (g c) = f c) ->
  map g (PyStr.lstrip_by f s) = PyStr.lstrip_by f (map g s).
Proof.
  intro H. induction s as [|c s IH]; [reflexivity|].
  cbn [PyStr.lstrip_by map]. rewrite H. now destruct (f c).
Qed.

Lemma strip_by_map f (g : ascii -> ascii) s :
  (forall c, f (g c) = f c) ->
  map g (PyStr.strip_by f s) = PyStr.strip_by f (map g s).
Proof.
  intro H. unfold PyStr.strip_by, PyStr.rstrip_by.
  now rewrite map_rev, (@lstrip_by_map _ _ _ H), map_rev, (@lstrip_by_map _ _ _ H).
Qed.

Lemma lower_strip s : PyStr.lower (PyStr.strip s) = PyStr.strip (PyStr.lower s).
Proof.
  apply strip_by_map. intro c. apply eqb_prop, space_lower.
Qed.

Lemma before_first_skip sep c0 sep' ws t :
  sep = c0 :: sep' ->
  (forall w, In w ws -> Ascii.eqb c0 w = false) ->
  PyStr.before_first sep (ws ++ sep ++ t) = ws.
Proof.
  intros -> H. induction ws as [|w ws IH].
  - cbn [app PyStr.before_first].
    replace (PyStr.startswith (c0 :: sep') (c0 :: sep' ++ t)) with true; [reflexivity|].
    symmetry. apply startswith_app. now exists t.
  - cbn [app PyStr.before_first PyStr.startswith].
    rewrite (H w (or_introl eq_refl)). cbn [andb]. f_equal.
    apply IH. intros w' Hw'. apply H. now right.
Qed.

Lemma strip_spaces ws : forallb PyStr.isspace ws = true -> PyStr.strip ws = [].
Proof.
  intro H. unfold PyStr.strip, PyStr.strip_by.
  replace (PyStr.lstrip_by PyStr.isspace ws) with (@nil ascii); [reflexivity|].
  symmetry. induction ws as [|w ws IH]; [reflexivity|].
  cbn [forallb] in H. apply andb_prop in H. destruct H as [Hw H].
  cbn [PyStr.lstrip_by]. rewrite Hw. now apply IH.
Qed.

(** Nothing but whitespace before the trigger: the rationale is empty. *)
Lemma rationale_empty ws trig rest :
  forallb PyStr.isspace ws = true ->
  PyStr.lower trig = ("answer:" : str) \/ PyStr.lower trig = ("final answer:" : str) ->
  PyStr.strip (PyStr.strip_chars "*" (PyStr.strip
    (PyStr.before_first (PyStr.lower (PyStr.strip trig))
                        (PyStr.lower (ws ++ trig ++ rest))))) = [].
Proof.
  intros Hws Ht.
  assert (Hw : forall w, In w (PyStr.lower ws) ->
                 Ascii.eqb "f" w = false /\ Ascii.eqb "a" w = false /\
                 PyStr.isspace w = true).
  { intros w Hw. unfold PyStr.lower in Hw. apply in_map_iff in Hw.
    destruct Hw as [c [<- Hc]]. rewrite forallb_forall in Hws.
    destruct (@space_not_letter _ (Hws c Hc)) as [H1 H2].
    repeat split; trivial.
    pose proof (space_lower c) as E. apply eqb_prop in E. rewrite E. now apply Hws. }
  assert (Hsp : PyStr.strip (PyStr.lower ws) = []).
  { apply strip_spaces, forallb_forall. intros w Hin. now apply Hw. }
  rewrite lower_strip. unfold PyStr.lower at 2. rewrite !map_app.
  fold (PyStr.lower ws). fold (PyStr.lower trig). fold (PyStr.lower rest).
  destruct Ht as [-> | ->].
  - change (PyStr.strip "answer:") with ("answer:" : str).
    rewrite (@before_first_skip "answer:" "a" "nswer:" _ _ eq_refl)
      by (intros w Hin; now apply Hw).
    rewrite Hsp. reflexivity.
  - change (PyStr.strip "final answer:") with ("final answer:" : str).
    rewrite (@before_first_skip "final answer:" "f" "inal answer:" _ _ eq_refl)
      by (intros w Hin; now apply Hw).
    rewrite Hsp. reflexivity.
Qed.

Lemma upper_facts :
  forall c,
    negb (PyStr.islower (PyStr.upper_char c))
    && Ascii.eqb (PyStr.upper_char (PyStr.upper_char c)) (PyStr.upper_char c)
    && (negb (Ascii.eqb (PyStr.upper_char c) "*") || Ascii.eqb c "*") = true.
Proof. apply forall_ascii. vm_compute. reflexivity. Qed.

Lemma candidate_facts r :
  In r option_candidate ->
  exists c, r = [c] /\ PyStr.islower c = false /\ c <> "*"%char /\
            post_process r = Ok r.
Proof.
  unfold option_candidate. cbn [map]. intro H.
  repeat (destruct H as [<- | H];
          [eexists; split; [reflexivity|];
           split; [reflexivity|]; split; [discriminate | vm_compute; reflexivity]|]).
  destruct H.
Qed.

Lemma post_process_cases pred r :
  post_process pred = Ok r ->
  (exists c, PyStr.upper (PyStr.strip_chars "*" (PyStr.strip pred)) = [c] /\ r = [c]) \/
  (2 <= length (PyStr.strip_chars "*" (PyStr.strip pred)) /\ In r option_candidate).
Proof.
  unfold post_process. cbv zeta.
  assert (Hlen : length (PyStr.upper (PyStr.strip_chars "*" (PyStr.strip pred)))
                 = length (PyStr.strip_chars "*" (PyStr.strip pred)))
    by apply length_map.
  rewrite <- Hlen. clear Hlen.
  destruct (PyStr.upper (PyStr.strip_chars "*" (PyStr.strip pred)))
    as [|c0 [|c1 p']]; intro H.
  - discriminate H.
  - injection H as <-. left. now exists c0.
  - right. split; [cbn [length]; lia|].
    destruct (negb (PyStr.isalpha c1) && existsb (PyStr.eqb [c0]) option_candidate) eqn:E.
    + injection H as <-. apply andb_prop in E. destruct E as [_ E].
      apply existsb_exists in E. destruct E as [x [Hx E]].
      apply PyStr_eqb_eq in E. now subst x.
    + destruct p' as [|c2 p''].
      * destruct c0 as [[] [] [] [] [] [] [] []]; discriminate H.
      * destruct c0 as [[] [] [] [] [] [] [] []]; try discriminate H.
        destruct c2 as [[] [] [] [] [] [] [] []]; try discriminate H.
        cbv beta iota in H.
        destruct (existsb (PyStr.eqb [c1]) option_candidate) eqn:E'; [|discriminate H].
        injection H as <-.
        apply existsb_exists in E'. destruct E' as [x [Hx E']].
        apply PyStr_eqb_eq in E'. now subst x.
Qed.

End ParsersMore.

(** X17: a text with nothing but whitespace before its answer trigger has
    no rationale: [parse_answer] raises [RuntimeError], whatever the answer
    is. *)
Theorem X17_parse_answer_needs_rationale :
  forall (ws trig rest : str),
    forallb PyStr.isspace ws = true ->
    PyStr.lower trig = ("answer:" : str) \/ PyStr.lower trig = ("final answer:" : str) ->
    exists msg, parse_answer (ws ++ trig ++ rest) "en" = Raise (RuntimeError msg).
Proof.
  intros ws trig rest Hws Ht. unfold parse_answer.
  rewrite PyStr_eqb_refl. cbn [bind].
  fold en_triggers. rewrite (@search_skip_space _ _ Hws), search_eq.
  rewrite (@match_en_trigger _ _ Ht). cbv zeta.
  destruct (2 <? _); [eexists; reflexivity|].
  rewrite (@rationale_empty _ _ _ Hws Ht). cbn [length Nat.eqb].
  eexists. reflexivity.
Qed.

Lemma X17_parse_answer_needs_rationale_witness :
  forallb PyStr.isspace (" " : str) = true /\
  exists msg, parse_answer ((" " : str) ++ ("ANSWER:" : str) ++ (" 42" : str)) "en"
              = Raise (RuntimeError msg).
Proof.
  assert (H : forallb PyStr.isspace (" " : str) = true) by reflexivity.
  split; [exact H|].
  exact (@X17_parse_answer_needs_rationale " " "ANSWER:" " 42" H (or_introl eq_refl)).
Defined.

(** X18: on an ASCII text, what [post_process] returns is one character, no
    lower-case letter and no asterisk; it is one of the option letters
    unless the cleaned text is this one character; and unless it is a
    whitespace character, [post_process] returns it unchanged when applied
    to it again. *)
Theorem X18_post_process_result :
  forall pred r : str,
    is_ascii pred = true ->
    post_process pred = Ok r ->
    exists c, r = [c] /\
      PyStr.islower c = false /\
      c <> "*"%char /\
      (length (PyStr.strip_chars "*" (PyStr.strip pred)) <> 1 ->
       In r option_candidate) /\
      (PyStr.isspace c = false -> post_process r = Ok r).
Proof.
  intros pred r _ H.
  destruct (@post_process_cases _ _ H) as [[c [Hc ->]] | [Hlen Hin]].
  - exists c. split; [reflexivity|].
    destruct (PyStr.strip_chars "*" (PyStr.strip pred)) as [|c' [|c'' t]] eqn:E;
      try discriminate Hc.
    cbn [PyStr.upper map] in Hc. injection Hc as <-.
    pose proof (upper_facts c') as F.
    apply andb_prop in F. destruct F as [F F3].
    apply andb_prop in F. destruct F as [F1 F2].
    apply negb_true_iff in F1. apply Ascii.eqb_eq in F2.
    assert (Hstar : Ascii.eqb c' "*" = false).
    { pose proof (@strip_by_single _ _ _ E) as Hs.
      unfold PyStr.in_chars in Hs. cbn [existsb str_of_string list_ascii_of_string] in Hs.
      now rewrite orb_false_r in Hs. }
    rewrite Hstar, orb_false_r in F3. apply negb_true_iff in F3.
    split; [exact F1|].
    split; [intro Eq; rewrite Eq in F3; discriminate F3|].
    split; [intro Hn; exfalso; apply Hn; reflexivity|].
    intro Hsp. unfold post_process. cbv zeta.
    unfold PyStr.strip, PyStr.strip_chars, PyStr.strip_by, PyStr.rstrip_by.
    cbn [PyStr.lstrip_by]. rewrite Hsp. cbn [rev app PyStr.lstrip_by]. rewrite Hsp.
    cbn [rev app PyStr.lstrip_by]. unfold PyStr.in_chars.
    cbn [existsb str_of_string list_ascii_of_string]. rewrite F3.
    cbn [orb rev app PyStr.lstrip_by existsb]. rewrite F3.
    cbn [orb rev app PyStr.upper map]. now rewrite F2.
  - destruct (@candidate_facts _ Hin) as [c (-> & H1 & H2 & H3)].
    exists c. repeat split; trivial.
Qed.

Lemma X18_post_process_result_witness :
  is_ascii "b) dogs" = true /\
  post_process "b) dogs" = Ok ("B" : str) /\
  exists c, ("B" : str) = [c] /\ PyStr.islower c = false.
Proof.
  assert (Ha : is_ascii "b) dogs" = true) by reflexivity.
  assert (H : post_process "b) dogs" = Ok ("B" : str)) by (vm_compute; reflexivity).
  split; [exact Ha|]. split; [exact H|].
  destruct (@X18_post_process_result _ _ Ha H) as [c [H1 [H2 _]]].
  exists c. split; [exact H1 | exact H2].
Defined.

(** ** The Boolean scorers *)

Section Scorers.

Lemma sub_self s m e :
  Float64.sub (S754_finite s m e) (S754_finite s m e) = S754_zero false.
Proof.
  unfold Float64.sub, SFsub. cbv zeta. rewrite Z.sub_diag. reflexivity.
Qed.

Lemma relative_change_self x :
  is_finite x = true -> Float64.truthy x = true ->
  relative_change x x = Float64.zero.
Proof.
  destruct x as [s|s| |s m e]; intros Hf Ht;
    try discriminate Hf; try discriminate Ht.
  unfold relative_change. rewrite sub_self. reflexivity.
Qed.

Lemma relative_change_not_finite x tol :
  is_finite x = false -> Float64.leb (relative_change x x) tol = false.
Proof.
  destruct x as [s|s| |s m e]; try discriminate; intros _.
  - destruct s; reflexivity.
  - reflexivity.
Qed.

Lemma truthy_not_finite x : is_finite x = false -> Float64.truthy x = true.
Proof. destruct x as [s|s| |s m e]; try discriminate; reflexivity. Qed.

(** A scorer applied to a text and itself, after the text has been read. *)
Lemma compare_self x (t : str) tol :
  Float64.leb Float64.zero tol = true ->
  ((if Float64.truthy x
    then Float64.leb (relative_change x x) tol
    else PyStr.eqb (PyStr.lower t) (PyStr.lower t)) = false
   <-> is_finite x = false).
Proof.
  intro Htol. destruct (is_finite x) eqn:Ef.
  - destruct (Float64.truthy x) eqn:Et.
    + rewrite (@relative_change_self _ Ef Et), Htol. split; discriminate.
    + rewrite PyStr_eqb_refl. split; discriminate.
  - rewrite (@truthy_not_finite _ Ef), (@relative_change_not_finite _ tol Ef).
    split; reflexivity.
Qed.

Lemma read_self (read : option Float64.float) (t : str) tol :
  Float64.leb Float64.zero tol = true ->
  (match read with
   | Some x =>
       if Float64.truthy x
       then Float64.leb (relative_change x x) tol
       else PyStr.eqb (PyStr.lower t) (PyStr.lower t)
   | None => PyStr.eqb (PyStr.lower t) (PyStr.lower t)
   end = false
   <-> exists x, read = Some x /\ is_finite x = false).
Proof.
  intro Htol. destruct read as [x|].
  - rewrite (@compare_self x t tol Htol). split.
    + intro H. now exists x.
    + intros [y [Ey Hy]]. injection Ey as <-. exact Hy.
  - rewrite PyStr_eqb_refl. split; [discriminate|]. intros [y [Ey _]]. discriminate Ey.
Qed.

Lemma strip_by_cons f c s :
  f c = false -> PyStr.strip_by f (c :: s) = PyStr.rstrip_by f (c :: s).
Proof. intro H. unfold PyStr.strip_by. cbn [PyStr.lstrip_by]. now rewrite H. Qed.

Lemma lstrip_by_snoc f u c :
  f c = false -> PyStr.lstrip_by f (u ++ [c]) = PyStr.lstrip_by f u ++ [c].
Proof.
  intro H. induction u as [|a u IH]; cbn [app PyStr.lstrip_by].
  - now rewrite H.
  - destruct (f a); [exact IH | reflexivity].
Qed.

Lemma rstrip_by_cons f c s :
  f c = false -> PyStr.rstrip_by f (c :: s) = c :: PyStr.rstrip_by f s.
Proof.
  intro H. unfold PyStr.rstrip_by. cbn [rev].
  rewrite (@lstrip_by_snoc _ _ _ H), rev_app_distr. reflexivity.
Qed.

Lemma letter_facts :
  forall c,
    negb (PyStr.isalpha c)
    || (negb (PyStr.isspace c) && negb (Ascii.eqb c ".")
        && PyStr.isalpha (PyStr.lower_char c)) = true.
Proof. apply forall_ascii. vm_compute. reflexivity. Qed.

Lemma lower_letter :
  forall c, negb (PyStr.isalpha (PyStr.lower_char c)) || PyStr.isalpha c = true.
Proof. apply forall_ascii. vm_compute. reflexivity. Qed.

Lemma letter_split c :
  PyStr.isalpha c = true ->
  PyStr.isspace c = false /\ c <> "."%char /\ PyStr.isalpha (PyStr.lower_char c) = true.
Proof.
  intro H. pose proof (letter_facts c) as F. rewrite H in F. cbn [negb orb] in F.
  apply andb_prop in F. destruct F as [F F3].
  apply andb_prop in F. destruct F as [F1 F2].
  apply negb_true_iff in F1. apply negb_true_iff in F2.
  repeat split; trivial. intros ->. discriminate F2.
Qed.

Lemma paren_match_single (x : ascii) :
  match [x] with
  | "("%char :: c1 :: ")"%char :: _ => [c1]
  | _ => [x]
  end = [x].
Proof. destruct x as [[] [] [] [] [] [] [] []]; reflexivity. Qed.

Lemma dot_match_other (c0 x : ascii) (r : str) :
  x <> "."%char ->
  match c0 :: x :: r with
  | c0' :: "."%char :: _ => [c0']
  | _ => c0 :: x :: r
  end = c0 :: x :: r.
Proof.
  intro H. destruct x as [[] [] [] [] [] [] [] []]; try reflexivity.
  now contradiction H.
Qed.

Lemma find_seq (P : nat -> bool) n :
  forall a,
    match find P (seq a n) with
    | Some i => a <= i < a + n /\ P i = true /\ forall j, a <= j < i -> P j = false
    | None => forall j, a <= j < a + n -> P j = false
    end.
Proof.
  induction n as [|n IH]; intro a; cbn [seq find].
  - intros j Hj. lia.
  - destruct (P a) eqn:Ea.
    + split; [lia|]. split; [exact Ea|]. intros j Hj. lia.
    + specialize (IH (S a)). destruct (find P (seq (S a) n)) as [i|].
      * destruct IH as (H1 & H2 & H3). split; [lia|]. split; [exact H2|].
        intros j Hj. destruct (Nat.eq_dec j a) as [-> | Hne]; [exact Ea|].
        apply H3. lia.
      * intros j Hj. destruct (Nat.eq_dec j a) as [-> | Hne]; [exact Ea|].
        apply IH. lia.
Qed.

Lemma firstn_eq_nth (r : nat) :
  forall t1 t2 : list Z,
    r <= length t1 -> r <= length t2 ->
    (firstn r t1 = firstn r t2 <-> forall j, j < r -> nth j t1 0%Z = nth j t2 0%Z).
Proof.
  induction r as [|r IH]; intros t1 t2 H1 H2.
  - split; [intros _ j Hj; lia | reflexivity].
  - destruct t1 as [|a t1]; [cbn [length] in H1; lia|].
    destruct t2 as [|b t2]; [cbn [length] in H2; lia|].
    cbn [length] in H1, H2. cbn [firstn]. split.
    + intros E j Hj. injection E as Eab E. destruct j as [|j]; [exact Eab|].
      cbn [nth]. apply (proj1 (IH t1 t2 ltac:(lia) ltac:(lia)) E). lia.
    + intro H. f_equal.
      * exact (H 0 ltac:(lia)).
      * apply (IH t1 t2 ltac:(lia) ltac:(lia)). intros j Hj.
        exact (H (S j) ltac:(lia)).
Qed.

End Scorers.

(** X19: a text scores against itself unless it reads as [nan] or an
    infinity: for a tolerance that is not negative, [relaxed_correctness(t,
    t)] and [math_score(t, t)] are [False] exactly when the text is read as
    a float that is not finite. *)
Theorem X19_scorers_on_equal_texts :
  forall (t : str) (tol : Float64.float),
    Float64.leb Float64.zero tol = true ->
    (relaxed_correctness t t tol = false <->
     ((length t =? 4) && PyStr.startswith "20" t = false /\
      exists x, relaxed_correctness_def._to_float t = Some x /\ is_finite x = false)) /\
    (math_score t t tol = false <->
     exists x, math_score_def._to_float t = Some x /\ is_finite x = false).
Proof.
  intros t tol Htol. split.
  - unfold relaxed_correctness.
    destruct ((length t =? 4) && PyStr.startswith "20" t).
    + rewrite PyStr_eqb_refl. split; [discriminate | intros [F _]; discriminate F].
    + cbv zeta.
      pose proof (@read_self (relaxed_correctness_def._to_float t) t tol Htol) as R.
      destruct (relaxed_correctness_def._to_float t) as [x|];
        (split; [intro H; split; [reflexivity | exact (proj1 R H)]
                | intros [_ H]; exact (proj2 R H)]).
  - unfold math_score. cbv zeta.
    pose proof (@read_self (math_score_def._to_float t) t tol Htol) as R.
    destruct (math_score_def._to_float t) as [x|]; exact R.
Qed.

Lemma X19_scorers_on_equal_texts_witness :
  Float64.leb Float64.zero lit_0_05 = true /\
  relaxed_correctness "inf" "inf" lit_0_05 = false.
Proof.
  assert (H : Float64.leb Float64.zero lit_0_05 = true) by reflexivity.
  split; [exact H|].
  apply (proj1 (@X19_scorers_on_equal_texts "inf" lit_0_05 H)).
  split; [reflexivity|]. eexists. split; vm_compute; reflexivity.
Defined.

Section BooleanModes.

Lemma single_mode_subset name mode :
  in_mode name mode = true -> mode_subset [name] mode = true.
Proof. intro H. unfold mode_subset. cbn [forallb]. now rewrite H. Qed.

(** A mode that alone brings the accuracy to 1 decides for 1 in every list
    of modes that holds it. *)
Lemma accept_from_single c name answer_pred answer_gt mode :
  in_mode name mode = true ->
  accumulate answer_pred answer_gt [name] = Ok Float64.one ->
  fst (check_answer c answer_pred answer_gt mode) = Ok 1.
Proof.
  intros Hin Hone. unfold check_answer.
  destruct (PyStr.eqb (PyStr.lower answer_pred) (PyStr.lower answer_gt)) eqn:Hne;
    [reflexivity|].
  destruct (@accumulate_mono answer_pred answer_gt [name] mode Hne
              (single_mode_subset _ _ Hin)) as (r & r' & Hr & Hr' & Hle).
  rewrite Hr'. rewrite Hone in Hr. injection Hr as <-.
  assert (Ht : Float64.ltb lit_0_9 Float64.one = true) by reflexivity.
  rewrite (@threshold_mono lit_0_9 Float64.one r' Hle Ht). reflexivity.
Qed.

Lemma relaxed_alone answer_pred answer_gt :
  relaxed_correctness answer_gt answer_pred lit_0_05 = true ->
  accumulate answer_pred answer_gt ["relaxed_accuracy" : str] = Ok Float64.one.
Proof.
  intro H. unfold accumulate.
  rewrite when_mode_off by reflexivity. cbn [bind].
  rewrite when_mode_on by reflexivity.
  unfold relaxed_block. rewrite H. cbn [bind].
  rewrite when_mode_off by reflexivity. cbn [bind].
  rewrite when_mode_off by reflexivity. cbn [bind].
  rewrite when_mode_off by reflexivity. reflexivity.
Qed.

Lemma mc_alone answer_pred answer_gt :
  multi_choice_score answer_pred answer_gt = true ->
  accumulate answer_pred answer_gt ["mc_score" : str] = Ok Float64.one.
Proof.
  intro H. unfold accumulate.
  rewrite when_mode_off by reflexivity. cbn [bind].
  rewrite when_mode_off by reflexivity. cbn [bind].
  rewrite when_mode_off by reflexivity. cbn [bind].
  rewrite when_mode_on by reflexivity.
  unfold mc_block. rewrite H. cbn [bind].
  rewrite when_mode_off by reflexivity. reflexivity.
Qed.

Lemma math_alone answer_pred answer_gt :
  math_score answer_pred answer_gt lit_1e_3 = true ->
  accumulate answer_pred answer_gt ["math_score" : str] = Ok Float64.one.
Proof.
  intro H. unfold accumulate.
  rewrite when_mode_off by reflexivity. cbn [bind].
  rewrite when_mode_off by reflexivity. cbn [bind].
  rewrite when_mode_off by reflexivity. cbn [bind].
  rewrite when_mode_off by reflexivity. cbn [bind].
  rewrite when_mode_on by reflexivity.
  unfold math_block. rewrite H. reflexivity.
Qed.

End BooleanModes.

(** X20: a Boolean scorer that is enabled and accepts decides: when
    [relaxed_correctness(target, prediction)], [multi_choice_score(prediction,
    target)] or [math_score(prediction, target)] holds and its mode is in the
    list, [check_answer] returns 1, whatever the other modes are. *)
Theorem X20_check_answer_accepting_scorer :
  forall (c : cache) (prediction target : str) (mode : list str),
    (in_mode "relaxed_accuracy" mode && relaxed_correctness target prediction lit_0_05)
    || (in_mode "mc_score" mode && multi_choice_score prediction target)
    || (in_mode "math_score" mode && math_score prediction target lit_1e_3) = true ->
    fst (check_answer c prediction target mode) = Ok 1.
Proof.
  intros c prediction target mode H.
  apply orb_prop in H. destruct H as [H | H]; [apply orb_prop in H; destruct H as [H | H]|];
    apply andb_prop in H; destruct H as [Hin Hs].
  - exact (@accept_from_single c _ _ _ _ Hin (@relaxed_alone _ _ Hs)).
  - exact (@accept_from_single c _ _ _ _ Hin (@mc_alone _ _ Hs)).
  - exact (@accept_from_single c _ _ _ _ Hin (@math_alone _ _ Hs)).
Qed.

Lemma X20_check_answer_accepting_scorer_witness :
  in_mode "mc_score" ["vqa_score" : str; "mc_score" : str]
  && multi_choice_score "B. a dog" "b" = true /\
  fst (check_answer [] "B. a dog" "b" ["vqa_score" : str; "mc_score" : str]) = Ok 1.
Proof.
  assert (H : in_mode "mc_score" ["vqa_score" : str; "mc_score" : str]
              && multi_choice_score "B. a dog" "b" = true) by (vm_compute; reflexivity).
  split; [exact H|].
  apply X20_check_answer_accepting_scorer.
  rewrite H. now rewrite orb_true_r.
Defined.

(** X21: without the modes [vqa_score] and [anls], [check_answer] returns 1
    exactly when the answers are equal up to case or one of the enabled
    Boolean scorers accepts; [math_score] gets the prediction in the place
    of its target. *)
Theorem X21_check_answer_boolean_modes :
  forall (c : cache) (prediction target : str) (mode : list str),
    in_mode "vqa_score" mode = false ->
    in_mode "anls" mode = false ->
    fst (check_answer c prediction target mode)
    = Ok (if PyStr.eqb (PyStr.lower prediction) (PyStr.lower target)
             || (in_mode "relaxed_accuracy" mode
                 && relaxed_correctness target prediction lit_0_05)
             || (in_mode "mc_score" mode && multi_choice_score prediction target)
             || (in_mode "math_score" mode && math_score prediction target lit_1e_3)
          then 1 else 0).
Proof.
  intros c prediction target mode Hv Ha. unfold check_answer.
  destruct (PyStr.eqb (PyStr.lower prediction) (PyStr.lower target)); [reflexivity|].
  cbn [orb]. unfold accumulate, relaxed_block, mc_block, math_block.
  destruct (relaxed_correctness target prediction lit_0_05),
           (multi_choice_score prediction target),
           (math_score prediction target lit_1e_3);
    rewrite (@when_mode_off "vqa_score" mode _ _ Hv); cbn [bind];
    (destruct (in_mode "relaxed_accuracy" mode) eqn:E1;
     [rewrite (@when_mode_on "relaxed_accuracy" mode _ _ E1)
     |rewrite (@when_mode_off "relaxed_accuracy" mode _ _ E1)]); cbn [bind];
    rewrite (@when_mode_off "anls" mode _ _ Ha); cbn [bind];
    (destruct (in_mode "mc_score" mode) eqn:E2;
     [rewrite (@when_mode_on "mc_score" mode _ _ E2)
     |rewrite (@when_mode_off "mc_score" mode _ _ E2)]); cbn [bind];
    (destruct (in_mode "math_score" mode) eqn:E3;
     [rewrite (@when_mode_on "math_score" mode _ _ E3)
     |rewrite (@when_mode_off "math_score" mode _ _ E3)]);
    vm_compute; reflexivity.
Qed.

Lemma X21_check_answer_boolean_modes_witness :
  in_mode "vqa_score" ["math_score" : str] = false /\
  in_mode "anls" ["math_score" : str] = false /\
  fst (check_answer [] "12.5 cm" "12.5" ["math_score" : str]) = Ok 1.
Proof.
  split; [reflexivity|]. split; [reflexivity|].
  rewrite (@X21_check_answer_boolean_modes [] "12.5 cm" "12.5" ["math_score" : str]
             eq_refl eq_refl).
  vm_compute. reflexivity.
Defined.

(** X22: the two formats of a lettered choice.  For a letter [x] and a
    target that is this letter in either case, [multi_choice_score] accepts
    a prediction that begins with the letter and a period, or with the
    letter between parentheses, whatever follows. *)
Theorem X22_multi_choice_letter_formats :
  forall (x y : ascii) (rest : str),
    PyStr.isalpha x = true ->
    PyStr.lower_char x = PyStr.lower_char y ->
    multi_choice_score (x :: "."%char :: rest) [y] = true /\
    multi_choice_score ("("%char :: x :: ")"%char :: rest) [y] = true.
Proof.
  intros x y rest Hx Hxy.
  destruct (letter_split _ Hx) as (Hsx & Hdx & Hlx).
  assert (Hy : PyStr.isalpha y = true).
  { pose proof (lower_letter y) as F. rewrite <- Hxy, Hlx in F. exact F. }
  destruct (letter_split _ Hy) as (Hsy & _ & _).
  assert (Egt : PyStr.strip [y] = [y]).
  { unfold PyStr.strip. rewrite (@strip_by_cons _ _ _ Hsy), (@rstrip_by_cons _ _ _ Hsy).
    reflexivity. }
  assert (E1 : PyStr.strip (x :: "."%char :: rest)
               = x :: "."%char :: PyStr.rstrip_by PyStr.isspace rest).
  { unfold PyStr.strip.
    rewrite (@strip_by_cons _ _ _ Hsx), (@rstrip_by_cons _ _ _ Hsx),
            (@rstrip_by_cons PyStr.isspace "." _ eq_refl).
    reflexivity. }
  assert (E2 : PyStr.strip ("("%char :: x :: ")"%char :: rest)
               = "("%char :: x :: ")"%char :: PyStr.rstrip_by PyStr.isspace rest).
  { unfold PyStr.strip.
    rewrite (@strip_by_cons PyStr.isspace "(" _ eq_refl),
            (@rstrip_by_cons PyStr.isspace "(" _ eq_refl),
            (@rstrip_by_cons _ _ _ Hsx),
            (@rstrip_by_cons PyStr.isspace ")" _ eq_refl).
    reflexivity. }
  split.
  - unfold multi_choice_score. cbv zeta. rewrite Egt, E1.
    destruct (PyStr.eqb _ _); [reflexivity|].
    cbv beta iota. rewrite paren_match_single.
    cbn [PyStr.lower map]. rewrite Hxy. apply PyStr_eqb_refl.
  - unfold multi_choice_score. cbv zeta. rewrite Egt, E2.
    destruct (PyStr.eqb _ _); [reflexivity|].
    rewrite (@dot_match_other "(" x _ Hdx).
    cbv beta iota. cbn [PyStr.lower map]. rewrite Hxy. apply PyStr_eqb_refl.
Qed.

Lemma X22_multi_choice_letter_formats_witness :
  PyStr.isalpha "c" = true /\
  multi_choice_score ("("%char :: "c"%char :: ")"%char :: (" cats" : str)) ["C"%char] = true.
Proof.
  assert (H : PyStr.isalpha "c" = true) by reflexivity.
  split; [exact H|].
  exact (proj2 (@X22_multi_choice_letter_formats "c" "C" " cats" H eq_refl)).
Defined.

(** X23: [contain_keywords] holds exactly when one of the keywords is a
    part of the name. *)
Theorem X23_contain_keywords_substring :
  forall (ds_name : str) (keywords : list str),
    contain_keywords ds_name keywords = true <->
    exists keyword, In keyword keywords /\ part_of keyword ds_name.
Proof.
  intros ds_name keywords. unfold contain_keywords. rewrite existsb_exists.
  split; intros [k [Hk H]]; exists k; (split; [exact Hk|]); now apply contains_part.
Qed.

(** X24: [get_longest_common_prefix_index] returns the length of the longest
    common prefix: the two sequences agree on that many elements, and on no
    more. *)
Theorem X24_longest_common_prefix :
  forall tensor1 tensor2 : list Z,
    let r := get_longest_common_prefix_index tensor1 tensor2 in
    r <= length tensor1 /\ r <= length tensor2 /\
    firstn r tensor1 = firstn r tensor2 /\
    forall n, n <= length tensor1 -> n <= length tensor2 ->
              firstn n tensor1 = firstn n tensor2 -> n <= r.
Proof.
  intros t1 t2 r. unfold get_longest_common_prefix_index in r.
  pose proof (find_seq (fun i => negb (Z.eqb (nth i t1 0%Z) (nth i t2 0%Z)))
                       (Nat.min (length t1) (length t2)) 0) as F.
  cbv zeta in r.
  destruct (find (fun i => negb (Z.eqb (nth i t1 0%Z) (nth i t2 0%Z)))
                 (seq 0 (Nat.min (length t1) (length t2)))) as [i|] eqn:E;
    subst r.
  - destruct F as (Hi & Hd & Hbefore).
    assert (H1 : i <= length t1) by lia. assert (H2 : i <= length t2) by lia.
    split; [exact H1|]. split; [exact H2|]. split.
    + apply (@firstn_eq_nth _ _ _ H1 H2). intros j Hj.
      specialize (Hbefore j ltac:(lia)). apply negb_false_iff in Hbefore.
      now apply Z.eqb_eq.
    + intros n Hn1 Hn2 Hn.
      destruct (Nat.le_gt_cases n i) as [Hle | Hgt]; [exact Hle|].
      pose proof (proj1 (@firstn_eq_nth _ _ _ Hn1 Hn2) Hn i Hgt) as Heq.
      apply negb_true_iff in Hd. apply Z.eqb_neq in Hd. contradiction.
  - split; [lia|]. split; [lia|]. split.
    + apply firstn_eq_nth; [lia | lia |]. intros j Hj.
      specialize (F j ltac:(lia)). apply negb_false_iff in F.
      now apply Z.eqb_eq.
    + intros n Hn1 Hn2 _. lia.
Qed.

(** ** The pair returned by [parse_answer] *)

Section ParseAnswerPair.

Lemma lstrip_by_all f l u :
  forallb f l = true -> PyStr.lstrip_by f (l ++ u) = PyStr.lstrip_by f u.
Proof.
  induction l as [|a l IH]; intro H; [reflexivity|].
  cbn [forallb] in H. apply andb_prop in H. destruct H as [Ha H].
  cbn [app PyStr.lstrip_by]. rewrite Ha. now apply IH.
Qed.

Lemma lstrip_by_ext f g s :
  (forall c, f c = g c) -> PyStr.lstrip_by f s = PyStr.lstrip_by g s.
Proof.
  intro H. induction s as [|c s IH]; [reflexivity|].
  cbn [PyStr.lstrip_by]. rewrite <- H, IH. reflexivity.
Qed.

Lemma strip_by_ext f g s :
  (forall c, f c = g c) -> PyStr.strip_by f s = PyStr.strip_by g s.
Proof.
  intro H. unfold PyStr.strip_by, PyStr.rstrip_by.
  now rewrite (@lstrip_by_ext f g s H), (@lstrip_by_ext f g _ H).
Qed.

Lemma forallb_rev (f : ascii -> bool) l : forallb f l = true -> forallb f (rev l) = true.
Proof.
  rewrite !forallb_forall. intros H c Hc. apply H. now apply in_rev.
Qed.

(** [strip] gives the trimmed text, and nothing else is the trimmed text. *)
Lemma strip_by_trimmed f s : trimmed f s (PyStr.strip_by f s).
Proof.
  unfold trimmed, PyStr.strip_by.
  destruct (lstrip_by_decomp f s) as [l [El Hl]].
  destruct (rstrip_by_decomp f (PyStr.lstrip_by f s)) as [r [Er Hr]].
  exists l, r.
  split; [rewrite <- Er; exact El|].
  split; [exact Hl|]. split; [exact Hr|]. split.
  - destruct (PyStr.rstrip_by f (PyStr.lstrip_by f s)) as [|c t]; [exact I|].
    cbn [app] in Er. exact (lstrip_by_first _ _ Er).
  - unfold PyStr.rstrip_by. rewrite rev_involutive.
    destruct (PyStr.lstrip_by f (rev (PyStr.lstrip_by f s))) as [|c t] eqn:E;
      [exact I | exact (lstrip_by_first _ _ E)].
Qed.

Lemma trimmed_unique f s t : trimmed f s t -> t = PyStr.strip_by f s.
Proof.
  intros (l & r & -> & Hl & Hr & Hh & Hlast).
  unfold PyStr.strip_by. rewrite (@lstrip_by_all f l _ Hl).
  destruct t as [|c t'].
  - cbn [app]. rewrite <- (app_nil_r r), (@lstrip_by_all f r [] Hr). reflexivity.
  - cbn [app PyStr.lstrip_by]. rewrite Hh.
    unfold PyStr.rstrip_by. change (c :: t' ++ r) with ((c :: t') ++ r).
    rewrite rev_app_distr, (@lstrip_by_all f (rev r) _ (forallb_rev _ _ Hr)).
    rewrite (@lstrip_by_fixed f (rev (c :: t')) Hlast).
    symmetry. apply rev_involutive.
Qed.

Lemma star_class c :
  PyStr.in_chars "*" c = Ascii.eqb c "*".
Proof.
  unfold PyStr.in_chars. cbn [existsb str_of_string list_ascii_of_string].
  apply orb_false_r.
Qed.

Lemma cleaned_strip s :
  cleaned s (PyStr.strip (PyStr.strip_chars "*" (PyStr.strip s))).
Proof.
  exists (PyStr.strip s), (PyStr.strip_chars "*" (PyStr.strip s)).
  split; [apply strip_by_trimmed|]. split; [|apply strip_by_trimmed].
  unfold PyStr.strip_chars. rewrite (@strip_by_ext _ _ (PyStr.strip s) star_class).
  apply strip_by_trimmed.
Qed.

Lemma cleaned_unique s t :
  cleaned s t -> t = PyStr.strip (PyStr.strip_chars "*" (PyStr.strip s)).
Proof.
  intros (a & b & Ha & Hb & Ht).
  apply trimmed_unique in Ha. apply trimmed_unique in Hb. apply trimmed_unique in Ht.
  subst a b t. unfold PyStr.strip_chars.
  now rewrite (@strip_by_ext _ _ (PyStr.strip s) star_class).
Qed.

Lemma dot_star_split x :
  exists tail,
    x = Re.dot_star x ++ tail /\
    match tail with c :: _ => c = EvalAIAnswerProcessor.newline | [] => True end.
Proof.
  induction x as [|c x [tail [E Ht]]]; [now exists []|].
  cbn [Re.dot_star].
  destruct (Ascii.eqb_spec c (ascii_of_nat 10)) as [Ec|Ec].
  - exists (c :: x). split; [reflexivity | exact Ec].
  - exists tail. split; [cbn [app]; now f_equal | exact Ht].
Qed.

Lemma dot_star_id x : ~ In EvalAIAnswerProcessor.newline x -> Re.dot_star x = x.
Proof.
  induction x as [|c x IH]; intro H; [reflexivity|].
  cbn [Re.dot_star].
  destruct (Ascii.eqb_spec c (ascii_of_nat 10)) as [Ec|Ec].
  - exfalso. apply H. left. exact Ec.
  - f_equal. apply IH. intro F. apply H. now right.
Qed.

Lemma rest_of_line_spec after :
  rest_of_line after (Re.dot_star (PyStr.lstrip_by PyStr.isspace after)).
Proof.
  destruct (lstrip_by_decomp PyStr.isspace after) as [ws [E Hws]].
  destruct (dot_star_split (PyStr.lstrip_by PyStr.isspace after)) as [tail [Et Htail]].
  exists ws, tail.
  split; [rewrite <- Et; exact E|].
  split; [exact Hws|].
  split; [|split; [apply dot_star_no_newline | exact Htail]].
  rewrite <- Et.
  destruct (PyStr.lstrip_by PyStr.isspace after) as [|c t] eqn:El; [exact I|].
  exact (lstrip_by_first _ _ El).
Qed.

Lemma strip_lstrip f s :
  PyStr.strip_by f (PyStr.lstrip_by f s) = PyStr.strip_by f s.
Proof. unfold PyStr.strip_by. now rewrite lstrip_by_idem. Qed.

(** The match that [re.search] finds is the leftmost one. *)
Lemma search_en_leftmost s :
  forall g1 g2,
    Re.search en_triggers s = Some (g1, g2) ->
    exists before after,
      s = before ++ g1 ++ after /\
      g2 = Re.dot_star (PyStr.lstrip_by PyStr.isspace after) /\
      (PyStr.lower g1 = ("final answer:" : str) \/ PyStr.lower g1 = ("answer:" : str)) /\
      trigger_free before (g1 ++ after) = true.
Proof.
  assert (Hhit : forall s g1 g2 h1 rest,
            Re.match_literals en_triggers s = Some (h1, rest) ->
            Some (h1, Re.dot_star (PyStr.lstrip_by PyStr.isspace rest)) = Some (g1, g2) ->
            exists before after,
              s = before ++ g1 ++ after /\
              g2 = Re.dot_star (PyStr.lstrip_by PyStr.isspace after) /\
              (PyStr.lower g1 = ("final answer:" : str) \/
               PyStr.lower g1 = ("answer:" : str)) /\
              trigger_free before (g1 ++ after) = true).
  { intros s0 g1 g2 h1 rest E H. injection H as <- <-.
    destruct (match_literals_some _ _ E) as [Hs [alt [Halt Hl]]].
    exists [], rest. split; [exact Hs|]. split; [reflexivity|].
    split; [|reflexivity].
    destruct Halt as [<- | [<- | []]]; [left | right]; exact Hl. }
  induction s as [|c s IH]; intros g1 g2; rewrite search_eq.
  - destruct (Re.match_literals en_triggers []) as [[h1 rest]|] eqn:E; [|discriminate].
    exact (Hhit _ _ _ _ _ E).
  - destruct (Re.match_literals en_triggers (c :: s)) as [[h1 rest]|] eqn:E.
    + exact (Hhit _ _ _ _ _ E).
    + intro H. destruct (IH _ _ H) as (before & after & Es & Eg & Hc & Hf).
      exists (c :: before), after.
      split; [cbn [app]; now f_equal|]. split; [exact Eg|]. split; [exact Hc|].
      cbn [trigger_free]. rewrite Hf, andb_true_r.
      change ((c :: before) ++ g1 ++ after) with (c :: before ++ g1 ++ after).
      rewrite <- Es.
      pose proof (proj1 (match_literals_none en_triggers (c :: s)) E) as Hn.
      rewrite (Hn ("Final answer:" : str) (or_introl eq_refl)
               : PyStr.startswith "final answer:" (PyStr.lower (c :: s)) = false).
      rewrite (Hn ("Answer:" : str) (or_intror (or_introl eq_refl))
               : PyStr.startswith "answer:" (PyStr.lower (c :: s)) = false).
      reflexivity.
Qed.

(** Splitting the lower-cased text on the lower-cased trigger, as the code
    does, cuts at the trigger that was found. *)
Lemma before_first_trigger T before rest :
  T = ("final answer:" : str) \/ T = ("answer:" : str) ->
  trigger_free before rest = true ->
  PyStr.startswith T (PyStr.lower rest) = true ->
  PyStr.before_first T (PyStr.lower (before ++ rest)) = PyStr.lower before.
Proof.
  intros HT Hf Hs. induction before as [|b before IH].
  - cbn [app PyStr.lower map]. fold (PyStr.lower rest).
    destruct (PyStr.lower rest) as [|c r] eqn:E.
    + destruct HT as [-> | ->]; discriminate Hs.
    + cbn [PyStr.before_first]. now rewrite Hs.
  - cbn [trigger_free] in Hf.
    apply andb_prop in Hf. destruct Hf as [Hf Hrest].
    apply andb_prop in Hf. destruct Hf as [N1 N2].
    apply negb_true_iff in N1. apply negb_true_iff in N2.
    change (PyStr.lower ((b :: before) ++ rest))
      with (PyStr.lower_char b :: PyStr.lower (before ++ rest)) in *.
    cbn [PyStr.before_first].
    replace (PyStr.startswith T (PyStr.lower_char b :: PyStr.lower (before ++ rest)))
      with false by (destruct HT as [-> | ->]; symmetry; assumption).
    change (PyStr.lower (b :: before)) with (PyStr.lower_char b :: PyStr.lower before).
    f_equal. exact (IH Hrest).
Qed.

Lemma parse_answer_en_ok text r a :
  parse_answer text "en" = Ok (r, a) ->
  exists g1 g2,
    Re.search en_triggers text = Some (g1, g2) /\
    a = PyStr.strip (PyStr.strip_chars "*" (PyStr.strip g2)) /\
    r = PyStr.strip (PyStr.strip_chars "*" (PyStr.strip
          (PyStr.before_first (PyStr.lower (PyStr.strip g1)) (PyStr.lower text)))) /\
    r <> [].
Proof.
  unfold parse_answer. intro H. rewrite PyStr_eqb_refl in H.
  cbn [bind] in H. cbv zeta in H.
  destruct (Re.search ["Final answer:" : str; "Answer:" : str] text)
    as [[g1 g2]|] eqn:Es; [|discriminate H].
  destruct (2 <? _); [discriminate H|].
  match type of H with
  | context [length ?x =? 0] => destruct (length x =? 0) eqn:El; [discriminate H|]
  end.
  injection H as Hr Ha.
  exists g1, g2.
  split; [exact Es|]. split; [now symmetry|]. split; [now symmetry|].
  assert (Hl : (length r =? 0) = false) by (rewrite <- Hr; exact El).
  intro F. rewrite F in Hl. discriminate Hl.
Qed.

End ParseAnswerPair.

(** C9, as stated, fails: the answer is not always everything that follows
    the trigger, trimmed.  On a text that goes on after the line of the
    answer, ["It is red. Answer: red"], a newline and ["Done."], the code
    returns the answer "red". *)
Lemma C9_parse_answer_counterexample :
  ~ (forall (before trigger after rationale answer : str),
       PyStr.lower trigger = ("final answer:" : str) \/
       PyStr.lower trigger = ("answer:" : str) ->
       trigger_free before (trigger ++ after) = true ->
       parse_answer (before ++ trigger ++ after) "en" = Ok (rationale, answer) ->
       cleaned after answer).
Proof.
  intro H.
  assert (Hp : parse_answer
                 (("It is red. " : str) ++ ("Answer:" : str)
                  ++ ((" red" : str) ++ [EvalAIAnswerProcessor.newline] ++ ("Done." : str)))
                 "en"
               = Ok ("it is red." : str, "red" : str)) by (vm_compute; reflexivity).
  specialize (H ("It is red. " : str) ("Answer:" : str)
                ((" red" : str) ++ [EvalAIAnswerProcessor.newline] ++ ("Done." : str))
                ("it is red." : str) ("red" : str)
                (or_intror eq_refl) eq_refl Hp).
  apply cleaned_unique in H. vm_compute in H. discriminate H.
Qed.

(** C9, amended: on an ASCII text, when [parse_answer] returns a pair in the
    English version, the text is cut at the first trigger ("Final answer:"
    or "Answer:" in any case): the rationale is the lower-cased text before
    the trigger, trimmed of whitespace, of asterisks and of whitespace
    again, and it is not empty; the answer is, trimmed in the same way, the
    rest of the line on which the text resumes after the trigger and the
    whitespace that follows it.  It is everything after the trigger,
    trimmed, when no newline follows the trigger.  On "The sky is blue.
    Final answer: blue" the pair is ("the sky is blue.", "blue"). *)
Theorem C9_parse_answer_pair :
  (forall text rationale answer : str,
     is_ascii text = true ->
     parse_answer text "en" = Ok (rationale, answer) ->
     exists before trigger after : str,
       text = before ++ trigger ++ after /\
       (PyStr.lower trigger = ("final answer:" : str) \/
        PyStr.lower trigger = ("answer:" : str)) /\
       trigger_free before (trigger ++ after) = true /\
       cleaned (PyStr.lower before) rationale /\
       rationale <> [] /\
       (exists line, rest_of_line after line /\ cleaned line answer) /\
       (~ In EvalAIAnswerProcessor.newline after -> cleaned after answer)) /\
  parse_answer "The sky is blue. Final answer: blue" "en"
  = Ok ("the sky is blue." : str, "blue" : str).
Proof.
  split; [|vm_compute; reflexivity].
  intros text r a _ H.
  destruct (parse_answer_en_ok _ H) as (g1 & g2 & Hs & Ha & Hr & Hne).
  destruct (search_en_leftmost _ Hs) as (before & after & Et & Eg & Hc & Hf).
  exists before, g1, after.
  split; [exact Et|]. split; [exact Hc|]. split; [exact Hf|].
  assert (Hl : PyStr.lower (PyStr.strip g1) = PyStr.lower g1).
  { rewrite lower_strip. destruct Hc as [-> | ->]; reflexivity. }
  assert (Hstart : PyStr.startswith (PyStr.lower g1) (PyStr.lower (g1 ++ after)) = true).
  { unfold PyStr.lower at 2. rewrite map_app. apply startswith_app. now eexists. }
  split.
  { rewrite Hr, Hl, Et.
    rewrite (@before_first_trigger (PyStr.lower g1) before (g1 ++ after)
               Hc Hf Hstart).
    apply cleaned_strip. }
  split; [exact Hne|].
  split.
  { exists g2. split; [rewrite Eg; apply rest_of_line_spec|].
    rewrite Ha. apply cleaned_strip. }
  intro Hnl. rewrite Ha, Eg.
  rewrite dot_star_id
    by (intro F; apply Hnl; exact (in_lstrip_by _ _ _ F)).
  unfold PyStr.strip at 2. rewrite strip_lstrip. exact (cleaned_strip after).
Qed.

Lemma C9_parse_answer_witness :
  is_ascii "The sky is blue. Final answer: blue" = true /\
  parse_answer "The sky is blue. Final answer: blue" "en"
  = Ok ("the sky is blue." : str, "blue" : str) /\
  exists before trigger after : str,
    ("The sky is blue. Final answer: blue" : str) = before ++ trigger ++ after /\
    cleaned (PyStr.lower before) "the sky is blue." /\
    cleaned after "blue".
Proof.
  assert (Ha : is_ascii "The sky is blue. Final answer: blue" = true) by reflexivity.
  assert (H : parse_answer "The sky is blue. Final answer: blue" "en"
              = Ok ("the sky is blue." : str, "blue" : str)) by (vm_compute; reflexivity).
  split; [exact Ha|]. split; [exact H|].
  destruct (proj1 C9_parse_answer_pair _ _ _ Ha H)
    as (before & trigger & after & Et & _ & _ & Hr & _ & _ & Hall).
  exists before, trigger, after.
  split; [exact Et|]. split; [exact Hr|].
  apply Hall. intro F.
  assert (Hin : In EvalAIAnswerProcessor.newline
                   ("The sky is blue. Final answer: blue" : str)).
  { rewrite Et. apply in_or_app. right. apply in_or_app. now right. }
  vm_compute in Hin. intuition discriminate.
Defined.
